(** * Prep database integration: the data-access layer, embedded and verified

    The repository ships two variants of [DatabaseService]:
    - the reference variant (profile caching, per-field sanitisation,
      [executeWithErrorHandling]), embedded in [Module Ref];
    - the lock/dedupe variant ([executeWithLock], [isDuplicateOperation],
      [deduplicatePrepLists]), embedded in [Module Lock].

    JavaScript values are embedded as follows.  A string is the sequence of
    its UTF-16 code units, one [ascii] per code unit: the strings covered are
    those whose code units are below 256.  A text, array or enumeration
    property that the code tests for presence ([!x], [x || d], [x?.trim()])
    is an [option]; [None] stands for [null]/[undefined].  A property that
    the code passes to [Number] is a [JS.Value]: [undefined], [null], a
    boolean, a number (an IEEE 754 binary64, [NaN], the infinities and the
    two zeros included) or a string.  Times are integers of milliseconds
    ([Z]).  The hosted backend is an injected collaborator: every function
    that talks to it is parameterised by a [Backend] whose answers are
    arbitrary. *)

From Stdlib Require Import ZArith List Ascii Bool Lia.
From Stdlib Require String.
From Stdlib Require Import SpecFloat.
From stdpp Require Import base option list gmap strings.
Import ListNotations.

Local Open Scope Z_scope.

(** ** JavaScript primitives used by the service *)

Module JS.

(** The code units below 256 that are WhiteSpace or LineTerminator, which
    [String.prototype.trim] and [Number] strip: TAB, LF, VT, FF, CR, SPACE
    and NO-BREAK SPACE (U+00A0). *)
Definition is_ws (c : ascii) : bool :=
  let n := nat_of_ascii c in
  (Nat.eqb n 32 || (Nat.leb 9 n && Nat.leb n 13) || Nat.eqb n 160)%bool.

Fixpoint trimStart (s : string) : string :=
  match s with
  | EmptyString => EmptyString
  | String c r => if is_ws c then trimStart r else s
  end.

Fixpoint trimEnd (s : string) : string :=
  match s with
  | EmptyString => EmptyString
  | String c r =>
      match trimEnd r with
      | EmptyString => if is_ws c then EmptyString else String c EmptyString
      | r' => String c r'
      end
  end.

Definition trim (s : string) : string := trimEnd (trimStart s).

(** A string that does not begin with whitespace. *)
Definition starts_clean (s : string) : Prop :=
  match s with EmptyString => True | String c _ => is_ws c = false end.

(** Truthiness of a string: every string but the empty one. *)
Definition nonempty (s : string) : bool :=
  match s with EmptyString => false | String _ _ => true end.

(** Truthiness of a possibly missing string. *)
Definition truthy (o : option string) : bool :=
  match o with Some s => nonempty s | None => false end.

(** [x || null] on a possibly missing string. *)
Definition or_null (o : option string) : option string :=
  if truthy o then o else None.

(** [x?.trim() || null]. *)
Definition trim_or_null (o : option string) : option string :=
  or_null (trim <$> o).

(** *** Numbers

    A number is an IEEE 754 binary64, in the Standard Library's
    specification of floating-point values (precision 53, [emax] 1024). *)
Definition Number : Type := spec_float.

Definition NaN : Number := S754_nan.

(** The number of an integer. *)
Definition int (z : Z) : Number := binary_normalize 53 1024 z 0 false.

(** The values of a property that the code passes to [Number]. *)
Inductive Value :=
| Undefined
| Null
| Boolean (b : bool)
| Num (n : Number)
| Str (s : string).

(** Truthiness of a number: every number but the two zeros and [NaN]. *)
Definition number_truthy (n : Number) : bool :=
  match n with
  | S754_zero _ | S754_nan => false
  | _ => true
  end.

Definition ToBoolean (v : Value) : bool :=
  match v with
  | Undefined | Null => false
  | Boolean b => b
  | Num n => number_truthy n
  | Str s => nonempty s
  end.

(** [m * 10 ^ e10] with the sign [neg], rounded to the nearest number,
    ties to even. *)
Definition decimal (neg : bool) (m e10 : Z) : Number :=
  match m with
  | Zpos _ =>
      if 0 <=? e10
      then binary_normalize 53 1024 (cond_Zopp neg (m * 10 ^ e10)) 0 neg
      else
        let '(q, e, l) := SFdiv_core_binary 53 1024 m 0 (10 ^ (- e10)) 0 in
        binary_round_aux 53 1024 neg q e l
  | _ => S754_zero neg
  end.

(** The value of a digit of [base], for the bases up to 16. *)
Definition digit_of (base : Z) (c : ascii) : option Z :=
  let n := Z.of_nat (nat_of_ascii c) in
  let d := if (48 <=? n) && (n <=? 57) then n - 48
           else if (97 <=? n) && (n <=? 102) then n - 87
           else if (65 <=? n) && (n <=? 70) then n - 55
           else 16 in
  if d <? base then Some d else None.

(** The longest run of digits at the start of [s]: the value they give
    after [acc], their count added to [n], and the rest of [s]. *)
Fixpoint digits (base acc n : Z) (s : string) : Z * Z * string :=
  match s with
  | String c r =>
      match digit_of base c with
      | Some d => digits base (acc * base + d) (n + 1) r
      | None => (acc, n, s)
      end
  | EmptyString => (acc, n, s)
  end.

Definition sign_of (s : string) : bool * string :=
  match s with
  | String "+"%char r => (false, r)
  | String "-"%char r => (true, r)
  | _ => (false, s)
  end.

(** StrUnsignedDecimalLiteral, its sign already read: [Infinity], or
    digits with an optional fraction and an optional exponent. *)
Definition unsigned_decimal (neg : bool) (s : string) : Number :=
  if String.eqb s "Infinity" then S754_infinity neg
  else
    let '(i, ni, r1) := digits 10 0 0 s in
    let '(m, nf, r2) :=
      match r1 with
      | String "."%char r => digits 10 i 0 r
      | _ => (i, 0, r1)
      end in
    if ni + nf =? 0 then NaN
    else
      match r2 with
      | EmptyString => decimal neg m (- nf)
      | String c r =>
          if Ascii.eqb c "e"%char || Ascii.eqb c "E"%char then
            let '(eneg, r3) := sign_of r in
            let '(x, nx, r4) := digits 10 0 0 r3 in
            if (nx =? 0) || nonempty r4 then NaN
            else decimal neg m ((if eneg then - x else x) - nf)
          else NaN
      end.

(** NonDecimalIntegerLiteral: the digits after the prefix. *)
Definition non_decimal (base : Z) (s : string) : Number :=
  let '(m, n, r) := digits base 0 0 s in
  if (n =? 0) || nonempty r then NaN else decimal false m 0.

(** [Number(str)] on a string: white space is stripped; the empty string
    is 0; a text that is not a numeric literal is [NaN]. *)
Definition StringToNumber (str : string) : Number :=
  match trim str with
  | EmptyString => S754_zero false
  | String "0"%char (String "x"%char r)
  | String "0"%char (String "X"%char r) => non_decimal 16 r
  | String "0"%char (String "o"%char r)
  | String "0"%char (String "O"%char r) => non_decimal 8 r
  | String "0"%char (String "b"%char r)
  | String "0"%char (String "B"%char r) => non_decimal 2 r
  | s => let '(neg, r) := sign_of s in unsigned_decimal neg r
  end.

(** [Number(x)]. *)
Definition ToNumber (v : Value) : Number :=
  match v with
  | Undefined => NaN
  | Null => S754_zero false
  | Boolean b => if b then int 1 else S754_zero false
  | Num n => n
  | Str s => StringToNumber s
  end.

(** [Number(x) || null]. *)
Definition number_or_null (x : Value) : Value :=
  if number_truthy (ToNumber x) then Num (ToNumber x) else Null.

(** [Number(x) || 0]. *)
Definition number_or_zero (x : Value) : Value :=
  if number_truthy (ToNumber x) then Num (ToNumber x) else Num (int 0).

(** [x || 0]. *)
Definition or_zero (x : Value) : Value :=
  if ToBoolean x then x else Num (int 0).

(** [Array.isArray(x) ? x : []] and [x || []] on a possibly missing array. *)
Definition array_or_empty {A} (o : option (list A)) : list A := default [] o.

(** [hay.includes(needle)]. *)
Definition includes (needle hay : string) : bool :=
  match String.index 0 needle hay with Some _ => true | None => false end.

(** [s.slice(0, n)]. *)
Definition slice0 (n : nat) (s : string) : string := String.substring 0 n s.

(** Rendering of a possibly missing string inside a template literal. *)
Definition template (o : option string) : string := default "undefined" o.

End JS.

(** ** Data model

    One module per interface of the source, so that fields keep their names.
    The row records are the wire shape (snake_case, nullable) of the tables
    of the migrations. *)

Module PrepItem.
Record t := {
  id : string; name : string; quantity : string; unit : string;
  category : option string; completed : option bool;
  assignedTo : option string; notes : option string }.
End PrepItem.

Module PrepList.
Record t := {
  id : option string; name : option string; items : option (list PrepItem.t);
  company_id : option string;
  created_at : option string; updated_at : option string }.
End PrepList.

Module PrepListRow.
Record t := {
  id : option string; name : option string; items : option (list PrepItem.t);
  company_id : option string; user_id : option string;
  created_at : option string; updated_at : option string }.
End PrepListRow.

Inductive Status := planning | prep | active | complete.

Module Event.
Record t := {
  id : option string; name : option string; date : option string;
  invoiceNumber : option string; prepItems : option (list PrepItem.t);
  status : option Status; totalServings : JS.Value;
  company_id : option string;
  created_at : option string; updated_at : option string }.
End Event.

Module EventRow.
Record t := {
  id : option string; name : option string; date : option string;
  invoice_number : option string; prep_items : option (list PrepItem.t);
  status : option Status; total_servings : JS.Value;
  company_id : option string; user_id : option string;
  created_at : option string; updated_at : option string }.
End EventRow.

Inductive Difficulty := Easy | Medium | Hard.

Module Recipe.
Record t := {
  id : option string; name : option string; description : option string;
  ingredients : option (list string); instructions : option (list string);
  yield : option string;
  prepTime : JS.Value; cookTime : JS.Value; totalTime : JS.Value;
  difficulty : option Difficulty; tags : option (list string);
  notes : option string; image : option string;
  company_id : option string;
  createdAt : option string; updatedAt : option string }.
End Recipe.

Module RecipeRow.
Record t := {
  id : option string; name : option string; description : option string;
  ingredients : option (list string); instructions : option (list string);
  yield : option string;
  prep_time : JS.Value; cook_time : JS.Value; total_time : JS.Value;
  difficulty : option Difficulty; tags : option (list string);
  notes : option string; image : option string;
  company_id : option string; user_id : option string;
  created_at : option string; updated_at : option string }.
End RecipeRow.

Inductive DifficultyLevel := Beginner | Intermediate | Advanced.

Module Method.
Record t := {
  id : option string; name : option string; description : option string;
  category : option string; videoUrl : option string;
  instructions : option (list string); estimatedTime : JS.Value;
  difficultyLevel : option DifficultyLevel;
  tags : option (list string); equipment : option (list string);
  tips : option (list string);
  company_id : option string;
  createdAt : option string; updatedAt : option string }.
End Method.

Module MethodRow.
Record t := {
  id : option string; name : option string; description : option string;
  category : option string; video_url : option string;
  instructions : option (list string); estimated_time : JS.Value;
  difficulty_level : option DifficultyLevel;
  tags : option (list string); equipment : option (list string);
  tips : option (list string);
  company_id : option string; user_id : option string;
  created_at : option string; updated_at : option string }.
End MethodRow.

Inductive Role := user | admin | owner.

Module UserProfile.
Record t := {
  id : string; email : option string; full_name : option string;
  company_id : option string; role : Role; avatar_url : option string;
  created_at : option string; updated_at : option string }.
End UserProfile.

(** The object built by [ensureUserProfile] for the creating upsert. *)
Module NewProfile.
Record t := {
  id : string; email : option string; full_name : option string;
  role : Role }.
End NewProfile.

(** The authenticated identity ([session.user]). *)
Module User.
Record t := {
  id : string; email : option string; role : option string;
  full_name : option string (* user_metadata?.full_name *) }.
End User.

Module Session.
Record t := { user : User.t }.
End Session.

(** A row of [pg_policies], as far as the diagnosis reads it. *)
Module Policy.
Record t := { cmd : string; policyname : string }.
End Policy.

(** A thrown or returned error value: an [Error] raised locally carries only
    a message, a backend error also carries its SQLSTATE code and need not be
    an instance of [Error]. *)
Module JsError.
Record t := { message : string; code : option string; instanceofError : bool }.
End JsError.

(** [new Error(msg)]. *)
Definition Error (msg : string) : JsError.t :=
  {| JsError.message := msg; JsError.code := None;
     JsError.instanceofError := true |}.

(** ** The backend collaborator

    Each request of the client library is a constructor; [answer] gives the
    type of the [data] it resolves with.  A request either throws or resolves
    with a [{data, error}] pair. *)

(** The second argument of [upsert]. *)
Module UpsertOptions.
Record t := { onConflict : option string; ignoreDuplicates : option bool }.
End UpsertOptions.

Inductive Request :=
| GetSession
| OnAuthStateChange
| SelectLimit1 (table columns : string)
| ProfileById (uid : string)
| ProfileUpsert (p : NewProfile.t) (options : UpsertOptions.t)
| PrepListUpsert (row : PrepListRow.t) (options : UpsertOptions.t)
| EventUpsert (row : EventRow.t) (options : UpsertOptions.t)
| RecipeUpsert (row : RecipeRow.t) (options : UpsertOptions.t)
| MethodUpsert (row : MethodRow.t) (options : UpsertOptions.t)
| PrepListsAll
| EventsAll
| RecipesAll
| MethodsAll
| PrepListById (id : option string)
| DeleteById (table : string) (id : option string)
| PgClass (relname : string)
| PgPolicies (schemaname tablename : string).

Definition answer (q : Request) : Type :=
  match q with
  | GetSession => Session.t
  | OnAuthStateChange => unit
  | SelectLimit1 _ _ => unit
  | ProfileById _ => UserProfile.t
  | ProfileUpsert _ _ => UserProfile.t
  | PrepListUpsert _ _ => PrepListRow.t
  | EventUpsert _ _ => EventRow.t
  | RecipeUpsert _ _ => RecipeRow.t
  | MethodUpsert _ _ => MethodRow.t
  | PrepListsAll => list PrepListRow.t
  | EventsAll => list EventRow.t
  | RecipesAll => list RecipeRow.t
  | MethodsAll => list MethodRow.t
  | PrepListById _ => PrepListRow.t
  | DeleteById _ _ => unit
  | PgClass _ => bool (* relrowsecurity *)
  | PgPolicies _ _ => list Policy.t
  end.

(** Requests that ask the backend to change rows. *)
Definition is_write (q : Request) : bool :=
  match q with
  | ProfileUpsert _ _ | PrepListUpsert _ _ | EventUpsert _ _
  | RecipeUpsert _ _ | MethodUpsert _ _ | DeleteById _ _ => true
  | _ => false
  end.

Module Reply.
Record t (D : Type) := { data : option D; error : option JsError.t }.
Arguments data {D} _.
Arguments error {D} _.
End Reply.

Inductive Outcome (D : Type) :=
| Threw (e : JsError.t)
| Answered (r : Reply.t D).
Arguments Threw {D} e.
Arguments Answered {D} r.

(** How a request ended, as the request log records it. *)
Inductive Verdict :=
| Succeeded
| ReturnedError (e : JsError.t)
| Thrown (e : JsError.t).

Definition verdict {D} (o : Outcome D) : Verdict :=
  match o with
  | Threw e => Thrown e
  | Answered r =>
      match Reply.error r with
      | Some e => ReturnedError e
      | None => Succeeded
      end
  end.

(** The backend, with a state [R] of its own; [latency] is the time a
    request takes on the caller's clock, in milliseconds. *)
Class Backend (R : Type) := {
  respond : forall q : Request, R -> Outcome (answer q) * R;
  latency : Request -> R -> N }.

(** Build-time configuration and browser storage. *)
Module Env.
Record t := {
  VITE_SUPABASE_URL : string;
  VITE_SUPABASE_ANON_KEY : string;
  access_granted : option string (* localStorage 'prepchef:access_granted' *) }.
End Env.

(** ** Effects: service state, backend state, request log, clock

    An [async] method run to completion is a function of the world; [Raise]
    is a rejected promise (or a thrown exception), [Ok] a fulfilled one. *)

Module Eff.

Record World (S R : Type) := {
  svc : S;                 (* the static fields of the service class *)
  remote : R;              (* the state of the backend *)
  log : list (Request * Verdict); (* requests sent so far, oldest first *)
  now : Z;                 (* Date.now() *)
  env : Env.t }.
Arguments svc {S R} _.
Arguments remote {S R} _.
Arguments log {S R} _.
Arguments now {S R} _.
Arguments env {S R} _.

Inductive Res (A : Type) :=
| Ok (a : A)
| Raise (e : JsError.t).
Arguments Ok {A} a.
Arguments Raise {A} e.

Definition M (S R A : Type) : Type := World S R -> Res A * World S R.

Section Ops.
Context {S R : Type}.

Definition ret {A} (a : A) : M S R A := fun w => (Ok a, w).

Definition bind {A B} (m : M S R A) (k : A -> M S R B) : M S R B :=
  fun w =>
    match m w with
    | (Ok a, w') => k a w'
    | (Raise e, w') => (Raise e, w')
    end.

(** [throw e]. *)
Definition throw {A} (e : JsError.t) : M S R A := fun w => (Raise e, w).

(** [try { m } catch (e) { h e }]. *)
Definition try_catch {A} (m : M S R A) (h : JsError.t -> M S R A) : M S R A :=
  fun w =>
    match m w with
    | (Ok a, w') => (Ok a, w')
    | (Raise e, w') => h e w'
    end.

Definition get : M S R S := fun w => (Ok (svc w), w).

Definition modify (f : S -> S) : M S R unit :=
  fun w =>
    (Ok tt, {| svc := f (svc w); remote := remote w; log := log w;
               now := now w; env := env w |}).

Definition getEnv : M S R Env.t := fun w => (Ok (env w), w).

(** [Date.now()]. *)
Definition dateNow : M S R Z := fun w => (Ok (now w), w).

(** The caller lets [d] milliseconds pass. *)
Definition later (d : Z) (w : World S R) : World S R :=
  {| svc := svc w; remote := remote w; log := log w; now := now w + d;
     env := env w |}.

(** [await <request>]: the request is logged, the backend answers and
    moves on, the clock advances by the latency. *)
Definition call `{Backend R} (q : Request) : M S R (Reply.t (answer q)) :=
  fun w =>
    let '(o, r') := respond q (remote w) in
    let w' := {| svc := svc w; remote := r';
                 log := log w ++ [(q, verdict o)];
                 now := now w + Z.of_N (latency q (remote w));
                 env := env w |} in
    match o with
    | Threw e => (Raise e, w')
    | Answered r => (Ok r, w')
    end.

(** A mutable local object [D] next to the service state: [with_var d0 m]
    runs [m] with the local initialised to [d0] and returns its final
    value; [with_local] runs a method that does not see the local. *)
Definition enter {D} (d : D) (w : World S R) : World (S * D) R :=
  {| svc := (svc w, d); remote := remote w; log := log w;
     now := now w; env := env w |}.
Definition leave {D} (w : World (S * D) R) : World S R :=
  {| svc := fst (svc w); remote := remote w; log := log w;
     now := now w; env := env w |}.

Definition with_var {D} (d0 : D) (m : M (S * D) R unit) : M S R D :=
  fun w =>
    match m (enter d0 w) with
    | (Ok _, w') => (Ok (snd (svc w')), leave w')
    | (Raise e, w') => (Raise e, leave w')
    end.

Definition with_local {D A} (m : M S R A) : M (S * D) R A :=
  fun w =>
    let '(res, w') := m (leave w) in
    (res, enter (snd (svc w)) w').

Definition update {D} (f : D -> D) : M (S * D) R unit :=
  fun w =>
    (Ok tt, {| svc := (fst (svc w), f (snd (svc w))); remote := remote w;
               log := log w; now := now w; env := env w |}).

Definition read {D} : M (S * D) R D := fun w => (Ok (snd (svc w)), w).

(** [for (const x of xs) { body x }]. *)
Fixpoint for_each {A} (xs : list A) (body : A -> M S R unit) : M S R unit :=
  match xs with
  | [] => ret tt
  | x :: xs' => bind (body x) (fun _ => for_each xs' body)
  end.

End Ops.

(** *** Specification vocabulary

    [respects phi m]: running [m] from any world [w] ends in a world
    related to [w] by [phi], whatever [m] returns or raises. *)
Definition respects {S R A} (phi : World S R -> World S R -> Prop)
    (m : M S R A) : Prop :=
  forall w, phi w (snd (m w)).

(** [m] never raises. *)
Definition total {S R A} (m : M S R A) : Prop :=
  forall w, exists a, fst (m w) = Ok a.

(** The requests sent between [w] and [w'] all satisfy [P]. *)
Definition sends {S R} (P : Request -> Prop) (w w' : World S R) : Prop :=
  exists tr, log w' = log w ++ tr /\ Forall (fun x => P (fst x)) tr.

(** Nothing was sent between [w] and [w']. *)
Definition silent {S R} (w w' : World S R) : Prop := log w' = log w.

(** A relation on worlds seen through a local variable. *)
Definition lifted {S D R} (phi : World S R -> World S R -> Prop)
    (w w' : World (S * D) R) : Prop :=
  phi (leave w) (leave w').

Module Notations.
Notation "x <- m ;; k" := (bind m (fun x => k))
  (at level 100, m at next level, right associativity).
Notation "m ;;; k" := (bind m (fun _ => k))
  (at level 100, right associativity).
End Notations.

End Eff.

(** ** The reference variant of [DatabaseService] *)

Module Ref.
Import Eff Eff.Notations.

(** The static fields of the class.  A [connectionPromise] that has
    settled with [b] is [Some b]; [null] is [None]. *)
Record Svc := {
  isInitialized : bool;
  connectionPromise : option bool;
  currentUser : option User.t;
  userProfile : option UserProfile.t }.

Definition set_isInitialized (b : bool) (s : Svc) : Svc :=
  {| isInitialized := b; connectionPromise := connectionPromise s;
     currentUser := currentUser s; userProfile := userProfile s |}.
Definition set_connectionPromise (c : option bool) (s : Svc) : Svc :=
  {| isInitialized := isInitialized s; connectionPromise := c;
     currentUser := currentUser s; userProfile := userProfile s |}.
Definition set_currentUser (u : option User.t) (s : Svc) : Svc :=
  {| isInitialized := isInitialized s;
     connectionPromise := connectionPromise s;
     currentUser := u; userProfile := userProfile s |}.
Definition set_userProfile (p : option UserProfile.t) (s : Svc) : Svc :=
  {| isInitialized := isInitialized s;
     connectionPromise := connectionPromise s;
     currentUser := currentUser s; userProfile := p |}.

(** The listener registered by [initialize], run at an auth transition. *)
Definition onAuthStateChange (session : option Session.t) (s : Svc) : Svc :=
  set_connectionPromise None
    (set_userProfile None (set_currentUser (Session.user <$> session) s)).

(** Messages of the errors the service raises itself. *)
Definition msg_connection : string :=
  "Database connection not available. Please check your Supabase configuration.".
Definition msg_table_missing : string :=
  "Table not found. Please ensure database migrations have been run.".
Definition msg_access_denied : string :=
  "Access denied. Please check Row Level Security policies or authentication.".
Definition msg_duplicate : string :=
  "Duplicate entry detected. This item may already exist.".
Definition msg_token : string :=
  "Authentication token invalid. Please refresh and try again.".
Definition msg_no_row : string :=
  "Cannot read properties of null".

Definition code_is (c : string) (e : JsError.t) : bool :=
  bool_decide (JsError.code e = Some c).

Definition upsert_by_id : UpsertOptions.t :=
  {| UpsertOptions.onConflict := Some "id";
     UpsertOptions.ignoreDuplicates := Some false |}.
Definition on_conflict_id : UpsertOptions.t :=
  {| UpsertOptions.onConflict := Some "id";
     UpsertOptions.ignoreDuplicates := None |}.

(** *** Entity mappers

    [sanitize*] is the first part of the body of a save: validation, the
    authentication guard, and the object literal sent to the backend
    (the wire format).  [*_of_data] is the object a save returns from the
    stored row, [*_of_item] the one a load builds from each row. *)

Definition msg_preplist_invalid : string :=
  "Prep list must have a valid ID and name".
Definition msg_preplist_auth : string :=
  "Authentication required to save prep lists".
Definition msg_event_invalid : string :=
  "Event must have valid ID, name, and date".
Definition msg_event_auth : string :=
  "Authentication required to save events".
Definition msg_recipe_invalid : string :=
  "Recipe must have valid ID and name".
Definition msg_recipe_auth : string :=
  "Authentication required to save recipes".
Definition msg_method_invalid : string :=
  "Method must have valid ID and name".
Definition msg_method_auth : string :=
  "Authentication required to save methods".
Definition msg_delete_invalid : string :=
  "Valid ID required for deletion".

Definition sanitizePrepList (currentUser : option User.t) (prepList : PrepList.t)
  : Res PrepListRow.t :=
  if negb (JS.truthy (PrepList.id prepList))
     || negb (JS.truthy (JS.trim <$> PrepList.name prepList))
  then Raise (Error msg_preplist_invalid)
  else
    match currentUser with
    | None => Raise (Error msg_preplist_auth)
    | Some u =>
        Ok {| PrepListRow.id := PrepList.id prepList;
              PrepListRow.name := JS.trim <$> PrepList.name prepList;
              PrepListRow.items := Some (JS.array_or_empty (PrepList.items prepList));
              PrepListRow.company_id := JS.or_null (PrepList.company_id prepList);
              PrepListRow.user_id := Some (User.id u);
              PrepListRow.created_at := None;
              PrepListRow.updated_at := None |}
    end.

Definition prepList_of_data (data : PrepListRow.t) : PrepList.t :=
  {| PrepList.id := PrepListRow.id data;
     PrepList.name := PrepListRow.name data;
     PrepList.items := Some (JS.array_or_empty (PrepListRow.items data));
     PrepList.company_id := PrepListRow.company_id data;
     PrepList.created_at := PrepListRow.created_at data;
     PrepList.updated_at := PrepListRow.updated_at data |}.

Definition prepList_of_item (item : PrepListRow.t) : PrepList.t :=
  {| PrepList.id := PrepListRow.id item;
     PrepList.name := PrepListRow.name item;
     PrepList.items := Some (JS.array_or_empty (PrepListRow.items item));
     PrepList.company_id := PrepListRow.company_id item;
     PrepList.created_at := PrepListRow.created_at item;
     PrepList.updated_at := PrepListRow.updated_at item |}.

Definition sanitizeEvent (currentUser : option User.t) (event : Event.t)
  : Res EventRow.t :=
  if negb (JS.truthy (Event.id event))
     || negb (JS.truthy (JS.trim <$> Event.name event))
     || negb (JS.truthy (Event.date event))
  then Raise (Error msg_event_invalid)
  else
    match currentUser with
    | None => Raise (Error msg_event_auth)
    | Some u =>
        Ok {| EventRow.id := Event.id event;
              EventRow.name := JS.trim <$> Event.name event;
              EventRow.date := Event.date event;
              EventRow.invoice_number := JS.or_null (Event.invoiceNumber event);
              EventRow.prep_items := Some (JS.array_or_empty (Event.prepItems event));
              EventRow.status := Some (default planning (Event.status event));
              EventRow.total_servings := JS.number_or_zero (Event.totalServings event);
              EventRow.company_id := JS.or_null (Event.company_id event);
              EventRow.user_id := Some (User.id u);
              EventRow.created_at := None;
              EventRow.updated_at := None |}
    end.

Definition event_of_data (data : EventRow.t) : Event.t :=
  {| Event.id := EventRow.id data;
     Event.name := EventRow.name data;
     Event.date := EventRow.date data;
     Event.invoiceNumber := EventRow.invoice_number data;
     Event.prepItems := Some (JS.array_or_empty (EventRow.prep_items data));
     Event.status := EventRow.status data;
     Event.totalServings := JS.or_zero (EventRow.total_servings data);
     Event.company_id := EventRow.company_id data;
     Event.created_at := EventRow.created_at data;
     Event.updated_at := EventRow.updated_at data |}.

Definition event_of_item (item : EventRow.t) : Event.t :=
  {| Event.id := EventRow.id item;
     Event.name := EventRow.name item;
     Event.date := EventRow.date item;
     Event.invoiceNumber := EventRow.invoice_number item;
     Event.prepItems := Some (JS.array_or_empty (EventRow.prep_items item));
     Event.status := Some (default planning (EventRow.status item));
     Event.totalServings := JS.number_or_zero (EventRow.total_servings item);
     Event.company_id := EventRow.company_id item;
     Event.created_at := EventRow.created_at item;
     Event.updated_at := EventRow.updated_at item |}.

Definition sanitizeRecipe (currentUser : option User.t) (recipe : Recipe.t)
  : Res RecipeRow.t :=
  if negb (JS.truthy (Recipe.id recipe))
     || negb (JS.truthy (JS.trim <$> Recipe.name recipe))
  then Raise (Error msg_recipe_invalid)
  else
    match currentUser with
    | None => Raise (Error msg_recipe_auth)
    | Some u =>
        Ok {| RecipeRow.id := Recipe.id recipe;
              RecipeRow.name := JS.trim <$> Recipe.name recipe;
              RecipeRow.description := JS.trim_or_null (Recipe.description recipe);
              RecipeRow.ingredients := Some (JS.array_or_empty (Recipe.ingredients recipe));
              RecipeRow.instructions := Some (JS.array_or_empty (Recipe.instructions recipe));
              RecipeRow.yield := JS.trim_or_null (Recipe.yield recipe);
              RecipeRow.prep_time := JS.number_or_null (Recipe.prepTime recipe);
              RecipeRow.cook_time := JS.number_or_null (Recipe.cookTime recipe);
              RecipeRow.total_time := JS.number_or_null (Recipe.totalTime recipe);
              RecipeRow.difficulty := Some (default Medium (Recipe.difficulty recipe));
              RecipeRow.tags := Some (JS.array_or_empty (Recipe.tags recipe));
              RecipeRow.notes := JS.trim_or_null (Recipe.notes recipe);
              RecipeRow.image := JS.trim_or_null (Recipe.image recipe);
              RecipeRow.company_id := JS.or_null (Recipe.company_id recipe);
              RecipeRow.user_id := Some (User.id u);
              RecipeRow.created_at := None;
              RecipeRow.updated_at := None |}
    end.

Definition recipe_of_data (data : RecipeRow.t) : Recipe.t :=
  {| Recipe.id := RecipeRow.id data;
     Recipe.name := RecipeRow.name data;
     Recipe.description := RecipeRow.description data;
     Recipe.ingredients := Some (JS.array_or_empty (RecipeRow.ingredients data));
     Recipe.instructions := Some (JS.array_or_empty (RecipeRow.instructions data));
     Recipe.yield := RecipeRow.yield data;
     Recipe.prepTime := RecipeRow.prep_time data;
     Recipe.cookTime := RecipeRow.cook_time data;
     Recipe.totalTime := RecipeRow.total_time data;
     Recipe.difficulty := RecipeRow.difficulty data;
     Recipe.tags := Some (JS.array_or_empty (RecipeRow.tags data));
     Recipe.notes := RecipeRow.notes data;
     Recipe.image := RecipeRow.image data;
     Recipe.company_id := RecipeRow.company_id data;
     Recipe.createdAt := RecipeRow.created_at data;
     Recipe.updatedAt := RecipeRow.updated_at data |}.

Definition recipe_of_item (item : RecipeRow.t) : Recipe.t :=
  {| Recipe.id := RecipeRow.id item;
     Recipe.name := RecipeRow.name item;
     Recipe.description := RecipeRow.description item;
     Recipe.ingredients := Some (JS.array_or_empty (RecipeRow.ingredients item));
     Recipe.instructions := Some (JS.array_or_empty (RecipeRow.instructions item));
     Recipe.yield := RecipeRow.yield item;
     Recipe.prepTime := RecipeRow.prep_time item;
     Recipe.cookTime := RecipeRow.cook_time item;
     Recipe.totalTime := RecipeRow.total_time item;
     Recipe.difficulty := Some (default Medium (RecipeRow.difficulty item));
     Recipe.tags := Some (JS.array_or_empty (RecipeRow.tags item));
     Recipe.notes := RecipeRow.notes item;
     Recipe.image := RecipeRow.image item;
     Recipe.company_id := RecipeRow.company_id item;
     Recipe.createdAt := RecipeRow.created_at item;
     Recipe.updatedAt := RecipeRow.updated_at item |}.

Definition sanitizeMethod (currentUser : option User.t) (method : Method.t)
  : Res MethodRow.t :=
  if negb (JS.truthy (Method.id method))
     || negb (JS.truthy (JS.trim <$> Method.name method))
  then Raise (Error msg_method_invalid)
  else
    match currentUser with
    | None => Raise (Error msg_method_auth)
    | Some u =>
        Ok {| MethodRow.id := Method.id method;
              MethodRow.name := JS.trim <$> Method.name method;
              MethodRow.description := JS.trim_or_null (Method.description method);
              MethodRow.category := JS.trim_or_null (Method.category method);
              MethodRow.video_url := JS.trim_or_null (Method.videoUrl method);
              MethodRow.instructions := Some (JS.array_or_empty (Method.instructions method));
              MethodRow.estimated_time := JS.number_or_null (Method.estimatedTime method);
              MethodRow.difficulty_level :=
                Some (default Intermediate (Method.difficultyLevel method));
              MethodRow.tags := Some (JS.array_or_empty (Method.tags method));
              MethodRow.equipment := Some (JS.array_or_empty (Method.equipment method));
              MethodRow.tips := Some (JS.array_or_empty (Method.tips method));
              MethodRow.company_id := JS.or_null (Method.company_id method);
              MethodRow.user_id := Some (User.id u);
              MethodRow.created_at := None;
              MethodRow.updated_at := None |}
    end.

Definition method_of_data (data : MethodRow.t) : Method.t :=
  {| Method.id := MethodRow.id data;
     Method.name := MethodRow.name data;
     Method.description := MethodRow.description data;
     Method.category := MethodRow.category data;
     Method.videoUrl := MethodRow.video_url data;
     Method.instructions := Some (JS.array_or_empty (MethodRow.instructions data));
     Method.estimatedTime := MethodRow.estimated_time data;
     Method.difficultyLevel := MethodRow.difficulty_level data;
     Method.tags := Some (JS.array_or_empty (MethodRow.tags data));
     Method.equipment := Some (JS.array_or_empty (MethodRow.equipment data));
     Method.tips := Some (JS.array_or_empty (MethodRow.tips data));
     Method.company_id := MethodRow.company_id data;
     Method.createdAt := MethodRow.created_at data;
     Method.updatedAt := MethodRow.updated_at data |}.

Definition method_of_item (item : MethodRow.t) : Method.t :=
  {| Method.id := MethodRow.id item;
     Method.name := MethodRow.name item;
     Method.description := MethodRow.description item;
     Method.category := MethodRow.category item;
     Method.videoUrl := MethodRow.video_url item;
     Method.instructions := Some (JS.array_or_empty (MethodRow.instructions item));
     Method.estimatedTime := MethodRow.estimated_time item;
     Method.difficultyLevel :=
       Some (default Intermediate (MethodRow.difficulty_level item));
     Method.tags := Some (JS.array_or_empty (MethodRow.tags item));
     Method.equipment := Some (JS.array_or_empty (MethodRow.equipment item));
     Method.tips := Some (JS.array_or_empty (MethodRow.tips item));
     Method.company_id := MethodRow.company_id item;
     Method.createdAt := MethodRow.created_at item;
     Method.updatedAt := MethodRow.updated_at item |}.

(** *** The round trip through the wire format

    The backend stores the row it is sent and assigns the timestamps:
    [stored_*] is the row a successful upsert answers with.  [expected_*]
    is the entity the round-trip law promises: the entity itself, an absent
    array field read as the empty list, an absent enumeration or count read
    as the default of the column, and the timestamps of the backend. *)

Definition stored_prep_list (created updated : option string)
    (row : PrepListRow.t) : PrepListRow.t :=
  {| PrepListRow.id := PrepListRow.id row;
     PrepListRow.name := PrepListRow.name row;
     PrepListRow.items := PrepListRow.items row;
     PrepListRow.company_id := PrepListRow.company_id row;
     PrepListRow.user_id := PrepListRow.user_id row;
     PrepListRow.created_at := created;
     PrepListRow.updated_at := updated |}.

Definition stored_event (created updated : option string)
    (row : EventRow.t) : EventRow.t :=
  {| EventRow.id := EventRow.id row;
     EventRow.name := EventRow.name row;
     EventRow.date := EventRow.date row;
     EventRow.invoice_number := EventRow.invoice_number row;
     EventRow.prep_items := EventRow.prep_items row;
     EventRow.status := EventRow.status row;
     EventRow.total_servings := EventRow.total_servings row;
     EventRow.company_id := EventRow.company_id row;
     EventRow.user_id := EventRow.user_id row;
     EventRow.created_at := created;
     EventRow.updated_at := updated |}.

Definition stored_recipe (created updated : option string)
    (row : RecipeRow.t) : RecipeRow.t :=
  {| RecipeRow.id := RecipeRow.id row;
     RecipeRow.name := RecipeRow.name row;
     RecipeRow.description := RecipeRow.description row;
     RecipeRow.ingredients := RecipeRow.ingredients row;
     RecipeRow.instructions := RecipeRow.instructions row;
     RecipeRow.yield := RecipeRow.yield row;
     RecipeRow.prep_time := RecipeRow.prep_time row;
     RecipeRow.cook_time := RecipeRow.cook_time row;
     RecipeRow.total_time := RecipeRow.total_time row;
     RecipeRow.difficulty := RecipeRow.difficulty row;
     RecipeRow.tags := RecipeRow.tags row;
     RecipeRow.notes := RecipeRow.notes row;
     RecipeRow.image := RecipeRow.image row;
     RecipeRow.company_id := RecipeRow.company_id row;
     RecipeRow.user_id := RecipeRow.user_id row;
     RecipeRow.created_at := created;
     RecipeRow.updated_at := updated |}.

Definition stored_method (created updated : option string)
    (row : MethodRow.t) : MethodRow.t :=
  {| MethodRow.id := MethodRow.id row;
     MethodRow.name := MethodRow.name row;
     MethodRow.description := MethodRow.description row;
     MethodRow.category := MethodRow.category row;
     MethodRow.video_url := MethodRow.video_url row;
     MethodRow.instructions := MethodRow.instructions row;
     MethodRow.estimated_time := MethodRow.estimated_time row;
     MethodRow.difficulty_level := MethodRow.difficulty_level row;
     MethodRow.tags := MethodRow.tags row;
     MethodRow.equipment := MethodRow.equipment row;
     MethodRow.tips := MethodRow.tips row;
     MethodRow.company_id := MethodRow.company_id row;
     MethodRow.user_id := MethodRow.user_id row;
     MethodRow.created_at := created;
     MethodRow.updated_at := updated |}.

(** A missing number read as [null], a missing count as [0]. *)
Definition null_if_absent (v : JS.Value) : JS.Value :=
  match v with JS.Undefined => JS.Null | _ => v end.
Definition zero_if_absent (v : JS.Value) : JS.Value :=
  match v with JS.Undefined | JS.Null => JS.Num (JS.int 0) | _ => v end.

Definition expected_prep_list (created updated : option string)
    (e : PrepList.t) : PrepList.t :=
  {| PrepList.id := PrepList.id e;
     PrepList.name := PrepList.name e;
     PrepList.items := Some (default [] (PrepList.items e));
     PrepList.company_id := PrepList.company_id e;
     PrepList.created_at := created;
     PrepList.updated_at := updated |}.

Definition expected_event (created updated : option string)
    (e : Event.t) : Event.t :=
  {| Event.id := Event.id e;
     Event.name := Event.name e;
     Event.date := Event.date e;
     Event.invoiceNumber := Event.invoiceNumber e;
     Event.prepItems := Some (default [] (Event.prepItems e));
     Event.status := Some (default planning (Event.status e));
     Event.totalServings := zero_if_absent (Event.totalServings e);
     Event.company_id := Event.company_id e;
     Event.created_at := created;
     Event.updated_at := updated |}.

Definition expected_recipe (created updated : option string)
    (e : Recipe.t) : Recipe.t :=
  {| Recipe.id := Recipe.id e;
     Recipe.name := Recipe.name e;
     Recipe.description := Recipe.description e;
     Recipe.ingredients := Some (default [] (Recipe.ingredients e));
     Recipe.instructions := Some (default [] (Recipe.instructions e));
     Recipe.yield := Recipe.yield e;
     Recipe.prepTime := null_if_absent (Recipe.prepTime e);
     Recipe.cookTime := null_if_absent (Recipe.cookTime e);
     Recipe.totalTime := null_if_absent (Recipe.totalTime e);
     Recipe.difficulty := Some (default Medium (Recipe.difficulty e));
     Recipe.tags := Some (default [] (Recipe.tags e));
     Recipe.notes := Recipe.notes e;
     Recipe.image := Recipe.image e;
     Recipe.company_id := Recipe.company_id e;
     Recipe.createdAt := created;
     Recipe.updatedAt := updated |}.

Definition expected_method (created updated : option string)
    (e : Method.t) : Method.t :=
  {| Method.id := Method.id e;
     Method.name := Method.name e;
     Method.description := Method.description e;
     Method.category := Method.category e;
     Method.videoUrl := Method.videoUrl e;
     Method.instructions := Some (default [] (Method.instructions e));
     Method.estimatedTime := null_if_absent (Method.estimatedTime e);
     Method.difficultyLevel :=
       Some (default Intermediate (Method.difficultyLevel e));
     Method.tags := Some (default [] (Method.tags e));
     Method.equipment := Some (default [] (Method.equipment e));
     Method.tips := Some (default [] (Method.tips e));
     Method.company_id := Method.company_id e;
     Method.createdAt := created;
     Method.updatedAt := updated |}.

(** A text the sanitiser leaves alone: absent, or non-empty with no
    whitespace at either end. *)
Definition tidy (o : option string) : Prop :=
  match o with
  | None => True
  | Some s => JS.nonempty s = true /\ JS.trim s = s
  end.

(** A text that [x || null] leaves alone: absent or non-empty. *)
Definition filled (o : option string) : Prop :=
  match o with None => True | Some s => JS.nonempty s = true end.

(** A number that [Number(x) || null] leaves alone: absent, or a number
    other than the two zeros and [NaN]. *)
Definition plain_number (v : JS.Value) : Prop :=
  match v with
  | JS.Undefined | JS.Null => True
  | JS.Num n => JS.number_truthy n = true
  | _ => False
  end.

(** A count that [Number(x) || 0] leaves alone: absent, or a number other
    than [-0] and [NaN]. *)
Definition plain_count (v : JS.Value) : Prop :=
  match v with
  | JS.Undefined | JS.Null => True
  | JS.Num n => n <> JS.NaN /\ n <> S754_zero true
  | _ => False
  end.

(** An entity the sanitiser accepts: non-empty id, name not blank. *)
Definition accepted (id name : option string) : Prop :=
  JS.truthy id = true /\ JS.truthy (JS.trim <$> name) = true.

(** An [Error] of the service's own that the [catch] block of
    [executeWithErrorHandling] re-raises as it is. *)
Definition sanitizer_error (e : JsError.t) : Prop :=
  exists msg, e = Error msg /\ JS.includes "RLS" msg = false /\
              JS.includes "JWT" msg = false.

(** A row fit to be persisted: non-empty id, non-empty trimmed name. *)
Definition persistable (id name : option string) : Prop :=
  JS.truthy id = true /\ JS.truthy name = true /\ JS.trim <$> name = name.

(** The row an upsert request carries, per table. *)
Definition upserted_prep_list (q : Request) : option PrepListRow.t :=
  match q with PrepListUpsert row _ => Some row | _ => None end.
Definition upserted_event (q : Request) : option EventRow.t :=
  match q with EventUpsert row _ => Some row | _ => None end.
Definition upserted_recipe (q : Request) : option RecipeRow.t :=
  match q with RecipeUpsert row _ => Some row | _ => None end.
Definition upserted_method (q : Request) : option MethodRow.t :=
  match q with MethodUpsert row _ => Some row | _ => None end.

(** An entity the sanitiser rejects: no id, or a blank name. *)
Definition rejected (id name : option string) : Prop :=
  JS.truthy id = false \/ JS.truthy (JS.trim <$> name) = false.

(** The requests [executeWithErrorHandling] may send before it runs the
    operation: session, listener, connectivity probe, profile. *)
Definition is_preflight_request (q : Request) : Prop :=
  match q with
  | GetSession | OnAuthStateChange | SelectLimit1 _ _ | ProfileById _
  | ProfileUpsert _ _ => True
  | _ => False
  end.

(** *** The report of [diagnoseConnection] *)

Module RlsStatus.
Record t := { enabled : bool; policies : list string }.
End RlsStatus.

Module DiagUser.
Record t := { id : string; email : option string; role : option string }.
End DiagUser.

Module Diagnosis.
Record t := {
  configured : bool; accessible : bool; authenticated : bool;
  tables : list string; errors : list string;
  user : option DiagUser.t; userProfile : option UserProfile.t;
  rlsStatus : gmap string RlsStatus.t }.

Definition initial : t :=
  {| configured := false; accessible := false; authenticated := false;
     tables := []; errors := []; user := None; userProfile := None;
     rlsStatus := ∅ |}.

Definition set_configured (b : bool) (d : t) : t :=
  {| configured := b; accessible := accessible d;
     authenticated := authenticated d; tables := tables d;
     errors := errors d; user := user d; userProfile := userProfile d;
     rlsStatus := rlsStatus d |}.
Definition set_accessible (b : bool) (d : t) : t :=
  {| configured := configured d; accessible := b;
     authenticated := authenticated d; tables := tables d;
     errors := errors d; user := user d; userProfile := userProfile d;
     rlsStatus := rlsStatus d |}.
Definition set_authenticated (b : bool) (d : t) : t :=
  {| configured := configured d; accessible := accessible d;
     authenticated := b; tables := tables d;
     errors := errors d; user := user d; userProfile := userProfile d;
     rlsStatus := rlsStatus d |}.
Definition push_table (x : string) (d : t) : t :=
  {| configured := configured d; accessible := accessible d;
     authenticated := authenticated d; tables := tables d ++ [x];
     errors := errors d; user := user d; userProfile := userProfile d;
     rlsStatus := rlsStatus d |}.
Definition push_error (x : string) (d : t) : t :=
  {| configured := configured d; accessible := accessible d;
     authenticated := authenticated d; tables := tables d;
     errors := errors d ++ [x]; user := user d;
     userProfile := userProfile d; rlsStatus := rlsStatus d |}.
Definition set_user (u : option DiagUser.t) (d : t) : t :=
  {| configured := configured d; accessible := accessible d;
     authenticated := authenticated d; tables := tables d;
     errors := errors d; user := u; userProfile := userProfile d;
     rlsStatus := rlsStatus d |}.
Definition set_userProfile (p : option UserProfile.t) (d : t) : t :=
  {| configured := configured d; accessible := accessible d;
     authenticated := authenticated d; tables := tables d;
     errors := errors d; user := user d; userProfile := p;
     rlsStatus := rlsStatus d |}.
Definition set_rlsStatus (table : string) (x : RlsStatus.t) (d : t) : t :=
  {| configured := configured d; accessible := accessible d;
     authenticated := authenticated d; tables := tables d;
     errors := errors d; user := user d; userProfile := userProfile d;
     rlsStatus := <[table := x]> (rlsStatus d) |}.
End Diagnosis.

Definition tablesToTest : list string :=
  ["user_profiles"; "prep_lists"; "events"; "recipes"; "methods"; "containers"].

Definition rlsQueries : list (string * string) :=
  [("user_profiles", "public"); ("prep_lists", "public"); ("events", "public");
   ("recipes", "public"); ("methods", "public"); ("containers", "public")].

(** [e instanceof Error ? e.message : 'Unknown error']. *)
Definition error_text (e : JsError.t) : string :=
  if JsError.instanceofError e then JsError.message e else "Unknown error".

(** The strings [diagnoseConnection] pushes on [errors]. *)
Definition msg_no_url : string := "VITE_SUPABASE_URL not configured".
Definition msg_no_key : string := "VITE_SUPABASE_ANON_KEY not configured".
Definition auth_error_message (authError : JsError.t) : string :=
  "Auth error: " +:+ JsError.message authError.
Definition table_rls_message (table : string) (authenticated : bool) : string :=
  "Table '" +:+ table +:+ "': RLS policy active (" +:+
  (if authenticated then "user authenticated" else "no authentication") +:+ ")".
Definition table_error_message (table text : string) : string :=
  "Table '" +:+ table +:+ "': " +:+ text.
Definition diagnosis_failed_message (error : JsError.t) : string :=
  "Connection diagnosis failed: " +:+ error_text error.

(** The entry of [rlsStatus] for a table whose policies could not be read. *)
Definition unable_to_check : RlsStatus.t :=
  {| RlsStatus.enabled := false;
     RlsStatus.policies := ["Unable to check policies"] |}.

(** What the report says about the configuration. *)
Definition config_errors (e : Env.t) : list string :=
  (if JS.nonempty (Env.VITE_SUPABASE_URL e) then [] else [msg_no_url]) ++
  (if JS.nonempty (Env.VITE_SUPABASE_ANON_KEY e) then [] else [msg_no_key]).

(** What the report says in [errors] about one request of the diagnosis:
    a failed session fetch and a failed table probe are reported, every
    other request is not. *)
Definition report_entry (authenticated : bool) (x : Request * Verdict)
  : list string :=
  match x with
  | (GetSession, ReturnedError e) => [auth_error_message e]
  | (GetSession, Thrown e) => [diagnosis_failed_message e]
  | (SelectLimit1 table _, ReturnedError e) =>
      if code_is "42501" e || JS.includes "RLS" (JsError.message e)
      then [table_rls_message table authenticated]
      else [table_error_message table (JsError.message e)]
  | (SelectLimit1 table _, Thrown e) =>
      [table_error_message table (error_text e)]
  | _ => []
  end.

(** The object [newProfile] of [ensureUserProfile]. *)
Definition newProfile (u : User.t) : NewProfile.t :=
  {| NewProfile.id := User.id u;
     NewProfile.email := User.email u;
     NewProfile.full_name := JS.or_null (User.full_name u);
     NewProfile.role := user |}.

Section WithBackend.
Context {R : Type} `{Backend R}.

Local Abbreviation M := (Eff.M Svc R).

Definition initialize : M unit :=
  s <- get ;;
  if isInitialized s then ret tt
  else
    try_catch
      (r <- call GetSession ;;
       modify (set_currentUser (Session.user <$> Reply.data r)) ;;;
       call OnAuthStateChange ;;;
       modify (set_isInitialized true))
      (fun error => throw error).

Definition ensureUserProfile : M (option UserProfile.t) :=
  s <- get ;;
  match currentUser s with
  | None => ret None
  | Some u =>
      match userProfile s with
      | Some p => ret (Some p)
      | None =>
          try_catch
            (r <- call (ProfileById (User.id u)) ;;
             match Reply.data r, Reply.error r with
             | Some existingProfile, None =>
                 modify (set_userProfile (Some existingProfile)) ;;;
                 ret (Some existingProfile)
             | _, _ =>
                 c <- call (ProfileUpsert (newProfile u) on_conflict_id) ;;
                 match Reply.error c with
                 | Some createError => ret None
                 | None =>
                     modify (set_userProfile (Reply.data c)) ;;;
                     ret (Reply.data c)
                 end
             end)
            (fun error => ret None)
      end
  end.

Definition _performConnectionTest : M bool :=
  try_catch
    (initialize ;;;
     e <- getEnv ;;
     if negb (JS.nonempty (Env.VITE_SUPABASE_URL e))
        || negb (JS.nonempty (Env.VITE_SUPABASE_ANON_KEY e))
     then ret false
     else
       r <- call (SelectLimit1 "prep_lists" "id") ;;
       match Reply.error r with
       | Some error =>
           if code_is "42501" error
              || JS.includes "RLS" (JsError.message error)
           then try_catch (call GetSession ;;; ret true)
                          (fun authError => ret false)
           else ret false
       | None => ret true
       end)
    (fun error => ret false).

Definition testConnection : M bool :=
  s <- get ;;
  match connectionPromise s with
  | Some b => ret b
  | None =>
      b <- _performConnectionTest ;;
      modify (set_connectionPromise (Some b)) ;;;
      ret b
  end.

(** The [catch] block of [executeWithErrorHandling]. *)
Definition reclassify {A} (error : JsError.t) : M A :=
  if code_is "42P01" error then throw (Error msg_table_missing)
  else if code_is "42501" error || JS.includes "RLS" (JsError.message error)
  then throw (Error msg_access_denied)
  else if code_is "23505" error then throw (Error msg_duplicate)
  else if JS.includes "JWT" (JsError.message error)
  then throw (Error msg_token)
  else throw error.

(** What [executeWithErrorHandling] does before it runs [fn]. *)
Definition preflight : M unit :=
  isConnected <- testConnection ;;
  if negb isConnected then throw (Error msg_connection)
  else
    s <- get ;;
    match currentUser s with
    | Some _ => ensureUserProfile ;;; ret tt
    | None => ret tt
    end.

Definition executeWithErrorHandling {A} (operation : string) (fn : M A) : M A :=
  try_catch (preflight ;;; fn) reclassify.

(** A pure step inside an [async] body. *)
Definition lift {A} (r : Res A) : M A := fun w => (r, w).

(** [if (error) throw error; ... data.<field> ...]: reading a field of a
    [null] data is a [TypeError]. *)
Definition unwrap {D} (r : Reply.t D) : M D :=
  match Reply.error r with
  | Some error => throw error
  | None =>
      match Reply.data r with
      | Some data => ret data
      | None => throw (Error msg_no_row)
      end
  end.

(** [if (error) throw error; ... (data || []) ...]. *)
Definition rows_or_throw {D} (r : Reply.t (list D)) : M (list D) :=
  match Reply.error r with
  | Some error => throw error
  | None => ret (default [] (Reply.data r))
  end.

Definition savePrepList (prepList : PrepList.t) : M PrepList.t :=
  executeWithErrorHandling "savePrepList"
    (s <- get ;;
     sanitizedList <- lift (sanitizePrepList (currentUser s) prepList) ;;
     r <- call (PrepListUpsert sanitizedList upsert_by_id) ;;
     data <- unwrap r ;;
     ret (prepList_of_data data)).

Definition loadPrepLists : M (list PrepList.t) :=
  executeWithErrorHandling "loadPrepLists"
    (r <- call PrepListsAll ;;
     data <- rows_or_throw r ;;
     ret (prepList_of_item <$>
            filter (fun item => JS.truthy (PrepListRow.id item)
                                && JS.truthy (PrepListRow.name item)) data)).

Definition deletePrepList (id : option string) : M unit :=
  executeWithErrorHandling "deletePrepList"
    (if negb (JS.truthy (JS.trim <$> id))
     then throw (Error msg_delete_invalid)
     else
       r <- call (DeleteById "prep_lists" (JS.trim <$> id)) ;;
       match Reply.error r with
       | Some error => throw error
       | None => ret tt
       end).

Definition saveEvent (event : Event.t) : M Event.t :=
  executeWithErrorHandling "saveEvent"
    (s <- get ;;
     sanitizedEvent <- lift (sanitizeEvent (currentUser s) event) ;;
     r <- call (EventUpsert sanitizedEvent upsert_by_id) ;;
     data <- unwrap r ;;
     ret (event_of_data data)).

Definition loadEvents : M (list Event.t) :=
  executeWithErrorHandling "loadEvents"
    (r <- call EventsAll ;;
     data <- rows_or_throw r ;;
     ret (event_of_item <$>
            filter (fun item => JS.truthy (EventRow.id item)
                                && JS.truthy (EventRow.name item)) data)).

Definition saveRecipe (recipe : Recipe.t) : M Recipe.t :=
  executeWithErrorHandling "saveRecipe"
    (s <- get ;;
     sanitizedRecipe <- lift (sanitizeRecipe (currentUser s) recipe) ;;
     r <- call (RecipeUpsert sanitizedRecipe upsert_by_id) ;;
     data <- unwrap r ;;
     ret (recipe_of_data data)).

Definition loadRecipes : M (list Recipe.t) :=
  executeWithErrorHandling "loadRecipes"
    (r <- call RecipesAll ;;
     data <- rows_or_throw r ;;
     ret (recipe_of_item <$>
            filter (fun item => JS.truthy (RecipeRow.id item)
                                && JS.truthy (RecipeRow.name item)) data)).

Definition saveMethod (method : Method.t) : M Method.t :=
  executeWithErrorHandling "saveMethod"
    (s <- get ;;
     sanitizedMethod <- lift (sanitizeMethod (currentUser s) method) ;;
     r <- call (MethodUpsert sanitizedMethod on_conflict_id) ;;
     data <- unwrap r ;;
     ret (method_of_data data)).

Definition loadMethods : M (list Method.t) :=
  executeWithErrorHandling "loadMethods"
    (r <- call MethodsAll ;;
     data <- rows_or_throw r ;;
     ret (method_of_item <$>
            filter (fun item => JS.truthy (MethodRow.id item)
                                && JS.truthy (MethodRow.name item)) data)).

(** One iteration of the table accessibility loop. *)
Definition probeTable (table : string) : Eff.M (Svc * Diagnosis.t) R unit :=
  try_catch
    (r <- call (SelectLimit1 table "id") ;;
     match Reply.error r with
     | Some error =>
         if code_is "42501" error
            || JS.includes "RLS" (JsError.message error)
         then
           d <- read ;;
           update (Diagnosis.push_error
                     (table_rls_message table (Diagnosis.authenticated d))) ;;;
           update (Diagnosis.push_table (table +:+ " (RLS active)")) ;;;
           update (Diagnosis.set_accessible true)
         else
           update (Diagnosis.push_error
                     (table_error_message table (JsError.message error)))
     | None =>
         update (Diagnosis.push_table table) ;;;
         update (Diagnosis.set_accessible true)
     end)
    (fun e =>
       update (Diagnosis.push_error
                 (table_error_message table (error_text e)))).

(** One iteration of the row-level-security loop. *)
Definition checkRls (q : string * string) : Eff.M (Svc * Diagnosis.t) R unit :=
  let '(table, schema) := q in
  try_catch
    (c <- call (PgClass table) ;;
     let rlsEnabled := default false (Reply.data c) in
     p <- call (PgPolicies schema table) ;;
     update (Diagnosis.set_rlsStatus table
       {| RlsStatus.enabled := rlsEnabled;
          RlsStatus.policies :=
            (fun p => Policy.cmd p +:+ ": " +:+ Policy.policyname p)
              <$> default [] (Reply.data p) |}))
    (fun e => update (Diagnosis.set_rlsStatus table unable_to_check)).

(** The authentication check of [diagnoseConnection]. *)
Definition checkAuthentication : Eff.M (Svc * Diagnosis.t) R unit :=
  r <- call GetSession ;;
  match Reply.error r with
  | Some authError =>
      update (Diagnosis.push_error (auth_error_message authError))
  | None =>
      match Reply.data r with
      | Some session =>
          update (Diagnosis.set_authenticated true) ;;;
          update (Diagnosis.set_user
            (Some {| DiagUser.id := User.id (Session.user session);
                     DiagUser.email := User.email (Session.user session);
                     DiagUser.role := User.role (Session.user session) |})) ;;;
          p <- with_local ensureUserProfile ;;
          update (Diagnosis.set_userProfile p)
      | None => ret tt
      end
  end.

(** The [try] block of [diagnoseConnection]. *)
Definition diagnose_body : Eff.M (Svc * Diagnosis.t) R unit :=
  e <- getEnv ;;
  let hasUrl := JS.nonempty (Env.VITE_SUPABASE_URL e) in
  let hasKey := JS.nonempty (Env.VITE_SUPABASE_ANON_KEY e) in
  (if negb hasUrl then update (Diagnosis.push_error msg_no_url)
   else ret tt) ;;;
  (if negb hasKey then update (Diagnosis.push_error msg_no_key)
   else ret tt) ;;;
  update (Diagnosis.set_configured (hasUrl && hasKey)) ;;;
  if hasUrl && hasKey then
    checkAuthentication ;;;
    for_each tablesToTest probeTable ;;;
    for_each rlsQueries checkRls
  else ret tt.

Definition diagnoseConnection : M Diagnosis.t :=
  diagnosis <-
    with_var Diagnosis.initial
      (try_catch diagnose_body
         (fun error =>
            update (Diagnosis.push_error (diagnosis_failed_message error)))) ;;
  modify (set_connectionPromise None) ;;;
  ret diagnosis.

(** The order of a save: the pre-flight first; if it fails, the save
    fails where the pre-flight stopped; otherwise the sanitiser decides
    on the world the pre-flight left: its error is the error of the save
    and nothing more is sent, or the upsert of its row is the one request
    that follows. *)
Definition save_order {X Row E} (san : option User.t -> X -> Res Row)
    (upsert : Row -> Request) (save : X -> M E) : Prop :=
  forall x w,
    match preflight w with
    | (Raise _, w1) => exists e, save x w = (Raise e, w1)
    | (Ok _, w1) =>
        match san (currentUser (svc w1)) x with
        | Raise e => save x w = (Raise e, w1)
        | Ok row =>
            exists res w2 v,
              save x w = (res, w2) /\
              log w2 = log w1 ++ [(upsert row, v)]
        end
    end.

(** A save turns away the entities the sanitiser rejects: the sanitiser
    raises the validation error whoever the caller is, and the save
    raises, leaving the world as the pre-flight left it; the error is the
    validation error when the pre-flight passed. *)
Definition turns_away {X Row E} (id name : X -> option string) (msg : string)
    (san : option User.t -> X -> Res Row) (save : X -> M E) : Prop :=
  forall x, rejected (id x) (name x) ->
    (forall cu, san cu x = Raise (Error msg)) /\
    forall w, exists e,
      save x w = (Raise e, snd (preflight w)) /\
      (fst (preflight w) = Ok tt -> e = Error msg).

(** Every row a save sends to the table is fit to be persisted. *)
Definition writes_persistable {X Row E} (id name : Row -> option string)
    (upserted : Request -> option Row) (save : X -> M E) : Prop :=
  forall x w tr, log (snd (save x w)) = log w ++ tr ->
    forall q v row, (q, v) ∈ tr -> upserted q = Some row ->
      persistable (id row) (name row).

(** What [diagnoseConnection] leaves alone: the initialisation flag, the
    identity, the configuration, a cached profile; and what it sends:
    reads, and at most the creation of the profile of the current
    identity when none is cached. *)
Definition diagnosis_frame (w w' : World Svc R) : Prop :=
  isInitialized (svc w') = isInitialized (svc w) /\
  currentUser (svc w') = currentUser (svc w) /\
  env w' = env w /\
  (forall p, userProfile (svc w) = Some p -> userProfile (svc w') = Some p) /\
  (currentUser (svc w) = None -> userProfile (svc w') = userProfile (svc w)) /\
  sends (fun q =>
           is_write q = false \/
           exists u, currentUser (svc w) = Some u /\
                     userProfile (svc w) = None /\
                     q = ProfileUpsert (newProfile u) on_conflict_id)
        w w'.

(** The report accounts for the requests sent between [w] and [w']:
    [errors] has grown by the entries of these requests. *)
Definition reported (authenticated : bool)
    (w w' : World (Svc * Diagnosis.t) R) : Prop :=
  Diagnosis.authenticated (snd (svc w)) = authenticated ->
  Diagnosis.authenticated (snd (svc w')) = authenticated /\
  Diagnosis.configured (snd (svc w')) = Diagnosis.configured (snd (svc w)) /\
  exists tr,
    log w' = log w ++ tr /\
    Diagnosis.errors (snd (svc w')) =
      Diagnosis.errors (snd (svc w)) ++ flat_map (report_entry authenticated) tr.

End WithBackend.
End Ref.

(** ** The lock/dedupe variant of [DatabaseService] *)

(** [JSON.stringify] on a prep list is a parameter of the development; the
    instance [json_ascii] below is used to run the definitions. *)
Class Json := { stringify : PrepList.t -> string }.

Module JsonAscii.

Definition dquote : ascii := ascii_of_nat 34.
Definition backslash : ascii := ascii_of_nat 92.

Definition hex_digit (n : nat) : ascii :=
  ascii_of_nat (if Nat.ltb n 10 then 48 + n else 87 + n).

(** QuoteJSONString: the two-character escapes, [\u00xx] for the other
    control characters, every other character as it is. *)
Definition escape_char (c : ascii) : string :=
  let n := nat_of_ascii c in
  if Ascii.eqb c dquote || Ascii.eqb c backslash
  then String backslash (String c EmptyString)
  else if Nat.eqb n 8 then String backslash "b"
  else if Nat.eqb n 9 then String backslash "t"
  else if Nat.eqb n 10 then String backslash "n"
  else if Nat.eqb n 12 then String backslash "f"
  else if Nat.eqb n 13 then String backslash "r"
  else if Nat.ltb n 32
  then String backslash
         (String "u" (String "0" (String "0"
            (String (hex_digit (Nat.div n 16))
               (String (hex_digit (Nat.modulo n 16)) EmptyString)))))
  else String c EmptyString.

Fixpoint escape (s : string) : string :=
  match s with
  | EmptyString => EmptyString
  | String c r => escape_char c +:+ escape r
  end.

Definition quoted (s : string) : string :=
  String dquote (escape s) +:+ String dquote EmptyString.

(** A property whose value is [undefined] is left out. *)
Definition prop {A} (key : string) (render : A -> string) (v : option A)
  : list string :=
  match v with
  | Some a => [quoted key +:+ ":" +:+ render a]
  | None => []
  end.

Fixpoint join (sep : string) (l : list string) : string :=
  match l with
  | [] => EmptyString
  | [x] => x
  | x :: r => x +:+ sep +:+ join sep r
  end.

Definition object (props : list string) : string :=
  "{" +:+ join "," props +:+ "}".
Definition array (elems : list string) : string :=
  "[" +:+ join "," elems +:+ "]".
Definition boolean (b : bool) : string := if b then "true" else "false".

Definition prepItem (i : PrepItem.t) : string :=
  object (prop "id" quoted (Some (PrepItem.id i))
          ++ prop "name" quoted (Some (PrepItem.name i))
          ++ prop "quantity" quoted (Some (PrepItem.quantity i))
          ++ prop "unit" quoted (Some (PrepItem.unit i))
          ++ prop "category" quoted (PrepItem.category i)
          ++ prop "completed" boolean (PrepItem.completed i)
          ++ prop "assignedTo" quoted (PrepItem.assignedTo i)
          ++ prop "notes" quoted (PrepItem.notes i)).

Definition prepList (p : PrepList.t) : string :=
  object (prop "id" quoted (PrepList.id p)
          ++ prop "name" quoted (PrepList.name p)
          ++ prop "items" (fun l => array (prepItem <$> l)) (PrepList.items p)
          ++ prop "company_id" quoted (PrepList.company_id p)
          ++ prop "created_at" quoted (PrepList.created_at p)
          ++ prop "updated_at" quoted (PrepList.updated_at p)).

End JsonAscii.

#[export] Instance json_ascii : Json := {| stringify := JsonAscii.prepList |}.

(** *** The table of in-flight operations

    [executeWithLock] is asynchronous: it returns a promise at once and the
    operation settles later.  A promise is a number; [inflight] remembers, for
    each unsettled operation promise, the key its [finally] callback will
    delete; [invoked] lists the operations that were started. *)

Module Pool.
Section WithOp.
Context {Op O : Type}.

Record t := {
  operationLocks : gmap string nat;
  inflight : gmap nat (string * Op);
  settled : gmap nat O;
  invoked : list (string * Op);
  issued : nat }.

Definition empty : t :=
  {| operationLocks := ∅; inflight := ∅; settled := ∅; invoked := [];
     issued := 0%nat |}.

(** [executeWithLock(operationKey, operation)] up to its [return]: the
    promise handed to the caller, and the table afterwards. *)
Definition executeWithLock (operationKey : string) (operation : Op) (s : t)
  : nat * t :=
  match operationLocks s !! operationKey with
  | Some existingOperation => (existingOperation, s)
  | None =>
      let operationPromise := issued s in
      (operationPromise,
       {| operationLocks := <[operationKey := operationPromise]> (operationLocks s);
          inflight := <[operationPromise := (operationKey, operation)]> (inflight s);
          settled := settled s;
          invoked := invoked s ++ [(operationKey, operation)];
          issued := S (issued s) |})
  end.

(** The operation behind promise [p] settles with outcome [o]: its
    [finally] callback deletes the key, then the promise settles. *)
Definition settle (p : nat) (o : O) (s : t) : t :=
  match inflight s !! p with
  | Some (operationKey, _) =>
      {| operationLocks := delete operationKey (operationLocks s);
         inflight := delete p (inflight s);
         settled := <[p := o]> (settled s);
         invoked := invoked s;
         issued := issued s |}
  | None => s
  end.

(** What can happen to the table, one at a time. *)
Inductive event :=
| Call (operationKey : string) (operation : Op)
| Settle (p : nat) (o : O).

Definition step (e : event) (s : t) : t :=
  match e with
  | Call k f => snd (executeWithLock k f s)
  | Settle p o => settle p o s
  end.

Definition run (es : list event) (s : t) : t := foldl (fun s e => step e s) s es.

Definition settles (p : nat) (e : event) : bool :=
  match e with
  | Settle q _ => Nat.eqb p q
  | Call _ _ => false
  end.

(** The table and the promises agree: a key is locked by the promise of
    an unsettled operation started for that key, and every unsettled
    operation holds the lock of its key; promises are numbered below
    [issued]. *)
Definition consistent (s : t) : Prop :=
  (forall k p, operationLocks s !! k = Some p ->
               exists f, inflight s !! p = Some (k, f)) /\
  (forall p k f, inflight s !! p = Some (k, f) ->
                 operationLocks s !! k = Some p) /\
  (forall p, is_Some (inflight s !! p) -> (p < issued s)%nat).

(** The operation [f] started under key [k] is in flight as promise [p],
    and since the table was [s0] no other operation was started under
    [k]. *)
Definition single_flight (s0 : t) (k : string) (f : Op) (p : nat) (s : t)
  : Prop :=
  consistent s /\
  operationLocks s !! k = Some p /\
  inflight s !! p = Some (k, f) /\
  exists rest, invoked s = invoked s0 ++ (k, f) :: rest /\
               Forall (fun x => fst x <> k) rest.

End WithOp.
Arguments t : clear implicits.
Arguments event : clear implicits.
End Pool.

Module Lock.
Import Eff Eff.Notations.

Inductive settlement := fulfilled | rejected.

(** What the caller of a guarded method holds when the method has run as far
    as it can: a settled value, or the promise of a call still in flight. *)
Inductive Handle (A : Type) :=
| Done (a : A)
| Waiting (p : nat).
Arguments Done {A} a.
Arguments Waiting {A} p.

(** An entry of [recentOperations]: [data] is the payload as it was
    passed (the map keeps the object, which the service never changes). *)
Module Recent.
Record t := { timestamp : Z; data : PrepList.t }.
End Recent.

Module ConnectionCache.
Record t := { isConnected : bool; lastCheck : Z }.
End ConnectionCache.

(** The static fields of the class; [locks] holds [operationLocks]. *)
Record Svc := {
  connectionCache : option ConnectionCache.t;
  locks : Pool.t string settlement;
  recentOperations : gmap string Recent.t }.

Definition CACHE_DURATION : Z := 5 * 60 * 1000.
Definition DUPLICATE_WINDOW : Z := 2000.

Definition set_connectionCache (c : option ConnectionCache.t) (s : Svc) : Svc :=
  {| connectionCache := c; locks := locks s;
     recentOperations := recentOperations s |}.
Definition set_locks (l : Pool.t string settlement) (s : Svc) : Svc :=
  {| connectionCache := connectionCache s; locks := l;
     recentOperations := recentOperations s |}.
Definition set_recentOperations (r : gmap string Recent.t) (s : Svc) : Svc :=
  {| connectionCache := connectionCache s; locks := locks s;
     recentOperations := r |}.

Definition refreshConnectionCache (s : Svc) : Svc := set_connectionCache None s.

Definition msg_persist : string :=
  "Database connection required for data persistence".
Definition msg_load : string :=
  "Database connection required to load data".
Definition msg_delete : string :=
  "Database connection required for data deletion".
Definition msg_preplist_invalid : string :=
  "Invalid prep list data: missing id or name".
Definition msg_no_row : string :=
  "Cannot read properties of null".

Definition no_options : UpsertOptions.t :=
  {| UpsertOptions.onConflict := None; UpsertOptions.ignoreDuplicates := None |}.

Section Keys.
Context `{Json}.

Definition generateOperationKey (operation : string) (data : PrepList.t) : string :=
  if bool_decide (operation = "savePrepList") && JS.truthy (PrepList.id data)
  then "prepList_" +:+ JS.template (PrepList.id data) +:+ "_" +:+
       default "unnamed" (JS.or_null (PrepList.name data))
  else if bool_decide (operation = "saveEvent") && JS.truthy (PrepList.id data)
  then "event_" +:+ JS.template (PrepList.id data) +:+ "_" +:+
       default "unnamed" (JS.or_null (PrepList.name data))
  else operation +:+ "_" +:+ JS.slice0 100 (stringify data).
End Keys.

(** *** [deduplicatePrepLists]

    [seen] is a JavaScript [Map]: it iterates in insertion order, and
    setting a key that is present keeps the position of the key. *)

Fixpoint map_get {V} (k : string) (m : list (string * V)) : option V :=
  match m with
  | [] => None
  | (k', v) :: r => if String.eqb k k' then Some v else map_get k r
  end.

Fixpoint map_set {V} (k : string) (v : V) (m : list (string * V))
  : list (string * V) :=
  match m with
  | [] => [(k, v)]
  | (k', v') :: r =>
      if String.eqb k k' then (k, v) :: r else (k', v') :: map_set k v r
  end.

Definition map_values {V} (m : list (string * V)) : list V := snd <$> m.

Definition dedupe_key (list_ : PrepList.t) : string :=
  JS.template (PrepList.name list_) +:+ "_" +:+
  default "no-company" (JS.or_null (PrepList.company_id list_)).







(** [list.items?.length || 0]. *)
Definition items_length (list_ : PrepList.t) : nat :=
  length (default [] (PrepList.items list_)).

(** The body of the loop of [deduplicatePrepLists]. *)
Definition dedupe_step (seen : list (string * PrepList.t)) (list_ : PrepList.t)
  : list (string * PrepList.t) :=
  let key := dedupe_key list_ in
  match map_get key seen with
  | None => map_set key list_ seen
  | Some existing =>
      if Nat.ltb (items_length existing) (items_length list_)
      then map_set key list_ seen
      else seen
  end.

Definition deduplicatePrepLists (prepLists : list PrepList.t) : list PrepList.t :=
  map_values (foldl dedupe_step [] prepLists).

(** The loop invariant of [deduplicatePrepLists]: [seen] after the lists
    [visited] have been looked at. *)
Record dedupe_inv (visited : list PrepList.t) (seen : list (string * PrepList.t))
  : Prop := {
  inv_nodup : NoDup seen.*1;
  inv_sound : forall k v, map_get k seen = Some v ->
    dedupe_key v = k /\ v ∈ visited /\
    forall p, p ∈ visited -> dedupe_key p = k ->
              (items_length p <= items_length v)%nat;
  inv_complete : forall p, p ∈ visited ->
    is_Some (map_get (dedupe_key p) seen) }.

(** The object a load builds from each row, and the validity filter. *)
Definition prepList_of_item (item : PrepListRow.t) : PrepList.t :=
  {| PrepList.id := PrepListRow.id item;
     PrepList.name := PrepListRow.name item;
     PrepList.items := Some (JS.array_or_empty (PrepListRow.items item));
     PrepList.company_id := PrepListRow.company_id item;
     PrepList.created_at := None;
     PrepList.updated_at := None |}.

Definition valid (p : PrepList.t) : bool :=
  JS.truthy (PrepList.id p) && JS.truthy (PrepList.name p).

(** The object a save returns from the stored row. *)
Definition prepList_of_data (data : PrepListRow.t) : PrepList.t :=
  {| PrepList.id := PrepListRow.id data;
     PrepList.name := PrepListRow.name data;
     PrepList.items := Some (JS.array_or_empty (PrepListRow.items data));
     PrepList.company_id := None;
     PrepList.created_at := None;
     PrepList.updated_at := None |}.

(** The object literal a save sends. *)
Definition prepList_row (prepList : PrepList.t) : PrepListRow.t :=
  {| PrepListRow.id := PrepList.id prepList;
     PrepListRow.name := PrepList.name prepList;
     PrepListRow.items := PrepList.items prepList;
     PrepListRow.company_id := PrepList.company_id prepList;
     PrepListRow.user_id := None;
     PrepListRow.created_at := None;
     PrepListRow.updated_at := None |}.

Definition event_row (event : Event.t) : EventRow.t :=
  {| EventRow.id := Event.id event;
     EventRow.name := Event.name event;
     EventRow.date := Event.date event;
     EventRow.invoice_number := Event.invoiceNumber event;
     EventRow.prep_items := Event.prepItems event;
     EventRow.status := Event.status event;
     EventRow.total_servings := Event.totalServings event;
     EventRow.company_id := None;
     EventRow.user_id := None;
     EventRow.created_at := None;
     EventRow.updated_at := None |}.

Definition event_of_row (data : EventRow.t) : Event.t :=
  {| Event.id := EventRow.id data;
     Event.name := EventRow.name data;
     Event.date := EventRow.date data;
     Event.invoiceNumber := EventRow.invoice_number data;
     Event.prepItems := Some (JS.array_or_empty (EventRow.prep_items data));
     Event.status := EventRow.status data;
     Event.totalServings := JS.or_zero (EventRow.total_servings data);
     Event.company_id := None;
     Event.created_at := None;
     Event.updated_at := None |}.

Definition recipe_row (recipe : Recipe.t) : RecipeRow.t :=
  {| RecipeRow.id := Recipe.id recipe;
     RecipeRow.name := Recipe.name recipe;
     RecipeRow.description := Recipe.description recipe;
     RecipeRow.ingredients := Recipe.ingredients recipe;
     RecipeRow.instructions := Recipe.instructions recipe;
     RecipeRow.yield := Recipe.yield recipe;
     RecipeRow.prep_time := Recipe.prepTime recipe;
     RecipeRow.cook_time := Recipe.cookTime recipe;
     RecipeRow.total_time := Recipe.totalTime recipe;
     RecipeRow.difficulty := Recipe.difficulty recipe;
     RecipeRow.tags := Recipe.tags recipe;
     RecipeRow.notes := Recipe.notes recipe;
     RecipeRow.image := Recipe.image recipe;
     RecipeRow.company_id := None;
     RecipeRow.user_id := None;
     RecipeRow.created_at := Recipe.createdAt recipe;
     RecipeRow.updated_at := Recipe.updatedAt recipe |}.

Section WithBackend.
Context {R : Type} `{Backend R} `{Json}.

Local Abbreviation M := (Eff.M Svc R).

Definition testConnection : M bool :=
  now <- dateNow ;;
  s <- get ;;
  let probe : M bool :=
    let remember (isConnected : bool) : M bool :=
      modify (set_connectionCache
                (Some {| ConnectionCache.isConnected := isConnected;
                         ConnectionCache.lastCheck := now |})) ;;;
      ret isConnected in
    try_catch
      (e <- getEnv ;;
       if negb (bool_decide (Env.access_granted e = Some "1"))
       then remember false
       else if negb (JS.nonempty (Env.VITE_SUPABASE_URL e))
               || negb (JS.nonempty (Env.VITE_SUPABASE_ANON_KEY e))
       then remember false
       else
         r <- call (SelectLimit1 "prep_lists" "count") ;;
         remember (negb (bool_decide (is_Some (Reply.error r)))))
      (fun error => remember false) in
  match connectionCache s with
  | Some c =>
      if Z.ltb (now - ConnectionCache.lastCheck c) CACHE_DURATION
      then ret (ConnectionCache.isConnected c)
      else probe
  | None => probe
  end.

Definition isDuplicateOperation (operationKey : string) (data : PrepList.t)
  : M bool :=
  s <- get ;;
  match recentOperations s !! operationKey with
  | None => ret false
  | Some recent =>
      now <- dateNow ;;
      if Z.ltb DUPLICATE_WINDOW (now - Recent.timestamp recent)
      then
        modify (fun s => set_recentOperations
                           (delete operationKey (recentOperations s)) s) ;;;
        ret false
      else
        ret (bool_decide (stringify (Recent.data recent) = stringify data))
  end.

(** [executeWithLock] with the operation run to its end before anything
    else happens: the entry is set by [Pool.executeWithLock] and deleted
    by [Pool.settle]. *)
Definition executeWithLock {A} (operationKey : string) (name : string)
    (operation : M A) : M (Handle A) :=
  s <- get ;;
  match Pool.operationLocks (locks s) !! operationKey with
  | Some existingOperation => ret (Waiting existingOperation)
  | None =>
      let '(operationPromise, table) :=
        Pool.executeWithLock operationKey name (locks s) in
      modify (set_locks table) ;;;
      try_catch
        (a <- operation ;;
         modify (fun s => set_locks
                   (Pool.settle operationPromise fulfilled (locks s)) s) ;;;
         ret (Done a))
        (fun error =>
           modify (fun s => set_locks
                     (Pool.settle operationPromise rejected (locks s)) s) ;;;
           throw error)
  end.

(** The operation [savePrepList] hands to [executeWithLock]. *)
Definition persistPrepList (operationKey : string) (prepList : PrepList.t)
  : M PrepList.t :=
  try_catch
    (isConnected <- testConnection ;;
     if negb isConnected then throw (Error msg_persist)
     else if negb (JS.truthy (PrepList.id prepList))
             || negb (JS.truthy (PrepList.name prepList))
     then throw (Error msg_preplist_invalid)
     else
       r <- call (PrepListUpsert (prepList_row prepList) no_options) ;;
       match Reply.error r with
       | Some error =>
           existing <-
             (if bool_decide (JsError.code error = Some "23505")
              then e <- call (PrepListById (PrepList.id prepList)) ;;
                   ret (Reply.data e)
              else ret None) ;;
           match existing with
           | Some existing => ret (prepList_of_data existing)
           | None => throw error
           end
       | None =>
           t <- dateNow ;;
           modify (fun s => set_recentOperations
                     (<[operationKey :=
                          {| Recent.timestamp := t;
                             Recent.data := prepList |}]>
                        (recentOperations s)) s) ;;;
           match Reply.data r with
           | Some data => ret (prepList_of_data data)
           | None => throw (Error msg_no_row)
           end
       end)
    (fun error => throw error).

Definition savePrepList (prepList : PrepList.t) : M (Handle PrepList.t) :=
  let operationKey := generateOperationKey "savePrepList" prepList in
  duplicate <- isDuplicateOperation operationKey prepList ;;
  if duplicate then ret (Done prepList)
  else
    executeWithLock operationKey "savePrepList"
      (persistPrepList operationKey prepList).

Definition loadPrepLists : M (list PrepList.t) :=
  try_catch
    (isConnected <- testConnection ;;
     if negb isConnected then throw (Error msg_load)
     else
       r <- call PrepListsAll ;;
       match Reply.error r with
       | Some error => throw error
       | None =>
           let prepLists := prepList_of_item <$> default [] (Reply.data r) in
           let validLists := filter (fun p => valid p) prepLists in
           ret (deduplicatePrepLists validLists)
       end)
    (fun error => throw error).

Definition deletePrepList (id : option string) : M (Handle unit) :=
  let operationKey := "deletePrepList_" +:+ JS.template id in
  executeWithLock operationKey "deletePrepList"
    (try_catch
       (isConnected <- testConnection ;;
        if negb isConnected then throw (Error msg_delete)
        else
          r <- call (DeleteById "prep_lists" id) ;;
          match Reply.error r with
          | Some error => throw error
          | None => ret tt
          end)
       (fun error => throw error)).

Definition saveEvent (event : Event.t) : M Event.t :=
  try_catch
    (isConnected <- testConnection ;;
     if negb isConnected then throw (Error msg_persist)
     else
       r <- call (EventUpsert (event_row event) no_options) ;;
       match Reply.error r with
       | Some error => throw error
       | None =>
           match Reply.data r with
           | Some data => ret (event_of_row data)
           | None => throw (Error msg_no_row)
           end
       end)
    (fun error => throw error).

Definition loadEvents : M (list Event.t) :=
  try_catch
    (isConnected <- testConnection ;;
     if negb isConnected then throw (Error msg_load)
     else
       r <- call EventsAll ;;
       match Reply.error r with
       | Some error => throw error
       | None => ret (event_of_row <$> default [] (Reply.data r))
       end)
    (fun error => throw error).

(** [saveRecipe] and [loadRecipes] hand back the rows as they come. *)
Definition saveRecipe (recipe : Recipe.t) : M (option RecipeRow.t) :=
  isConnected <- testConnection ;;
  if negb isConnected then throw (Error msg_persist)
  else
    r <- call (RecipeUpsert (recipe_row recipe) no_options) ;;
    match Reply.error r with
    | Some error => throw error
    | None => ret (Reply.data r)
    end.

Definition loadRecipes : M (list RecipeRow.t) :=
  isConnected <- testConnection ;;
  if negb isConnected then throw (Error msg_load)
  else
    r <- call RecipesAll ;;
    match Reply.error r with
    | Some error => throw error
    | None => ret (default [] (Reply.data r))
    end.

(** The world once [executeWithLock] has set the entry of a free key,
    before the operation does anything. *)
Definition registered (operationKey name : string) (w : World Svc R)
  : World Svc R :=
  {| svc := set_locks (snd (Pool.executeWithLock operationKey name
                              (locks (svc w)))) (svc w);
     remote := remote w; log := log w; now := now w; env := env w |}.

(** The lock table is as it was. *)
Definition keeps_locks (w w' : World Svc R) : Prop :=
  locks (svc w') = locks (svc w).

(** The duplicate cache is as it was. *)
Definition keeps_recent (w w' : World Svc R) : Prop :=
  recentOperations (svc w') = recentOperations (svc w).

End WithBackend.
End Lock.

(** ** A backend to run the service against

    An in-memory stand-in for the hosted backend: three tables, a session,
    and a hook that makes chosen requests fail. *)

Module Fake.

Inductive Fault :=
| Throws (e : JsError.t)
| Errors (e : JsError.t).

Record Remote := {
  session : option Session.t;
  user_profiles : gmap string UserProfile.t;
  prep_lists : list PrepListRow.t;
  recipes : list RecipeRow.t;
  fault : Request -> option Fault;
  delay : N }.

Definition no_fault : Request -> option Fault := fun _ => None.

Definition pgError (code msg : string) : JsError.t :=
  {| JsError.message := msg; JsError.code := Some code;
     JsError.instanceofError := false |}.

Definition ok {D} (d : D) : Outcome D :=
  Answered {| Reply.data := Some d; Reply.error := None |}.
Definition nothing {D} : Outcome D :=
  Answered {| Reply.data := None; Reply.error := None |}.
Definition failed {D} (e : JsError.t) : Outcome D :=
  Answered {| Reply.data := None; Reply.error := Some e |}.

Definition stored_profile (p : NewProfile.t) : UserProfile.t :=
  {| UserProfile.id := NewProfile.id p;
     UserProfile.email := NewProfile.email p;
     UserProfile.full_name := NewProfile.full_name p;
     UserProfile.company_id := None;
     UserProfile.role := NewProfile.role p;
     UserProfile.avatar_url := None;
     UserProfile.created_at := Some "2025-09-04T12:00:00Z";
     UserProfile.updated_at := Some "2025-09-04T12:00:00Z" |}.

Definition stored_prep_list (row : PrepListRow.t) : PrepListRow.t :=
  {| PrepListRow.id := PrepListRow.id row;
     PrepListRow.name := PrepListRow.name row;
     PrepListRow.items := PrepListRow.items row;
     PrepListRow.company_id := PrepListRow.company_id row;
     PrepListRow.user_id := PrepListRow.user_id row;
     PrepListRow.created_at := Some "2025-09-04T12:00:00Z";
     PrepListRow.updated_at := Some "2025-09-04T12:00:00Z" |}.

Definition same_id (id : option string) (row : PrepListRow.t) : bool :=
  bool_decide (PrepListRow.id row = id).

(** Insert, or replace the row with the same id. *)
Fixpoint upsert (row : PrepListRow.t) (table : list PrepListRow.t)
  : list PrepListRow.t :=
  match table with
  | [] => [row]
  | x :: rest =>
      if same_id (PrepListRow.id row) x then row :: rest
      else x :: upsert row rest
  end.

Definition with_profiles (t : gmap string UserProfile.t) (r : Remote) : Remote :=
  {| session := session r; user_profiles := t; prep_lists := prep_lists r;
     recipes := recipes r; fault := fault r; delay := delay r |}.
Definition with_prep_lists (t : list PrepListRow.t) (r : Remote) : Remote :=
  {| session := session r; user_profiles := user_profiles r; prep_lists := t;
     recipes := recipes r; fault := fault r; delay := delay r |}.

Definition serve (q : Request) (r : Remote) : Outcome (answer q) * Remote :=
  match q as q0 return Outcome (answer q0) * Remote with
  | GetSession =>
      (Answered {| Reply.data := session r; Reply.error := None |}, r)
  | OnAuthStateChange => (ok tt, r)
  | SelectLimit1 _ _ => (ok tt, r)
  | ProfileById uid =>
      match user_profiles r !! uid with
      | Some p => (ok p, r)
      | None => (failed (pgError "PGRST116" "no rows returned"), r)
      end
  | ProfileUpsert p _ =>
      (ok (stored_profile p),
       with_profiles (<[NewProfile.id p := stored_profile p]> (user_profiles r)) r)
  | PrepListUpsert row _ =>
      (ok (stored_prep_list row),
       with_prep_lists (upsert (stored_prep_list row) (prep_lists r)) r)
  | PrepListsAll => (ok (prep_lists r), r)
  | RecipesAll => (ok (recipes r), r)
  | PrepListById id =>
      match List.find (same_id id) (prep_lists r) with
      | Some row => (ok row, r)
      | None => (failed (pgError "PGRST116" "no rows returned"), r)
      end
  | DeleteById _ id =>
      (nothing,
       with_prep_lists (List.filter (fun x => negb (same_id id x)) (prep_lists r)) r)
  | EventUpsert row _ => (ok row, r)
  | RecipeUpsert row _ => (ok row, r)
  | MethodUpsert row _ => (ok row, r)
  | EventsAll => (ok [], r)
  | MethodsAll => (ok [], r)
  | PgClass _ => (ok true, r)
  | PgPolicies _ _ => (ok [], r)
  end.

Definition fake_respond (q : Request) (r : Remote) : Outcome (answer q) * Remote :=
  match fault r q with
  | Some (Throws e) => (Threw e, r)
  | Some (Errors e) => (failed e, r)
  | None => serve q r
  end.

#[global] Instance backend : Backend Remote :=
  {| respond := fake_respond; latency := fun _ r => delay r |}.

Definition configured : Env.t :=
  {| Env.VITE_SUPABASE_URL := "https://prep.supabase.co";
     Env.VITE_SUPABASE_ANON_KEY := "anon-key";
     Env.access_granted := Some "1" |}.

Definition unconfigured : Env.t :=
  {| Env.VITE_SUPABASE_URL := EmptyString;
     Env.VITE_SUPABASE_ANON_KEY := EmptyString;
     Env.access_granted := None |}.

Definition chef : User.t :=
  {| User.id := "u1"; User.email := Some "chef@prep.test";
     User.role := Some "authenticated"; User.full_name := None |}.

Definition empty : Remote :=
  {| session := None; user_profiles := ∅; prep_lists := []; recipes := [];
     fault := no_fault; delay := 10%N |}.

Definition signed_in : Remote :=
  {| session := Some {| Session.user := chef |}; user_profiles := ∅;
     prep_lists := []; recipes := []; fault := no_fault; delay := 10%N |}.

Definition world {S} (s : S) (r : Remote) (e : Env.t) : Eff.World S Remote :=
  {| Eff.svc := s; Eff.remote := r; Eff.log := []; Eff.now := 1000; Eff.env := e |}.

(** The reference service as the class declares it. *)
Definition ref_fresh : Ref.Svc :=
  {| Ref.isInitialized := false; Ref.connectionPromise := None;
     Ref.currentUser := None; Ref.userProfile := None |}.

(** The lock/dedupe service as the class declares it. *)
Definition lock_fresh : Lock.Svc :=
  {| Lock.connectionCache := None; Lock.locks := Pool.empty;
     Lock.recentOperations := ∅ |}.

End Fake.

(** ** Concrete inputs *)

Module Sample.

Definition onions : PrepItem.t :=
  {| PrepItem.id := "1"; PrepItem.name := "Onions"; PrepItem.quantity := "5";
     PrepItem.unit := "lbs"; PrepItem.category := None;
     PrepItem.completed := None; PrepItem.assignedTo := None;
     PrepItem.notes := None |}.

Definition prep_list_row (id name : string) (company : option string)
    (items : list PrepItem.t) : PrepListRow.t :=
  {| PrepListRow.id := Some id; PrepListRow.name := Some name;
     PrepListRow.items := Some items; PrepListRow.company_id := company;
     PrepListRow.user_id := None; PrepListRow.created_at := None;
     PrepListRow.updated_at := None |}.

(** Three valid rows; the first two share name and company, and the
    third has another name and another company. *)
Definition colliding_rows : list PrepListRow.t :=
  [prep_list_row "1" "Lunch_north" (Some "kitchen") [];
   prep_list_row "2" "Lunch_north" (Some "kitchen") [];
   prep_list_row "3" "Lunch" (Some "north_kitchen") [onions]].



Definition dinner_prep : PrepList.t :=
  {| PrepList.id := Some "p1"; PrepList.name := Some "  Dinner Prep  ";
     PrepList.items := Some []; PrepList.company_id := None;
     PrepList.created_at := None; PrepList.updated_at := None |}.

Definition stock : Recipe.t :=
  {| Recipe.id := Some "r1"; Recipe.name := Some "Stock";
     Recipe.description := None;
     Recipe.ingredients := Some ["bones"; "water"];
     Recipe.instructions := Some ["simmer"];
     Recipe.yield := Some "4 l";
     Recipe.prepTime := JS.Num (JS.int 0);
     Recipe.cookTime := JS.Num (JS.int 240);
     Recipe.totalTime := JS.Num (JS.int 240);
     Recipe.difficulty := Some Easy; Recipe.tags := None;
     Recipe.notes := None; Recipe.image := None;
     Recipe.company_id := None;
     Recipe.createdAt := None; Recipe.updatedAt := None |}.

Definition blank_name : PrepList.t :=
  {| PrepList.id := Some "p1"; PrepList.name := Some "   ";
     PrepList.items := Some []; PrepList.company_id := None;
     PrepList.created_at := None; PrepList.updated_at := None |}.

(** NO-BREAK SPACE (U+00A0), and a prep list named with it. *)
Definition nbsp : string := String (ascii_of_nat 160) EmptyString.

Definition nbsp_name : PrepList.t :=
  {| PrepList.id := Some "p1"; PrepList.name := Some (nbsp +:+ " ");
     PrepList.items := Some []; PrepList.company_id := None;
     PrepList.created_at := None; PrepList.updated_at := None |}.

(** The reference service just loaded, a signed-in session at the
    backend, both secrets configured. *)
Definition ref_world : Eff.World Ref.Svc Fake.Remote :=
  Fake.world Fake.ref_fresh Fake.signed_in Fake.configured.

Definition nameless_recipe : RecipeRow.t :=
  {| RecipeRow.id := Some "r9"; RecipeRow.name := None;
     RecipeRow.description := None; RecipeRow.ingredients := None;
     RecipeRow.instructions := None; RecipeRow.yield := None;
     RecipeRow.prep_time := JS.Null; RecipeRow.cook_time := JS.Null;
     RecipeRow.total_time := JS.Null; RecipeRow.difficulty := None;
     RecipeRow.tags := None; RecipeRow.notes := None;
     RecipeRow.image := None; RecipeRow.company_id := None;
     RecipeRow.user_id := None; RecipeRow.created_at := None;
     RecipeRow.updated_at := None |}.

(** The lock/dedupe service just loaded, a backend whose recipes table
    holds one row without a name. *)
Definition nameless_world : Eff.World Lock.Svc Fake.Remote :=
  Fake.world Fake.lock_fresh
    {| Fake.session := None; Fake.user_profiles := ∅; Fake.prep_lists := [];
       Fake.recipes := [nameless_recipe]; Fake.fault := Fake.no_fault;
       Fake.delay := 10%N |}
    Fake.configured.

(** A valid row followed by a row without a name. *)
Definition mixed_rows : list PrepListRow.t :=
  [prep_list_row "1" "Lunch" None [onions];
   {| PrepListRow.id := Some "2"; PrepListRow.name := None;
      PrepListRow.items := None; PrepListRow.company_id := None;
      PrepListRow.user_id := None; PrepListRow.created_at := None;
      PrepListRow.updated_at := None |}].

Definition ref_world_with (rows : list PrepListRow.t)
  : Eff.World Ref.Svc Fake.Remote :=
  Fake.world Fake.ref_fresh (Fake.with_prep_lists rows Fake.signed_in)
             Fake.configured.

Definition roast : Recipe.t :=
  {| Recipe.id := Some "r2"; Recipe.name := Some "Roast";
     Recipe.description := None;
     Recipe.ingredients := Some ["beef"; "salt"];
     Recipe.instructions := Some ["sear"; "rest"];
     Recipe.yield := Some "6 portions";
     Recipe.prepTime := JS.Num (JS.int 15);
     Recipe.cookTime := JS.Num (JS.int 240);
     Recipe.totalTime := JS.Num (JS.int 255);
     Recipe.difficulty := Some Easy; Recipe.tags := None;
     Recipe.notes := None; Recipe.image := None;
     Recipe.company_id := None;
     Recipe.createdAt := None; Recipe.updatedAt := None |}.

(** The reference service initialised and signed in, its connection test
    memoised as passed, no profile cached and none at the backend. *)
Definition signed_in_world : Eff.World Ref.Svc Fake.Remote :=
  Fake.world
    {| Ref.isInitialized := true; Ref.connectionPromise := Some true;
       Ref.currentUser := Some Fake.chef; Ref.userProfile := None |}
    Fake.signed_in Fake.configured.

(** A backend without session where every look-up of [pg_class] throws. *)
Definition rls_unreadable : Fake.Remote :=
  {| Fake.session := None; Fake.user_profiles := ∅; Fake.prep_lists := [];
     Fake.recipes := [];
     Fake.fault := fun q =>
       match q with
       | PgClass _ => Some (Fake.Throws (Error "permission denied for pg_class"))
       | _ => None
       end;
     Fake.delay := 10%N |}.

Definition rls_unreadable_world : Eff.World Ref.Svc Fake.Remote :=
  Fake.world Fake.ref_fresh rls_unreadable Fake.configured.

Definition unconfigured_world : Eff.World Ref.Svc Fake.Remote :=
  Fake.world Fake.ref_fresh Fake.signed_in Fake.unconfigured.

Definition lunch : PrepList.t :=
  {| PrepList.id := Some "p1"; PrepList.name := Some "Lunch";
     PrepList.items := Some [onions]; PrepList.company_id := None;
     PrepList.created_at := None; PrepList.updated_at := None |}.

(** The event of the specification's scenario: its servings are given
    as a text. *)
Definition gala : Event.t :=
  {| Event.id := Some "e1"; Event.name := Some "Gala";
     Event.date := Some "2025-01-01"; Event.invoiceNumber := None;
     Event.prepItems := None; Event.status := None;
     Event.totalServings := JS.Str "50"; Event.company_id := None;
     Event.created_at := None; Event.updated_at := None |}.

(** A recipe whose times are not a number, a numeric text, and missing. *)
Definition guess : Recipe.t :=
  {| Recipe.id := Some "r3"; Recipe.name := Some "Guess";
     Recipe.description := None; Recipe.ingredients := None;
     Recipe.instructions := None; Recipe.yield := None;
     Recipe.prepTime := JS.Num JS.NaN; Recipe.cookTime := JS.Str "45";
     Recipe.totalTime := JS.Undefined;
     Recipe.difficulty := None; Recipe.tags := None;
     Recipe.notes := None; Recipe.image := None;
     Recipe.company_id := None;
     Recipe.createdAt := None; Recipe.updatedAt := None |}.

Definition lock_world (rows : list PrepListRow.t)
  : Eff.World Lock.Svc Fake.Remote :=
  Fake.world Fake.lock_fresh (Fake.with_prep_lists rows Fake.empty)
             Fake.configured.

End Sample.

(** * Further behaviour of the service

    The rest of the two classes: what a wrapped operation returns for each
    answer of the backend, the cached connection test and the diagnosis of
    the lock/dedupe variant, the account functions and the maintenance
    utilities of the reference variant. *)

(** ** What the wrapper of the reference variant hands to the caller *)

Module Outcomes.
Import Eff Ref.

(** The error the [catch] block of [executeWithErrorHandling] raises in
    place of [error]. *)
Definition surfaced (error : JsError.t) : JsError.t :=
  if code_is "42P01" error then Error msg_table_missing
  else if code_is "42501" error || JS.includes "RLS" (JsError.message error)
  then Error msg_access_denied
  else if code_is "23505" error then Error msg_duplicate
  else if JS.includes "JWT" (JsError.message error) then Error msg_token
  else error.

(** What a wrapped operation that awaits one request hands to its caller,
    for each way the request can end: [if (error) throw error] and then
    [f data], with every error passing through the [catch] block. *)
Definition answered {D A} (f : option D -> Res A) (o : Outcome D) : Res A :=
  match o with
  | Threw e => Raise (surfaced e)
  | Answered r =>
      match Reply.error r with
      | Some e => Raise (surfaced e)
      | None => f (Reply.data r)
      end
  end.

(** The same without the wrapper: the lock/dedupe variant raises the
    errors of the backend as they are. *)
Definition passed_on {D A} (f : option D -> Res A) (o : Outcome D) : Res A :=
  match o with
  | Threw e => Raise e
  | Answered r =>
      match Reply.error r with
      | Some e => Raise e
      | None => f (Reply.data r)
      end
  end.

(** [f(data)] where [f] reads fields of [data]. *)
Definition of_row {D A} (f : D -> A) (data : option D) : Res A :=
  match data with
  | Some d => Ok (f d)
  | None => Raise (Error msg_no_row)
  end.

(** [(data || []).filter(keep).map(f)]. *)
Definition of_rows {D A} (keep : D -> bool) (f : D -> A) (data : option (list D))
  : Res (list A) :=
  Ok (f <$> filter (fun item => keep item) (default [] data)).
End Outcomes.

(** ** The order of [deduplicatePrepLists] *)

Module KeyOrder.
(** The distinct elements of [ks], each at its first occurrence. *)
Fixpoint first_occurrences (ks : list string) : list string :=
  match ks with
  | [] => []
  | k :: r => k :: filter (fun k' => k' <> k) (first_occurrences r)
  end.

(** [v] is the first of the lists of [l] with key [k] that has the most
    items among them. *)
Definition first_best (l : list PrepList.t) (k : string) (v : PrepList.t)
  : Prop :=
  exists i, l !! i = Some v /\ Lock.dedupe_key v = k /\
    forall j p, l !! j = Some p -> Lock.dedupe_key p = k ->
      (Lock.items_length p <= Lock.items_length v)%nat /\
      (Lock.items_length p = Lock.items_length v -> (i <= j)%nat).

(** Every entry of [seen] is the first best of its key among the lists
    visited. *)
Definition best_inv (visited : list PrepList.t)
    (seen : list (string * PrepList.t)) : Prop :=
  forall k v, Lock.map_get k seen = Some v -> first_best visited k v.

(** The keys of a [Map] after [set] of [k], in iteration order. *)
Definition add_key (acc : list string) (k : string) : list string :=
  if bool_decide (k ∈ acc) then acc else acc ++ [k].
End KeyOrder.

(** ** Guarded calls of the lock/dedupe variant *)

Module Guarded.
Import Eff Lock.

(** What the caller of a guarded method holds when its own operation has
    run to the end with result [r]. *)
Definition completed {A} (r : Res A) : Res (Handle A) :=
  match r with
  | Ok a => Ok (Done a)
  | Raise e => Raise e
  end.
End Guarded.

(** ** [diagnoseConnection] of the lock/dedupe variant *)

Module LockDiagnosis.
Import Eff Eff.Notations Lock.

Record t := {
  configured : bool; accessible : bool;
  tables : list string; errors : list string }.

Definition initial : t :=
  {| configured := false; accessible := false; tables := []; errors := [] |}.

Definition set_configured (b : bool) (d : t) : t :=
  {| configured := b; accessible := accessible d; tables := tables d;
     errors := errors d |}.
Definition set_accessible (b : bool) (d : t) : t :=
  {| configured := configured d; accessible := b; tables := tables d;
     errors := errors d |}.
Definition push_table (x : string) (d : t) : t :=
  {| configured := configured d; accessible := accessible d;
     tables := tables d ++ [x]; errors := errors d |}.
Definition push_error (x : string) (d : t) : t :=
  {| configured := configured d; accessible := accessible d;
     tables := tables d; errors := errors d ++ [x] |}.

Definition tablesToList : list string :=
  ["prep_lists"; "events"; "recipes"; "methods"; "containers"].

Definition access_error_message (error : JsError.t) : string :=
  "Database access error: " +:+ JsError.message error.
Definition test_failed_message (error : JsError.t) : string :=
  "Connection test failed: " +:+ Ref.error_text error.

(** The probe of a table. *)
Definition probe (table : string) : Request := SelectLimit1 table "count".

(** The tables a run of probes found readable: those whose probe returned
    no error. *)
Definition readable (tr : list (Request * Verdict)) : list string :=
  flat_map (fun x => match x with
                     | (SelectLimit1 table _, Succeeded) => [table]
                     | _ => []
                     end) tr.

(** What the report says in [errors] about the first probe. *)
Definition first_probe_errors (v : Verdict) : list string :=
  match v with
  | Succeeded => []
  | ReturnedError e => [access_error_message e]
  | Thrown e => [test_failed_message e]
  end.

Definition succeeded (v : Verdict) : bool :=
  match v with Succeeded => true | _ => false end.

Section WithBackend.
Context {R : Type} `{Backend R}.

(** One iteration of the loop over the tables. *)
Definition listTable (table : string) : Eff.M (Svc * t) R unit :=
  r <- call (probe table) ;;
  match Reply.error r with
  | Some tableError => ret tt
  | None => update (push_table table)
  end.

(** The outer [try] block. *)
Definition diagnose_body : Eff.M (Svc * t) R unit :=
  e <- getEnv ;;
  let hasUrl := JS.nonempty (Env.VITE_SUPABASE_URL e) in
  let hasKey := JS.nonempty (Env.VITE_SUPABASE_ANON_KEY e) in
  (if negb hasUrl then update (push_error Ref.msg_no_url) else ret tt) ;;;
  (if negb hasKey then update (push_error Ref.msg_no_key) else ret tt) ;;;
  update (set_configured (hasUrl && hasKey)) ;;;
  if hasUrl && hasKey then
    r <- call (probe "prep_lists") ;;
    match Reply.error r with
    | Some error => update (push_error (access_error_message error))
    | None =>
        update (set_accessible true) ;;;
        try_catch (for_each tablesToList listTable) (fun e => ret tt)
    end
  else ret tt.

Definition diagnoseConnection : Eff.M Svc R t :=
  with_var initial
    (try_catch diagnose_body
       (fun error => update (push_error (test_failed_message error)))).
End WithBackend.
End LockDiagnosis.

(** ** The account functions of the reference variant

    Signing up, in and out, and the functions on profiles.  Their requests
    are answered by a collaborator of their own, [AuthBackend], on the same
    backend state; the request log of [Eff] keeps recording the requests of
    [Request] only.  As for the other methods, the listener registered by
    [initialize] runs between calls, not inside them. *)

Module Account.
Import Eff Eff.Notations Ref.

(** [Partial<UserProfile>]: what the caller of [updateUserProfile] may
    pass. *)
Module ProfilePatch.
Record t := {
  id : option string; email : option string; full_name : option string;
  company_id : option string; role : option Role;
  avatar_url : option string }.
End ProfilePatch.

(** The object [updateUserProfile] sends. *)
Module Changes.
Record t := {
  full_name : option string; company_id : option string;
  avatar_url : option string }.
End Changes.

(** [data] of the sign-up and sign-in calls, as far as the service reads
    it. *)
Module AuthData.
Record t := { user : option User.t }.
End AuthData.

(** [{ success, error? }]. *)
Module AuthResult.
Record t := { success : bool; error : option string }.
End AuthResult.

Inductive Request :=
| SignUp (email password : string) (full_name : option string)
| SignInWithPassword (email password : string)
| SignOut
| ProfileUpdate (changes : Changes.t) (uid : string)
| ProfilesByCompany (companyId : string).

Definition answer (q : Request) : Type :=
  match q with
  | SignUp _ _ _ => AuthData.t
  | SignInWithPassword _ _ => AuthData.t
  | SignOut => unit
  | ProfileUpdate _ _ => UserProfile.t
  | ProfilesByCompany _ => list UserProfile.t
  end.

Class AuthBackend (R : Type) := {
  respond : forall q : Request, R -> Outcome (answer q) * R;
  latency : Request -> R -> N }.

Definition msg_update_auth : string :=
  "Authentication required to update profile".
Definition msg_company_auth : string := "Authentication required".
Definition unknown_sign_up : string := "Unknown error during sign up".
Definition unknown_sign_in : string := "Unknown error during sign in".
Definition unknown_sign_out : string := "Unknown error during sign out".

(** [error.message || fallback]. *)
Definition message_or (fallback : string) (error : JsError.t) : string :=
  if JS.nonempty (JsError.message error) then JsError.message error
  else fallback.

Definition succeeded : AuthResult.t :=
  {| AuthResult.success := true; AuthResult.error := None |}.
Definition failed (message : string) : AuthResult.t :=
  {| AuthResult.success := false; AuthResult.error := Some message |}.

(** What the sign-up and sign-in functions return for each way their
    request can end. *)
Definition auth_result (fallback : string) (o : Outcome AuthData.t)
  : AuthResult.t :=
  match o with
  | Threw e => failed (message_or fallback e)
  | Answered r =>
      match Reply.error r with
      | Some error => failed (JsError.message error)
      | None =>
          match Reply.data r with
          | Some _ => succeeded
          | None => failed msg_no_row
          end
      end
  end.

(** The same for [signOut], which reads no [data]. *)
Definition sign_out_result (o : Outcome unit) : AuthResult.t :=
  match o with
  | Threw e => failed (message_or unknown_sign_out e)
  | Answered r =>
      match Reply.error r with
      | Some error => failed (JsError.message error)
      | None => succeeded
      end
  end.

(** The fields of the service after a successful [signOut]. *)
Definition signed_out (s : Svc) : Svc :=
  {| isInitialized := isInitialized s; connectionPromise := None;
     currentUser := None; userProfile := None |}.

Section WithBackend.
Context {R : Type} `{Backend R} `{AuthBackend R}.

Local Abbreviation M := (Eff.M Svc R).

(** [await <request>] for the requests of this module. *)
Definition request (q : Request) : M (Reply.t (answer q)) :=
  fun w =>
    let '(o, r') := respond q (remote w) in
    let w' := {| svc := svc w; remote := r'; log := log w;
                 now := now w + Z.of_N (latency q (remote w));
                 env := env w |} in
    match o with
    | Threw e => (Raise e, w')
    | Answered r => (Ok r, w')
    end.

(** The world when request [q] has been answered and the backend has
    moved on to [r1]. *)
Definition answered_at (q : Request) (r1 : R) (w : World Svc R)
  : World Svc R :=
  {| svc := svc w; remote := r1; log := log w;
     now := now w + Z.of_N (latency q (remote w)); env := env w |}.

(** [this.currentUser = u] and [this.connectionPromise = null]. *)
Definition with_identity (u : User.t) (w : World Svc R) : World Svc R :=
  {| svc := set_currentUser (Some u) (svc w); remote := remote w;
     log := log w; now := now w; env := env w |}.
Definition memo_reset (w : World Svc R) : World Svc R :=
  {| svc := set_connectionPromise None (svc w); remote := remote w;
     log := log w; now := now w; env := env w |}.

Definition getUserProfile : M (option UserProfile.t) :=
  s <- get ;;
  match currentUser s with
  | None => ret None
  | Some _ => try_catch ensureUserProfile (fun error => ret None)
  end.

Definition updateUserProfile (updates : ProfilePatch.t)
  : M (option UserProfile.t) :=
  s <- get ;;
  match currentUser s with
  | None => throw (Error msg_update_auth)
  | Some _ =>
      executeWithErrorHandling "updateUserProfile"
        (s <- get ;;
         match currentUser s with
         | None => throw (Error msg_no_row)
         | Some u =>
             r <- request
                    (ProfileUpdate
                       {| Changes.full_name := ProfilePatch.full_name updates;
                          Changes.company_id := ProfilePatch.company_id updates;
                          Changes.avatar_url := ProfilePatch.avatar_url updates |}
                       (User.id u)) ;;
             match Reply.error r with
             | Some error => throw error
             | None =>
                 modify (set_userProfile (Reply.data r)) ;;;
                 ret (Reply.data r)
             end
         end)
  end.

Definition signUp (email password : string) (fullName : option string)
  : M AuthResult.t :=
  try_catch
    (r <- request (SignUp email password (JS.or_null fullName)) ;;
     match Reply.error r with
     | Some error => ret (failed (JsError.message error))
     | None =>
         match Reply.data r with
         | None => throw (Error msg_no_row)
         | Some data =>
             (match AuthData.user data with
              | Some _ => ensureUserProfile ;;; ret tt
              | None => ret tt
              end) ;;;
             modify (set_connectionPromise None) ;;;
             ret succeeded
         end
     end)
    (fun error => ret (failed (message_or unknown_sign_up error))).

Definition signIn (email password : string) : M AuthResult.t :=
  try_catch
    (r <- request (SignInWithPassword email password) ;;
     match Reply.error r with
     | Some error => ret (failed (JsError.message error))
     | None =>
         match Reply.data r with
         | None => throw (Error msg_no_row)
         | Some data =>
             (match AuthData.user data with
              | Some u =>
                  modify (set_currentUser (Some u)) ;;;
                  ensureUserProfile ;;; ret tt
              | None => ret tt
              end) ;;;
             modify (set_connectionPromise None) ;;;
             ret succeeded
         end
     end)
    (fun error => ret (failed (message_or unknown_sign_in error))).

Definition signOut : M AuthResult.t :=
  try_catch
    (r <- request SignOut ;;
     match Reply.error r with
     | Some error => ret (failed (JsError.message error))
     | None =>
         modify (set_currentUser None) ;;;
         modify (set_userProfile None) ;;;
         modify (set_connectionPromise None) ;;;
         ret succeeded
     end)
    (fun error => ret (failed (message_or unknown_sign_out error))).

Definition signIn_legacy (email password : string) : M bool :=
  result <- signIn email password ;;
  ret (AuthResult.success result).

Definition getCurrentUser : M (option User.t) :=
  s <- get ;; ret (currentUser s).

Definition getCurrentUserProfile : M (option UserProfile.t) :=
  s <- get ;; ret (userProfile s).

Definition getUsersByCompany (companyId : string) : M (list UserProfile.t) :=
  s <- get ;;
  match currentUser s with
  | None => throw (Error msg_company_auth)
  | Some _ =>
      executeWithErrorHandling "getUsersByCompany"
        (r <- request (ProfilesByCompany companyId) ;;
         match Reply.error r with
         | Some error => throw error
         | None => ret (default [] (Reply.data r))
         end)
  end.
End WithBackend.
End Account.

(** ** A stand-in for the account collaborator *)

Module FakeAccount.
Import Account.

Definition with_session (s : option Session.t) (r : Fake.Remote) : Fake.Remote :=
  {| Fake.session := s; Fake.user_profiles := Fake.user_profiles r;
     Fake.prep_lists := Fake.prep_lists r; Fake.recipes := Fake.recipes r;
     Fake.fault := Fake.fault r; Fake.delay := Fake.delay r |}.

Definition patched (c : Changes.t) (p : UserProfile.t) : UserProfile.t :=
  {| UserProfile.id := UserProfile.id p;
     UserProfile.email := UserProfile.email p;
     UserProfile.full_name := Changes.full_name c;
     UserProfile.company_id := Changes.company_id c;
     UserProfile.role := UserProfile.role p;
     UserProfile.avatar_url := Changes.avatar_url c;
     UserProfile.created_at := UserProfile.created_at p;
     UserProfile.updated_at := Some "2025-09-05T08:00:00Z" |}.

Definition invalid_credentials : JsError.t :=
  {| JsError.message := "Invalid login credentials"; JsError.code := None;
     JsError.instanceofError := true |}.

(** One account, [chef@prep.test] with password [secret]. *)
Definition serve (q : Request) (r : Fake.Remote)
  : Outcome (answer q) * Fake.Remote :=
  match q as q0 return Outcome (answer q0) * Fake.Remote with
  | SignUp email _ full_name =>
      (Fake.ok {| AuthData.user :=
                    Some {| User.id := "u2"; User.email := Some email;
                            User.role := Some "authenticated";
                            User.full_name := full_name |} |}, r)
  | SignInWithPassword email password =>
      if String.eqb email "chef@prep.test" && String.eqb password "secret"
      then (Fake.ok {| AuthData.user := Some Fake.chef |},
            with_session (Some {| Session.user := Fake.chef |}) r)
      else (Answered {| Reply.data := Some {| AuthData.user := None |};
                        Reply.error := Some invalid_credentials |}, r)
  | SignOut => (Fake.nothing, with_session None r)
  | ProfileUpdate changes uid =>
      match Fake.user_profiles r !! uid with
      | Some p =>
          (Fake.ok (patched changes p),
           Fake.with_profiles (<[uid := patched changes p]> (Fake.user_profiles r)) r)
      | None => (Fake.failed (Fake.pgError "PGRST116" "no rows returned"), r)
      end
  | ProfilesByCompany companyId =>
      (Fake.ok (filter (fun p => UserProfile.company_id p = Some companyId)
                       (snd <$> map_to_list (Fake.user_profiles r))), r)
  end.

#[global] Instance backend : AuthBackend Fake.Remote :=
  {| respond := serve; latency := fun _ r => Fake.delay r |}.
End FakeAccount.

(** ** Further concrete inputs *)

Module Scenario.

(** The reference service signed in as in [Sample.signed_in_world], with
    the profile of the chef cached and stored at the backend. *)
Definition chef_profile : UserProfile.t :=
  Fake.stored_profile (Ref.newProfile Fake.chef).

Definition settled_world : Eff.World Ref.Svc Fake.Remote :=
  Fake.world
    {| Ref.isInitialized := true; Ref.connectionPromise := Some true;
       Ref.currentUser := Some Fake.chef;
       Ref.userProfile := Some chef_profile |}
    (Fake.with_profiles {[ "u1" := chef_profile ]} Fake.signed_in)
    Fake.configured.

(** A backend whose probe of [prep_lists] is refused by row-level
    security. *)
Definition rls_refusing : Fake.Remote :=
  {| Fake.session := None; Fake.user_profiles := ∅; Fake.prep_lists := [];
     Fake.recipes := [];
     Fake.fault := fun q =>
       match q with
       | SelectLimit1 _ _ =>
           Some (Fake.Errors (Fake.pgError "42501" "permission denied"))
       | _ => None
       end;
     Fake.delay := 10%N |}.

(** The reference service initialised, nothing memoised, in front of
    that backend. *)
Definition rls_world : Eff.World Ref.Svc Fake.Remote :=
  Fake.world
    {| Ref.isInitialized := true; Ref.connectionPromise := None;
       Ref.currentUser := None; Ref.userProfile := None |}
    rls_refusing Fake.configured.

(** An event without id and without name. *)
Definition anonymous_event : Event.t :=
  {| Event.id := None; Event.name := None; Event.date := None;
     Event.invoiceNumber := None; Event.prepItems := None;
     Event.status := None; Event.totalServings := JS.Undefined;
     Event.company_id := None; Event.created_at := None;
     Event.updated_at := None |}.

(** [Sample.lunch] with its items removed and a company added. *)
Definition lunch_changed : PrepList.t :=
  {| PrepList.id := Some "p1"; PrepList.name := Some "Lunch";
     PrepList.items := Some []; PrepList.company_id := Some "kitchen";
     PrepList.created_at := None; PrepList.updated_at := None |}.

(** The lock/dedupe service while a save of [Sample.lunch] is in flight. *)
Definition busy_world : Eff.World Lock.Svc Fake.Remote :=
  Fake.world
    {| Lock.connectionCache := None;
       Lock.locks := snd (Pool.executeWithLock "prepList_p1_Lunch"
                            "savePrepList" Pool.empty);
       Lock.recentOperations := ∅ |}
    Fake.empty Fake.configured.
End Scenario.

(** ** The service once the connection has been tested *)

Module Readiness.
Import Eff Ref.

(** The requests of the connection test: session, listener, probe. *)
Definition is_connection_request (q : Request) : Prop :=
  match q with
  | GetSession | OnAuthStateChange | SelectLimit1 _ _ => True
  | _ => False
  end.

(** A step from [w] to [w'] on a service whose connection test is
    memoised keeps it memoised and sends no request of the connection
    test. *)
Definition stays_tested {R} (w w' : World Svc R) : Prop :=
  is_Some (connectionPromise (svc w)) ->
  connectionPromise (svc w') = connectionPromise (svc w) /\
  sends (fun q => ~ is_connection_request q) w w'.
End Readiness.

(** ** What the diagnosis of the reference variant lists *)

Module Listing.
Import Eff Ref.

Definition refused_by_rls (e : JsError.t) : bool :=
  code_is "42501" e || JS.includes "RLS" (JsError.message e).

(** What a probe adds to [tables]. *)
Definition table_entry (x : Request * Verdict) : list string :=
  match x with
  | (SelectLimit1 table _, Succeeded) => [table]
  | (SelectLimit1 table _, ReturnedError e) =>
      if refused_by_rls e then [table +:+ " (RLS active)"] else []
  | _ => []
  end.

Definition some_listed (l : list string) : bool :=
  match l with [] => false | _ :: _ => true end.

(** The session fetch found a session. *)
Definition session_found (o : Outcome Session.t) : bool :=
  match o with
  | Answered {| Reply.data := Some _; Reply.error := None |} => true
  | _ => false
  end.

(** The probes of the diagnosis, in order. *)
Definition probes : list Request :=
  (fun table => SelectLimit1 table "id") <$> tablesToTest.

(** The report when the session fetch throws. *)
Definition aborted (e : JsError.t) : Diagnosis.t :=
  {| Diagnosis.configured := true; Diagnosis.accessible := false;
     Diagnosis.authenticated := false; Diagnosis.tables := [];
     Diagnosis.errors := [diagnosis_failed_message e];
     Diagnosis.user := None; Diagnosis.userProfile := None;
     Diagnosis.rlsStatus := ∅ |}.

(** The part of the report that the table loop writes, besides [errors]. *)
Definition listing (d : Diagnosis.t) : list string * bool :=
  (Diagnosis.tables d, Diagnosis.accessible d).

(** The rest of the report, [errors] apart. *)
Definition identity (d : Diagnosis.t)
  : bool * bool * option DiagUser.t * option UserProfile.t :=
  (Diagnosis.configured d, Diagnosis.authenticated d, Diagnosis.user d,
   Diagnosis.userProfile d).
End Listing.

(** ** The maintenance utilities of the reference variant

    [testRLSPolicies] and [cleanupTestData].  Their inserts, updates and
    bulk requests are answered by a collaborator of their own on the same
    backend state; the reads and the deletes by id are requests of
    [Request] and are logged as such.  Rendering the clock as a calendar
    date is a parameter. *)

From stdpp Require Import pretty.
Local Open Scope Z_scope.


Module Maintenance.
Import Eff Eff.Notations Ref.

Module TableAccess.
Record t := {
  canRead : bool; canInsert : bool; canUpdate : bool; canDelete : bool;
  errors : list string }.

Definition initial : t :=
  {| canRead := false; canInsert := false; canUpdate := false;
     canDelete := false; errors := [] |}.

Definition push_error (x : string) (a : t) : t :=
  {| canRead := canRead a; canInsert := canInsert a;
     canUpdate := canUpdate a; canDelete := canDelete a;
     errors := errors a ++ [x] |}.
End TableAccess.

Module RlsReport.
Record t := { authenticated : bool; tables : gmap string TableAccess.t }.

End RlsReport.

(** The rows [testRLSPolicies] inserts. *)
Inductive TestData :=
| TestList (id : string)          (* name 'RLS Test List', items [] *)
| TestEvent (id date : string)    (* name 'RLS Test Event', status
                                     'planning', total_servings 0 *)
| TestRecipe (id : string)        (* name 'RLS Test Recipe', ingredients [],
                                     instructions [] *)
| TestMethod (id : string)        (* name 'RLS Test Method',
                                     instructions [] *)
| TestContainer (id : string).    (* name 'RLS Test Container',
                                     type 'test' *)

(** A row of the select of [cleanupTestData]. *)
Module TestItem.
Record t := { id : option string; name : option string }.
End TestItem.

Inductive Request :=
| Insert (table : string) (testData : TestData)
| UpdateName (table name id : string)
| TestItemsOf (table uid : string)
| DeleteIn (table : string) (ids : list (option string)).

Definition answer (q : Request) : Type :=
  match q with
  | Insert _ _ => unit
  | UpdateName _ _ _ => unit
  | TestItemsOf _ _ => list TestItem.t
  | DeleteIn _ _ => unit
  end.

Class UtilityBackend (R : Type) := {
  respond : forall q : Request, R -> Outcome (answer q) * R;
  latency : Request -> R -> N }.

Definition tablesToTest : list string :=
  ["prep_lists"; "events"; "recipes"; "methods"; "containers"].

Definition msg_cleanup_auth : string :=
  "Authentication required to cleanup test data".



Section WithBackend.
Context {R : Type} `{Backend R} `{UtilityBackend R} `{Calendar}.

(** [await <request>] for the requests of this module. *)
Definition request {S} (q : Request) : Eff.M S R (Reply.t (answer q)) :=
  fun w =>
    let '(o, r') := respond q (remote w) in
    let w' := {| svc := svc w; remote := r'; log := log w;
                 now := now w + Z.of_N (latency q (remote w));
                 env := env w |} in
    match o with
    | Threw e => (Raise e, w')
    | Answered r => (Ok r, w')
    end.

Local Abbreviation L := (Eff.M (Svc * RlsReport.t) R).





(** One iteration of the loop of [cleanupTestData]; it returns the
    number of rows deleted.  [this.currentUser.id] is read again in each
    iteration; of [null] it is a [TypeError]. *)
Definition cleanTable (table : string) : Eff.M Svc R Z :=
  s <- get ;;
  match currentUser s with
  | None => throw (Error msg_no_row)
  | Some u =>
      f <- request (TestItemsOf table (User.id u)) ;;
      match Reply.error f with
      | Some fetchError => ret 0
      | None =>
          match Reply.data f with
          | Some (item :: items) =>
              d <- request (DeleteIn table (TestItem.id <$> item :: items)) ;;
              match Reply.error d with
              | Some deleteError => ret 0
              | None => ret (Z.of_nat (length (item :: items)))
              end
          | _ => ret 0
          end
      end
  end.

(** The loop, with [totalDeleted] as accumulator. *)
Fixpoint cleanTables (tables : list string) (totalDeleted : Z)
  : Eff.M Svc R Z :=
  match tables with
  | [] => ret totalDeleted
  | table :: rest =>
      n <- cleanTable table ;;
      cleanTables rest (totalDeleted + n)
  end.

Definition cleanupTestData : Eff.M Svc R unit :=
  executeWithErrorHandling "cleanupTestData"
    (s <- get ;;
     match currentUser s with
     | None => throw (Error msg_cleanup_auth)
     | Some _ => cleanTables tablesToTest 0 ;;; ret tt
     end).
End WithBackend.
End Maintenance.

(** ** A database that refuses every write and every listing *)

Module FakeMaintenance.
Import Maintenance.

Definition refusal : JsError.t :=
  {| JsError.message := "new row violates row-level security policy";
     JsError.code := Some "42501"; JsError.instanceofError := false |}.

Definition serve (q : Request) : Outcome (answer q) :=
  Answered {| Reply.data := None; Reply.error := Some refusal |}.

#[global] Instance backend : UtilityBackend Fake.Remote :=
  {| respond q r := (serve q, r); latency _ _ := 1%N |}.
End FakeMaintenance.

(** ** What [testRLSPolicies] reports

    The tests of the tables, told from the answers of the database: [rs] is
    the database before, [re] the database after, [seg] what is added to the
    request log and [a] the entry of the report. *)

Module RlsSummary.
Import Eff Ref.
Import Maintenance.TableAccess.



Section WithBackend.
Context {R : Type} `{Backend R} `{Maintenance.UtilityBackend R} `{Calendar}.



End WithBackend.
End RlsSummary.

(** * Verification *)

(** ** Reasoning about effects *)

Module EffFacts.
Import Eff.

Section Steps.
Context {S R : Type}.
Implicit Types (w : World S R).

Lemma bind_ok {A B} (m : M S R A) (k : A -> M S R B) w a w' :
  m w = (Ok a, w') → bind m k w = k a w'.
Proof. intros Hm. unfold bind. by rewrite Hm. Qed.

Lemma bind_raise {A B} (m : M S R A) (k : A -> M S R B) w e w' :
  m w = (Raise e, w') → bind m k w = (Raise e, w').
Proof. intros Hm. unfold bind. by rewrite Hm. Qed.

Lemma try_catch_ok {A} (m : M S R A) h w a w' :
  m w = (Ok a, w') → try_catch m h w = (Ok a, w').
Proof. intros Hm. unfold try_catch. by rewrite Hm. Qed.

Lemma try_catch_raise {A} (m : M S R A) h w e w' :
  m w = (Raise e, w') → try_catch m h w = h e w'.
Proof. intros Hm. unfold try_catch. by rewrite Hm. Qed.

Lemma leave_enter {D} (d : D) w : leave (enter d w) = w.
Proof. by destruct w. Qed.

End Steps.

(** Rules for [respects], one per construct of the effect language. *)
Section Respects.
Context {S R : Type} (phi : World S R -> World S R -> Prop).
Context `{!PreOrder phi}.

Lemma respects_ret {A} (a : A) : respects phi (ret a).
Proof. intros w. simpl. reflexivity. Qed.

Lemma respects_throw {A} e : respects phi (@throw S R A e).
Proof. intros w. simpl. reflexivity. Qed.

Lemma respects_lift_get : respects phi (@get S R).
Proof. intros w. simpl. reflexivity. Qed.

Lemma respects_getEnv : respects phi (@getEnv S R).
Proof. intros w. simpl. reflexivity. Qed.

Lemma respects_dateNow : respects phi (@dateNow S R).
Proof. intros w. simpl. reflexivity. Qed.

Lemma respects_bind {A B} (m : M S R A) (k : A -> M S R B) :
  respects phi m → (∀ a, respects phi (k a)) → respects phi (bind m k).
Proof.
  intros Hm Hk w. unfold bind. specialize (Hm w).
  destruct (m w) as [[a|e] w1]; simpl in *; [|done].
  etrans; [exact Hm|]. apply Hk.
Qed.

Lemma respects_try_catch {A} (m : M S R A) h :
  respects phi m → (∀ e, respects phi (h e)) → respects phi (try_catch m h).
Proof.
  intros Hm Hh w. unfold try_catch. specialize (Hm w).
  destruct (m w) as [[a|e] w1]; simpl in *; [done|].
  etrans; [exact Hm|]. apply Hh.
Qed.

Lemma respects_for_each {A} (xs : list A) body :
  (∀ x, respects phi (body x)) → respects phi (for_each xs body).
Proof.
  intros Hb. induction xs as [|x xs IH]; simpl.
  - apply respects_ret.
  - apply respects_bind; [apply Hb|]. intros _. exact IH.
Qed.

Lemma respects_modify (f : S -> S) :
  (∀ w, phi w {| svc := f (svc w); remote := remote w; log := log w;
                 now := now w; env := env w |}) →
  respects phi (modify f).
Proof. intros Hf w. apply Hf. Qed.

Lemma respects_call `{Backend R} (q : Request) :
  (∀ w o r', respond q (remote w) = (o, r') →
     phi w {| svc := svc w; remote := r';
              log := log w ++ [(q, verdict o)];
              now := (now w + Z.of_N (latency q (remote w)))%Z;
              env := env w |}) →
  respects phi (call q).
Proof.
  intros Hq w. unfold call.
  destruct (respond q (remote w)) as [o r'] eqn:Hr.
  specialize (Hq w o r' Hr). by destruct o.
Qed.
End Respects.

Section Locals.
Context {S D R : Type} (phi : World S R -> World S R -> Prop).

Global Instance lifted_preorder `{!PreOrder phi} : PreOrder (@lifted S D R phi).
Proof.
  split.
  - intros w. unfold lifted. reflexivity.
  - intros a b c. unfold lifted. apply transitivity.
Qed.

Lemma respects_with_local {A} (m : M S R A) :
  respects phi m → respects (lifted phi) (@with_local S R D A m).
Proof.
  intros Hm w. unfold lifted, with_local. specialize (Hm (leave w)).
  destruct (m (leave w)) as [res w1]. simpl in *. by rewrite leave_enter.
Qed.

Lemma respects_update `{!Reflexive phi} (f : D -> D) :
  respects (lifted phi) (@update S R D f).
Proof. intros w. unfold lifted. simpl. reflexivity. Qed.

Lemma respects_read `{!Reflexive phi} : respects (lifted phi) (@read S R D).
Proof. intros w. unfold lifted. reflexivity. Qed.
End Locals.

Section Sends.
Context {S R : Type}.

Global Instance sends_preorder (P : Request -> Prop) : PreOrder (@sends S R P).
Proof.
  split.
  - intros w. exists []. by rewrite app_nil_r.
  - intros a b c (t1 & H1 & F1) (t2 & H2 & F2). exists (t1 ++ t2).
    split; [by rewrite H2, H1, app_assoc|]. by apply Forall_app.
Qed.

Global Instance silent_preorder : PreOrder (@silent S R).
Proof. split; [done|]. intros a b c. unfold silent. congruence. Qed.

Lemma sends_weaken (P Q : Request -> Prop) (w w' : World S R) :
  (∀ q, P q → Q q) → sends P w w' → sends Q w w'.
Proof.
  intros HPQ (tr & Hl & Hf). exists tr. split; [done|].
  eapply Forall_impl; [exact Hf|]. intros x. apply HPQ.
Qed.

Lemma silent_sends (P : Request -> Prop) (w w' : World S R) :
  silent w w' → sends P w w'.
Proof. intros Hs. exists []. by rewrite app_nil_r. Qed.
End Sends.

End EffFacts.

(** ** The insertion-ordered map and [deduplicatePrepLists] *)

Module DedupeFacts.
Import Lock.

Section Assoc.
Context {V : Type}.
Implicit Types (m : list (string * V)) (k : string) (v : V).

Lemma map_get_set_eq k v m : map_get k (map_set k v m) = Some v.
Proof.
  induction m as [|[k' v'] m IH]; simpl.
  - by rewrite String.eqb_refl.
  - destruct (String.eqb_spec k k') as [->|Hne]; simpl.
    + by rewrite String.eqb_refl.
    + destruct (String.eqb_spec k k'); [done|]. exact IH.
Qed.

Lemma map_get_set_ne k k' v m :
  k ≠ k' → map_get k' (map_set k v m) = map_get k' m.
Proof.
  intros Hne. induction m as [|[k0 v0] m IH]; simpl.
  - destruct (String.eqb_spec k' k); [congruence|done].
  - destruct (String.eqb_spec k k0) as [->|Hk]; simpl.
    + destruct (String.eqb_spec k' k0); [congruence|done].
    + destruct (String.eqb_spec k' k0); [done|]. exact IH.
Qed.

Lemma map_get_Some_elem k v m : map_get k m = Some v → (k, v) ∈ m.
Proof.
  induction m as [|[k' v'] m IH]; simpl; [done|].
  destruct (String.eqb_spec k k') as [->|Hne].
  - intros [= ->]. apply list_elem_of_here.
  - intros Hg. apply list_elem_of_further. by apply IH.
Qed.

Lemma map_get_None_keys k m : map_get k m = None ↔ k ∉ m.*1.
Proof.
  induction m as [|[k' v'] m IH]; simpl.
  - split; [intros _; apply not_elem_of_nil|done].
  - destruct (String.eqb_spec k k') as [->|Hne].
    + split; [done|]. intros Hn. exfalso. apply Hn, list_elem_of_here.
    + rewrite IH, not_elem_of_cons. tauto.
Qed.

Lemma elem_map_get k v m : NoDup m.*1 → (k, v) ∈ m → map_get k m = Some v.
Proof.
  induction m as [|[k' v'] m IH]; simpl.
  - intros _ Hin. by apply elem_of_nil in Hin.
  - intros Hnd Hin. apply NoDup_cons in Hnd as [Hnotin Hnd].
    apply elem_of_cons in Hin as [[= -> ->]|Hin].
    + by rewrite String.eqb_refl.
    + destruct (String.eqb_spec k k') as [->|Hne]; [|by apply IH].
      exfalso. apply Hnotin. apply list_elem_of_fmap. by exists (k', v).
Qed.

Lemma map_set_keys k v m :
  (map_set k v m).*1 =
  match map_get k m with Some _ => m.*1 | None => m.*1 ++ [k] end.
Proof.
  induction m as [|[k' v'] m IH]; [done|].
  cbn [map_set map_get].
  destruct (String.eqb_spec k k') as [->|Hne]; [done|].
  rewrite !fmap_cons, IH. by destruct (map_get k m).
Qed.

Lemma map_set_NoDup k v m : NoDup m.*1 → NoDup (map_set k v m).*1.
Proof.
  intros Hnd. rewrite map_set_keys.
  destruct (map_get k m) eqn:Hg; [done|].
  apply NoDup_app. split_and!; [done| |apply NoDup_singleton].
  intros x Hx Hx'. apply list_elem_of_singleton in Hx' as ->.
  by apply map_get_None_keys in Hg.
Qed.
End Assoc.

Local Ltac in_snoc :=
  apply elem_of_app;
  first [ left; assumption | right; apply list_elem_of_singleton; reflexivity ].

Lemma inv_nil : dedupe_inv [] [].
Proof.
  split; [apply NoDup_nil_2|done|]. intros p Hp. by apply elem_of_nil in Hp.
Qed.

Lemma inv_step visited seen x :
  dedupe_inv visited seen → dedupe_inv (visited ++ [x]) (dedupe_step seen x).
Proof.
  intros [Hnd Hs Hc]. unfold dedupe_step.
  destruct (map_get (dedupe_key x) seen) as [existing|] eqn:Hget.
  - destruct (Hs _ _ Hget) as (Hk & Hin & Hmax).
    destruct (Nat.ltb_spec (items_length existing) (items_length x)) as [Hlt|Hge].
    + split.
      * by apply map_set_NoDup.
      * intros k v. destruct (decide (dedupe_key x = k)) as [<-|Hne].
        -- rewrite map_get_set_eq. intros [= <-]. split_and!; [done|in_snoc|].
           intros p Hp Hpk. apply elem_of_app in Hp as [Hp|Hp].
           ++ specialize (Hmax p Hp Hpk). lia.
           ++ apply list_elem_of_singleton in Hp as ->. lia.
        -- rewrite map_get_set_ne by done. intros Hg.
           destruct (Hs _ _ Hg) as (Hk' & Hin' & Hmax').
           split_and!; [done|in_snoc|].
           intros p Hp Hpk. apply elem_of_app in Hp as [Hp|Hp]; [by apply Hmax'|].
           apply list_elem_of_singleton in Hp as ->. congruence.
      * intros p Hp. destruct (decide (dedupe_key x = dedupe_key p)) as [<-|Hne].
        -- rewrite map_get_set_eq. by eexists.
        -- rewrite map_get_set_ne by done.
           apply elem_of_app in Hp as [Hp|Hp]; [by apply Hc|].
           apply list_elem_of_singleton in Hp as ->. done.
    + split; [done| |].
      * intros k v Hg. destruct (Hs _ _ Hg) as (Hk' & Hin' & Hmax').
        split_and!; [done|in_snoc|].
        intros p Hp Hpk. apply elem_of_app in Hp as [Hp|Hp]; [by apply Hmax'|].
        apply list_elem_of_singleton in Hp as ->.
        assert (v = existing) as -> by congruence. done.
      * intros p Hp. apply elem_of_app in Hp as [Hp|Hp]; [by apply Hc|].
        apply list_elem_of_singleton in Hp as ->. by eexists.
  - split.
    + by apply map_set_NoDup.
    + intros k v. destruct (decide (dedupe_key x = k)) as [<-|Hne].
      * rewrite map_get_set_eq. intros [= <-]. split_and!; [done|in_snoc|].
        intros p Hp Hpk. apply elem_of_app in Hp as [Hp|Hp].
        -- destruct (Hc p Hp) as [v Hv]. congruence.
        -- apply list_elem_of_singleton in Hp as ->. lia.
      * rewrite map_get_set_ne by done. intros Hg.
        destruct (Hs _ _ Hg) as (Hk' & Hin' & Hmax').
        split_and!; [done|in_snoc|].
        intros p Hp Hpk. apply elem_of_app in Hp as [Hp|Hp]; [by apply Hmax'|].
        apply list_elem_of_singleton in Hp as ->. congruence.
    + intros p Hp. destruct (decide (dedupe_key x = dedupe_key p)) as [<-|Hne].
      * rewrite map_get_set_eq. by eexists.
      * rewrite map_get_set_ne by done.
        apply elem_of_app in Hp as [Hp|Hp]; [by apply Hc|].
        apply list_elem_of_singleton in Hp as ->. done.
Qed.

Lemma inv_foldl l : ∀ visited seen,
  dedupe_inv visited seen →
  dedupe_inv (visited ++ l) (foldl dedupe_step seen l).
Proof.
  induction l as [|x l IH]; intros visited seen Hinv; simpl.
  - by rewrite app_nil_r.
  - replace (visited ++ x :: l) with ((visited ++ [x]) ++ l)
      by by rewrite <- app_assoc.
    apply IH. by apply inv_step.
Qed.

Lemma inv_dedupe l : dedupe_inv l (foldl dedupe_step [] l).
Proof. apply (inv_foldl l [] []), inv_nil. Qed.

Lemma inv_keys visited seen :
  dedupe_inv visited seen → dedupe_key <$> map_values seen = seen.*1.
Proof.
  intros Hinv. unfold map_values.
  assert (∀ kv, kv ∈ seen → dedupe_key kv.2 = kv.1) as Hall.
  { intros [k v] Hin. simpl.
    by destruct (inv_sound _ _ Hinv k v
                   (elem_map_get k v seen (inv_nodup _ _ Hinv) Hin)). }
  clear Hinv. induction seen as [|[k v] seen IH]; simpl; [done|].
  f_equal.
  - apply (Hall (k, v)), list_elem_of_here.
  - apply IH. intros kv Hkv. apply Hall. by apply list_elem_of_further.
Qed.

Lemma dedupe_keys_NoDup l : NoDup (dedupe_key <$> deduplicatePrepLists l).
Proof.
  unfold deduplicatePrepLists. rewrite (inv_keys l) by apply inv_dedupe.
  apply (inv_nodup _ _ (inv_dedupe l)).
Qed.













End DedupeFacts.

(** ** Loads of the lock/dedupe variant *)

Section LockLoad.
Context {R : Type} `{Backend R} `{Json}.
Import Eff Lock DedupeFacts.


End LockLoad.


(** ** The profile cache of the reference variant *)

Section RefProfile.
Context {R : Type} `{Backend R}.
Import Eff EffFacts Ref.

Lemma ensureUserProfile_total (w : World Svc R) :
  ∃ res, fst (ensureUserProfile w) = Ok res.
Proof.
  unfold ensureUserProfile, bind, get, try_catch, call, modify, ret.
  destruct (currentUser (svc w)) as [u|]; [|by eexists].
  destruct (userProfile (svc w)) as [p|]; [by eexists|].
  destruct (respond (ProfileById (User.id u)) (remote w)) as [[e|[d err]] r1];
    simpl; [by eexists|].
  destruct d as [existing|], err as [e1|]; simpl;
    try (by eexists);
    match goal with
    | |- context [respond ?q ?r] =>
        destruct (respond q r) as [[e2|[d2 [e2|]]] r2]; simpl; by eexists
    end.
Qed.

(** C7: [ensureUserProfile] never raises; it returns [null] without any
    request when there is no current identity; it returns the cached
    profile without any request when one is cached; otherwise it first
    fetches the profile by the identity's id and returns (and caches) a row
    found without error; on a miss it sends one upsert keyed by [id] of
    [{id, email, full_name || null, role: 'user'}] and returns (and caches)
    the created row, or [null] when the upsert returns an error or throws. *)
Theorem C7_ensureUserProfile_contract (w : World Svc R) :
  (∃ res, fst (ensureUserProfile w) = Ok res) ∧
  (currentUser (svc w) = None → ensureUserProfile w = (Ok None, w)) ∧
  (∀ p, is_Some (currentUser (svc w)) → userProfile (svc w) = Some p →
        ensureUserProfile w = (Ok (Some p), w)) ∧
  (∀ u, currentUser (svc w) = Some u → userProfile (svc w) = None →
     ∀ o1 r1, respond (ProfileById (User.id u)) (remote w) = (o1, r1) →
     ∃ res w' rest,
       ensureUserProfile w = (Ok res, w') ∧
       log w' = log w ++ (ProfileById (User.id u), verdict o1) :: rest ∧
       match o1 with
       | Threw _ => res = None ∧ rest = [] ∧ userProfile (svc w') = None
       | Answered {| Reply.data := Some existingProfile; Reply.error := None |} =>
           res = Some existingProfile ∧ rest = [] ∧
           userProfile (svc w') = Some existingProfile
       | Answered _ =>
           ∀ o2 r2,
             respond (ProfileUpsert (newProfile u) on_conflict_id) r1 = (o2, r2) →
             rest = [(ProfileUpsert (newProfile u) on_conflict_id, verdict o2)] ∧
             NewProfile.id (newProfile u) = User.id u ∧
             NewProfile.email (newProfile u) = User.email u ∧
             NewProfile.full_name (newProfile u)
               = JS.or_null (User.full_name u) ∧
             NewProfile.role (newProfile u) = user ∧
             UpsertOptions.onConflict on_conflict_id = Some "id" ∧
             match o2 with
             | Answered {| Reply.data := created; Reply.error := None |} =>
                 res = created ∧ userProfile (svc w') = created
             | _ => res = None ∧ userProfile (svc w') = None
             end
       end).
Proof.
  split_and!.
  - apply ensureUserProfile_total.
  - intros Hu. unfold ensureUserProfile, bind, get. by rewrite Hu.
  - intros p [u Hu] Hp. unfold ensureUserProfile, bind, get. by rewrite Hu, Hp.
  - intros u Hu Hp o1 r1 Hr1.
    unfold ensureUserProfile, bind, get, try_catch, call, modify, ret.
    rewrite Hu, Hp, Hr1.
    destruct o1 as [e|[d err]]; simpl.
    + eexists _, _, []. split_and!; try reflexivity. simpl. exact Hp.
    + destruct d as [existing|], err as [e1|]; simpl.
      * destruct (respond (ProfileUpsert (newProfile u) on_conflict_id) r1)
          as [o2 r2] eqn:Hr2.
        destruct o2 as [e2|[d2 [e2|]]]; simpl;
          eexists _, _, [_]; (split_and!; [reflexivity| by rewrite <- app_assoc |]);
          intros o2' r2' [= <- <-]; simpl; split_and!; done.
      * eexists _, _, []. split_and!; reflexivity.
      * destruct (respond (ProfileUpsert (newProfile u) on_conflict_id) r1)
          as [o2 r2] eqn:Hr2.
        destruct o2 as [e2|[d2 [e2|]]]; simpl;
          eexists _, _, [_]; (split_and!; [reflexivity| by rewrite <- app_assoc |]);
          intros o2' r2' [= <- <-]; simpl; split_and!; done.
      * destruct (respond (ProfileUpsert (newProfile u) on_conflict_id) r1)
          as [o2 r2] eqn:Hr2.
        destruct o2 as [e2|[d2 [e2|]]]; simpl;
          eexists _, _, [_]; (split_and!; [reflexivity| by rewrite <- app_assoc |]);
          intros o2' r2' [= <- <-]; simpl; split_and!; done.
Qed.
End RefProfile.

(** ** The entity mappers of the reference variant *)

Module MapperFacts.
Import Eff Ref.

Lemma trim_tidy o : tidy o → JS.trim_or_null o = o.
Proof.
  destruct o as [s|]; [|done]. intros [Hs Ht].
  unfold JS.trim_or_null, JS.or_null. simpl. by rewrite Ht, Hs.
Qed.

Lemma or_null_filled o : filled o → JS.or_null o = o.
Proof.
  destruct o as [s|]; [|done]. intros Hs. unfold JS.or_null. simpl.
  by rewrite Hs.
Qed.

Lemma number_plain v : plain_number v → JS.number_or_null v = null_if_absent v.
Proof.
  destruct v as [| | |n|]; try done. intros Hn.
  unfold JS.number_or_null. simpl. by rewrite Hn.
Qed.

Lemma count_plain v :
  plain_count v →
  JS.or_zero (JS.number_or_zero v) = zero_if_absent v ∧
  JS.number_or_zero (JS.number_or_zero v) = zero_if_absent v.
Proof.
  destruct v as [| | |n|]; try done. intros [Hnan Hneg].
  destruct n as [[]| | |]; done.
Qed.

Lemma trimmed_name o : tidy o → JS.trim <$> o = o.
Proof. destruct o as [s|]; [|done]. intros [_ Ht]. simpl. by rewrite Ht. Qed.

Lemma accepted_passes id name :
  accepted id name →
  negb (JS.truthy id) || negb (JS.truthy (JS.trim <$> name)) = false.
Proof. intros [-> ->]. done. Qed.
End MapperFacts.

Section RoundTrip.
Import Eff Ref MapperFacts.

(** C1 (as amended): for an entity with non-empty id and a name that is not
    blank, the sanitiser yields a row whose id is the entity's and whose
    name is the entity's name trimmed; and when moreover the name and every
    trimmed optional text (description, yield, notes, image, category,
    video URL) are tidy (no white space at either end, not empty when
    present), the company id and the invoice number are non-empty when
    present, every optional time is, when present, a number other than 0,
    -0 and NaN, and the servings of an event are, when present, a number
    other than -0 and NaN, mapping the stored row back (with the mapping of
    [save] or the one of [load]) gives the entity again, with absent arrays
    read as the empty list, absent times read as null, absent difficulty,
    difficulty level, status and servings read as Medium, Intermediate,
    planning and 0, and with the timestamps the backend assigned. *)
Theorem C1_round_trip (u : User.t) (created updated : option string) :
  (∀ e : PrepList.t, accepted (PrepList.id e) (PrepList.name e) →
     ∃ row, sanitizePrepList (Some u) e = Ok row ∧
       PrepListRow.id row = PrepList.id e ∧
       PrepListRow.name row = JS.trim <$> PrepList.name e ∧
       (tidy (PrepList.name e) → filled (PrepList.company_id e) →
          prepList_of_data (stored_prep_list created updated row)
            = expected_prep_list created updated e ∧
          prepList_of_item (stored_prep_list created updated row)
            = expected_prep_list created updated e)) ∧
  (∀ e : Event.t, accepted (Event.id e) (Event.name e) →
     JS.truthy (Event.date e) = true →
     ∃ row, sanitizeEvent (Some u) e = Ok row ∧
       EventRow.id row = Event.id e ∧
       EventRow.name row = JS.trim <$> Event.name e ∧
       (tidy (Event.name e) → filled (Event.invoiceNumber e) →
        filled (Event.company_id e) → plain_count (Event.totalServings e) →
          event_of_data (stored_event created updated row)
            = expected_event created updated e ∧
          event_of_item (stored_event created updated row)
            = expected_event created updated e)) ∧
  (∀ e : Recipe.t, accepted (Recipe.id e) (Recipe.name e) →
     ∃ row, sanitizeRecipe (Some u) e = Ok row ∧
       RecipeRow.id row = Recipe.id e ∧
       RecipeRow.name row = JS.trim <$> Recipe.name e ∧
       (tidy (Recipe.name e) → tidy (Recipe.description e) →
        tidy (Recipe.yield e) → tidy (Recipe.notes e) →
        tidy (Recipe.image e) → filled (Recipe.company_id e) →
        plain_number (Recipe.prepTime e) → plain_number (Recipe.cookTime e) →
        plain_number (Recipe.totalTime e) →
          recipe_of_data (stored_recipe created updated row)
            = expected_recipe created updated e ∧
          recipe_of_item (stored_recipe created updated row)
            = expected_recipe created updated e)) ∧
  (∀ e : Method.t, accepted (Method.id e) (Method.name e) →
     ∃ row, sanitizeMethod (Some u) e = Ok row ∧
       MethodRow.id row = Method.id e ∧
       MethodRow.name row = JS.trim <$> Method.name e ∧
       (tidy (Method.name e) → tidy (Method.description e) →
        tidy (Method.category e) → tidy (Method.videoUrl e) →
        filled (Method.company_id e) → plain_number (Method.estimatedTime e) →
          method_of_data (stored_method created updated row)
            = expected_method created updated e ∧
          method_of_item (stored_method created updated row)
            = expected_method created updated e)).
Proof.
  split_and!.
  - intros e Hacc. unfold sanitizePrepList.
    rewrite (accepted_passes _ _ Hacc).
    eexists. split_and!; [reflexivity..|].
    intros Hn Hc. unfold prepList_of_data, prepList_of_item, expected_prep_list.
    simpl. rewrite (trimmed_name _ Hn), (or_null_filled _ Hc). done.
  - intros e Hacc Hdate. unfold sanitizeEvent.
    rewrite (accepted_passes _ _ Hacc), Hdate.
    eexists. split_and!; [reflexivity..|].
    intros Hn Hi Hc Hs. unfold event_of_data, event_of_item, expected_event.
    simpl. rewrite (trimmed_name _ Hn), (or_null_filled _ Hi),
      (or_null_filled _ Hc), (proj1 (count_plain _ Hs)),
      (proj2 (count_plain _ Hs)).
    done.
  - intros e Hacc. unfold sanitizeRecipe.
    rewrite (accepted_passes _ _ Hacc).
    eexists. split_and!; [reflexivity..|].
    intros Hn Hd Hy Hno Him Hc Hp Hck Ht.
    unfold recipe_of_data, recipe_of_item, expected_recipe. simpl.
    rewrite (trimmed_name _ Hn), (trim_tidy _ Hd), (trim_tidy _ Hy),
      (trim_tidy _ Hno), (trim_tidy _ Him), (or_null_filled _ Hc),
      (number_plain _ Hp), (number_plain _ Hck), (number_plain _ Ht).
    done.
  - intros e Hacc. unfold sanitizeMethod.
    rewrite (accepted_passes _ _ Hacc).
    eexists. split_and!; [reflexivity..|].
    intros Hn Hd Hca Hv Hc Ht.
    unfold method_of_data, method_of_item, expected_method. simpl.
    rewrite (trimmed_name _ Hn), (trim_tidy _ Hd), (trim_tidy _ Hca),
      (trim_tidy _ Hv), (or_null_filled _ Hc), (number_plain _ Ht).
    done.
Qed.
End RoundTrip.

(** A recipe with tidy texts and non-zero times comes back as it was, its
    absent tags read as the empty list. *)
Lemma C1_witness_recipe :
  ∃ row, Ref.sanitizeRecipe (Some Fake.chef) Sample.roast = Eff.Ok row ∧
    Ref.recipe_of_item (Ref.stored_recipe (Some "t0") (Some "t1") row)
      = Ref.expected_recipe (Some "t0") (Some "t1") Sample.roast ∧
    Recipe.tags (Ref.expected_recipe (Some "t0") (Some "t1") Sample.roast)
      = Some [].
Proof.
  destruct (proj1 (proj2 (proj2 (C1_round_trip Fake.chef (Some "t0") (Some "t1"))))
              Sample.roast)
    as (row & Hrow & _ & _ & Hback).
  - split; reflexivity.
  - exists row. split; [exact Hrow|]. split; [|reflexivity].
    apply Hback; first [exact I | split; reflexivity | reflexivity].
Defined.

(** The claim as stated fails on names with surrounding white space and on
    times and servings that are zero, not a number, or a numeric text: the
    prep list of the specification's own scenario comes back renamed, a
    recipe with [prepTime: 0] comes back with no preparation time, a
    preparation time [NaN] comes back as null and a cooking time ['45'] as
    the number 45, and the event of the specification's scenario, with
    servings ['50'], is stored and comes back with the number 50. *)
Lemma C1_counterexample_trim_and_zero :
  Ref.accepted (PrepList.id Sample.dinner_prep) (PrepList.name Sample.dinner_prep) ∧
  (∃ row, Ref.sanitizePrepList (Some Fake.chef) Sample.dinner_prep = Eff.Ok row ∧
     PrepList.name (Ref.prepList_of_data row) = Some "Dinner Prep" ∧
     PrepList.name (Ref.prepList_of_data row) ≠ PrepList.name Sample.dinner_prep) ∧
  Ref.accepted (Recipe.id Sample.stock) (Recipe.name Sample.stock) ∧
  (∃ row, Ref.sanitizeRecipe (Some Fake.chef) Sample.stock = Eff.Ok row ∧
     Recipe.prepTime Sample.stock = JS.Num (JS.int 0) ∧
     Recipe.prepTime (Ref.recipe_of_data row) = JS.Null ∧
     Recipe.prepTime (Ref.recipe_of_item row) = JS.Null) ∧
  Ref.accepted (Recipe.id Sample.guess) (Recipe.name Sample.guess) ∧
  (∃ row, Ref.sanitizeRecipe (Some Fake.chef) Sample.guess = Eff.Ok row ∧
     Recipe.prepTime Sample.guess = JS.Num JS.NaN ∧
     Recipe.prepTime (Ref.recipe_of_data row) = JS.Null ∧
     Recipe.cookTime Sample.guess = JS.Str "45" ∧
     Recipe.cookTime (Ref.recipe_of_data row) = JS.Num (JS.int 45)) ∧
  Ref.accepted (Event.id Sample.gala) (Event.name Sample.gala) ∧
  (∃ row, Ref.sanitizeEvent (Some Fake.chef) Sample.gala = Eff.Ok row ∧
     Event.totalServings Sample.gala = JS.Str "50" ∧
     EventRow.total_servings row = JS.Num (JS.int 50) ∧
     Event.totalServings (Ref.event_of_data row) = JS.Num (JS.int 50) ∧
     Event.totalServings (Ref.event_of_item row) = JS.Num (JS.int 50)).
Proof.
  split_and!.
  - split; reflexivity.
  - eexists. split; [reflexivity|]. split; [reflexivity|discriminate].
  - split; reflexivity.
  - eexists. split; [reflexivity|]. split_and!; reflexivity.
  - split; reflexivity.
  - eexists. split; [reflexivity|]. split_and!; vm_compute; reflexivity.
  - split; reflexivity.
  - eexists. split; [reflexivity|]. split_and!; vm_compute; reflexivity.
Qed.

(** ** [String.prototype.trim] *)

Module TrimFacts.
Import JS.

Lemma trimStart_starts_clean s : starts_clean (trimStart s).
Proof.
  induction s as [|c r IH]; simpl; [done|].
  destruct (is_ws c) eqn:Hc; [exact IH|]. simpl. exact Hc.
Qed.

Lemma trimStart_fixed s : starts_clean s → trimStart s = s.
Proof. destruct s as [|c r]; simpl; [done|]. by intros ->. Qed.

Lemma trimEnd_starts_clean s : starts_clean s → starts_clean (trimEnd s).
Proof.
  destruct s as [|c r]; simpl; [done|]. intros Hc.
  destruct (trimEnd r); simpl; [by rewrite Hc|done].
Qed.

Lemma trimEnd_idem s : trimEnd (trimEnd s) = trimEnd s.
Proof.
  induction s as [|c r IH]; simpl; [done|].
  destruct (trimEnd r) as [|c' r'] eqn:Hr.
  - destruct (is_ws c) eqn:Hc; simpl; [done|]. by rewrite Hc.
  - simpl in IH. simpl.
    destruct (trimEnd r') as [|c'' r''] eqn:Hr'.
    + destruct (is_ws c') eqn:Hc'; [discriminate IH|].
      injection IH as ->. done.
    + by rewrite IH.
Qed.

Lemma trim_idem s : trim (trim s) = trim s.
Proof.
  unfold trim.
  rewrite (trimStart_fixed (trimEnd (trimStart s))).
  - apply trimEnd_idem.
  - apply trimEnd_starts_clean, trimStart_starts_clean.
Qed.
End TrimFacts.

(** ** The save and load pipeline of the reference variant *)

Module RefFacts.
Import Eff EffFacts Ref.

Section WithBackend.
Context {R : Type} `{Backend R}.
Implicit Types (w : World Svc R).

Lemma reclassify_raises {A} e w :
  ∃ e', @reclassify R A e w = (Raise e', w).
Proof.
  unfold reclassify, throw.
  repeat match goal with |- context [if ?c then _ else _] => destruct c end;
    by eexists.
Qed.

(** An [Error] raised by the service itself passes through the [catch]
    block unchanged when its message mentions neither RLS nor JWT. *)
Lemma reclassify_local {A} msg w :
  JS.includes "RLS" msg = false → JS.includes "JWT" msg = false →
  @reclassify R A (Error msg) w = (Raise (Error msg), w).
Proof. intros Hrls Hjwt. unfold reclassify. simpl. by rewrite Hrls, Hjwt. Qed.

Lemma execute_preflight_raise {A} op (fn : M Svc R A) w e w1 :
  preflight w = (Raise e, w1) →
  executeWithErrorHandling op fn w = reclassify e w1.
Proof.
  intros Hp. unfold executeWithErrorHandling.
  apply try_catch_raise. by apply bind_raise.
Qed.

Lemma execute_fn_raise {A} op (fn : M Svc R A) w w1 e w2 :
  preflight w = (Ok tt, w1) → fn w1 = (Raise e, w2) →
  executeWithErrorHandling op fn w = reclassify e w2.
Proof.
  intros Hp Hf. unfold executeWithErrorHandling.
  apply try_catch_raise. by rewrite (bind_ok _ _ _ _ _ Hp).
Qed.

End WithBackend.

Lemma sanitizePrepList_error cu x e :
  sanitizePrepList cu x = Raise e → sanitizer_error e.
Proof.
  unfold sanitizePrepList.
  destruct (_ || _); [|destruct cu]; intros [= <-]; by eexists.
Qed.

Lemma sanitizeEvent_error cu x e :
  sanitizeEvent cu x = Raise e → sanitizer_error e.
Proof.
  unfold sanitizeEvent.
  destruct (_ || _); [|destruct cu]; intros [= <-]; by eexists.
Qed.

Lemma sanitizeRecipe_error cu x e :
  sanitizeRecipe cu x = Raise e → sanitizer_error e.
Proof.
  unfold sanitizeRecipe.
  destruct (_ || _); [|destruct cu]; intros [= <-]; by eexists.
Qed.

Lemma sanitizeMethod_error cu x e :
  sanitizeMethod cu x = Raise e → sanitizer_error e.
Proof.
  unfold sanitizeMethod.
  destruct (_ || _); [|destruct cu]; intros [= <-]; by eexists.
Qed.

Lemma rejected_fails id name :
  rejected id name →
  negb (JS.truthy id) || negb (JS.truthy (JS.trim <$> name)) = true.
Proof. intros [-> | ->]; [done|]. by rewrite orb_true_r. Qed.

End RefFacts.

(** ** What each method sends *)

Module TraceFacts.
Import Eff EffFacts.

Section Sends.
Context {S R : Type} `{Backend R} (P : Request -> Prop).

Lemma sends_modify (f : S -> S) : respects (sends P) (@modify S R f).
Proof. apply respects_modify. intros w. by apply silent_sends. Qed.

Lemma sends_call (q : Request) : P q → respects (sends P) (@call S R _ q).
Proof.
  intros Hq. apply respects_call. intros w o r' _.
  exists [(q, verdict o)]. split; [done|]. by apply Forall_singleton.
Qed.

Lemma sends_lift {A} (r : Res A) : respects (sends P) (@Ref.lift R A r).
Proof. intros w. reflexivity. Qed.

Lemma sends_update {D} (f : D -> D) :
  respects (sends P) (@update S R D f).
Proof. intros w. by apply silent_sends. Qed.

Lemma sends_read {D} : respects (sends P) (@read S R D).
Proof. intros w. by apply silent_sends. Qed.

End Sends.

(** Decompose a goal [respects (sends P) m] along the structure of [m];
    what is left are the requests, to be checked against [P]. *)
Ltac sends_tac :=
  repeat first
    [ apply respects_ret
    | apply respects_throw
    | apply respects_lift_get
    | apply respects_getEnv
    | apply respects_dateNow
    | apply sends_modify
    | apply sends_update
    | apply sends_read
    | apply sends_lift
    | apply respects_bind
    | apply respects_try_catch
    | apply respects_for_each
    | apply sends_call; simpl; try exact I
    | assumption
    | lazymatch goal with
      | |- PreOrder _ => apply _
      | |- forall _, _ => intro
      end
    | match goal with
      | |- respects _ (match ?x with _ => _ end) => destruct x
      | |- respects _ (if ?x then _ else _) => destruct x
      | |- respects _ (let '(_, _) := ?x in _) => destruct x
      end ].

Section Ref.
Context {R : Type} `{Backend R}.
Import Ref.

Lemma initialize_sends : respects (sends is_preflight_request) initialize.
Proof. unfold initialize. sends_tac. Qed.

Lemma ensureUserProfile_sends :
  respects (sends (fun q => match q with
                            | ProfileById _ | ProfileUpsert _ _ => True
                            | _ => False
                            end)) ensureUserProfile.
Proof. unfold ensureUserProfile. sends_tac. Qed.

Lemma testConnection_sends : respects (sends is_preflight_request) testConnection.
Proof.
  pose proof initialize_sends.
  unfold testConnection, _performConnectionTest. sends_tac.
Qed.

Lemma preflight_sends : respects (sends is_preflight_request) preflight.
Proof.
  pose proof testConnection_sends.
  assert (respects (sends is_preflight_request) ensureUserProfile).
  { intros w. eapply sends_weaken; [|apply ensureUserProfile_sends].
    by intros []. }
  unfold preflight. sends_tac.
Qed.
End Ref.
End TraceFacts.

Section RefPipeline.
Context {R : Type} `{Backend R}.
Import Eff EffFacts Ref RefFacts TraceFacts.
Implicit Types (w : World Svc R).

Local Ltac save_order_tac san_error :=
  intros x w; destruct (preflight w) as [[[]|e] w1] eqn:Hp;
  [ match goal with
    | |- match ?s with _ => _ end =>
        destruct s as [row|e] eqn:Hs;
        [ unfold executeWithErrorHandling, try_catch, bind;
          rewrite Hp; simpl; rewrite Hs; simpl; unfold call;
          match goal with
          | |- context [respond ?q ?r] =>
              destruct (respond q r) as [[e|[[d|] [err|]]] r2]; simpl
          end;
          repeat match goal with
          | |- context [@reclassify ?R' ?A ?e ?w] =>
              destruct (@reclassify_raises R' A e w) as [e' ->]
          end;
          by eexists _, _, _
        | erewrite execute_fn_raise; [|exact Hp|by rewrite bind_ok with (a := svc w1) (w' := w1); [rewrite Hs|]];
          destruct (san_error _ _ _ Hs) as (msg & -> & Hrls & Hjwt);
          by apply reclassify_local ]
    end
  | erewrite execute_preflight_raise by exact Hp;
    match goal with
    | |- context [@reclassify ?R' ?A ?e ?w] =>
        destruct (@reclassify_raises R' A e w) as [e' ->]
    end; by eexists ].

Lemma savePrepList_order :
  save_order sanitizePrepList (fun row => PrepListUpsert row upsert_by_id)
             savePrepList.
Proof. unfold savePrepList. save_order_tac sanitizePrepList_error. Qed.

Lemma saveEvent_order :
  save_order sanitizeEvent (fun row => EventUpsert row upsert_by_id) saveEvent.
Proof. unfold saveEvent. save_order_tac sanitizeEvent_error. Qed.

Lemma saveRecipe_order :
  save_order sanitizeRecipe (fun row => RecipeUpsert row upsert_by_id) saveRecipe.
Proof. unfold saveRecipe. save_order_tac sanitizeRecipe_error. Qed.

Lemma saveMethod_order :
  save_order sanitizeMethod (fun row => MethodUpsert row on_conflict_id) saveMethod.
Proof. unfold saveMethod. save_order_tac sanitizeMethod_error. Qed.


Lemma persistable_sanitized id name :
  negb (JS.truthy id) || negb (JS.truthy (JS.trim <$> name)) = false →
  persistable id (JS.trim <$> name).
Proof.
  intros Hc. apply orb_false_elim in Hc as [Hi Hn].
  apply negb_false_iff in Hi, Hn. split_and!; [done..|].
  destruct name as [s|]; [|done]. simpl. by rewrite TrimFacts.trim_idem.
Qed.

Lemma sanitizePrepList_persistable cu x row :
  sanitizePrepList cu x = Ok row →
  persistable (PrepListRow.id row) (PrepListRow.name row).
Proof.
  unfold sanitizePrepList. destruct (_ || _) eqn:Hc; [done|].
  destruct cu; [|done]. intros [= <-]. by apply persistable_sanitized.
Qed.

Lemma sanitizeEvent_persistable cu x row :
  sanitizeEvent cu x = Ok row →
  persistable (EventRow.id row) (EventRow.name row).
Proof.
  unfold sanitizeEvent. destruct (_ || _ || _) eqn:Hc; [done|].
  destruct cu; [|done]. intros [= <-].
  apply orb_false_elim in Hc as [Hc _]. by apply persistable_sanitized.
Qed.

Lemma sanitizeRecipe_persistable cu x row :
  sanitizeRecipe cu x = Ok row →
  persistable (RecipeRow.id row) (RecipeRow.name row).
Proof.
  unfold sanitizeRecipe. destruct (_ || _) eqn:Hc; [done|].
  destruct cu; [|done]. intros [= <-]. by apply persistable_sanitized.
Qed.

Lemma sanitizeMethod_persistable cu x row :
  sanitizeMethod cu x = Ok row →
  persistable (MethodRow.id row) (MethodRow.name row).
Proof.
  unfold sanitizeMethod. destruct (_ || _) eqn:Hc; [done|].
  destruct cu; [|done]. intros [= <-]. by apply persistable_sanitized.
Qed.

Lemma save_order_turns_away {X Row E} (idf namef : X -> option string) msg
    (san : option User.t -> X -> Res Row) upsert (save : X -> M Svc R E) :
  save_order san upsert save →
  (∀ x cu, rejected (idf x) (namef x) → san cu x = Raise (Error msg)) →
  turns_away idf namef msg san save.
Proof.
  intros Hord Hrej x Hx. split; [intros cu; by apply Hrej|].
  intros w. specialize (Hord x w).
  destruct (preflight w) as [[[]|e] w1]; simpl.
  - rewrite (Hrej x _ Hx) in Hord. by eexists.
  - destruct Hord as [e' He']. exists e'. by split.
Qed.

Lemma save_order_writes_persistable {X Row E} (rid rname : Row -> option string)
    upserted (san : option User.t -> X -> Res Row) upsert
    (save : X -> M Svc R E) :
  save_order san upsert save →
  (∀ cu x row, san cu x = Ok row → persistable (rid row) (rname row)) →
  (∀ row, upserted (upsert row) = Some row) →
  (∀ q, is_preflight_request q → upserted q = None) →
  writes_persistable rid rname upserted save.
Proof.
  intros Hord Hsan Hup Hpre x w tr Htr q v row Hin Hq.
  specialize (Hord x w). destruct (preflight_sends w) as (tr1 & Hl1 & Hf1).
  destruct (preflight w) as [r1 w1]. simpl in Hl1.
  assert (∀ q' v', (q', v') ∈ tr1 → upserted q' = None) as Hnone.
  { intros q' v' Hin'. apply Hpre.
    by apply (proj1 (Forall_forall _ _) Hf1 (q', v')). }
  destruct r1 as [[]|e].
  - destruct (san (currentUser (svc w1)) x) as [row'|e] eqn:Hs.
    + destruct Hord as (res & w2 & v' & Hsave & Hl2).
      rewrite Hsave in Htr. simpl in Htr.
      rewrite Hl2, Hl1, <- app_assoc in Htr. apply app_inv_head in Htr.
      subst tr. apply elem_of_app in Hin as [Hin|Hin].
      * rewrite (Hnone _ _ Hin) in Hq. done.
      * apply list_elem_of_singleton in Hin as [= -> ->].
        rewrite Hup in Hq. injection Hq as <-. by eapply Hsan.
    + rewrite Hord in Htr. simpl in Htr. rewrite Hl1 in Htr.
      apply app_inv_head in Htr. subst tr.
      rewrite (Hnone _ _ Hin) in Hq. done.
  - destruct Hord as [e' He']. rewrite He' in Htr. simpl in Htr.
    rewrite Hl1 in Htr. apply app_inv_head in Htr. subst tr.
    rewrite (Hnone _ _ Hin) in Hq. done.
Qed.

(** C4 (as amended): in the reference variant every save turns away an
    entity without id, or whose name is missing, empty or blank: the
    sanitiser raises the validation error whoever the caller is, and the
    save raises and leaves the world as the pre-flight left it, so no row
    of the entity is sent; the error of the save is the validation error
    when the pre-flight passed.  Every row a save of the reference
    variant sends is fit to be persisted: non-empty id, non-empty trimmed
    name.  The lock/dedupe variant tests the name as it is given: after a
    passed connection test the operation of its [savePrepList] raises its
    validation error, with nothing sent, when id or name is missing or
    empty, and otherwise, a blank name included, sends the upsert of the
    row with the name as given. *)
Theorem C4_invalid_entities_are_turned_away :
  turns_away PrepList.id PrepList.name msg_preplist_invalid
             sanitizePrepList savePrepList ∧
  turns_away Event.id Event.name msg_event_invalid sanitizeEvent saveEvent ∧
  turns_away Recipe.id Recipe.name msg_recipe_invalid sanitizeRecipe saveRecipe ∧
  turns_away Method.id Method.name msg_method_invalid sanitizeMethod saveMethod ∧
  writes_persistable PrepListRow.id PrepListRow.name upserted_prep_list
                     savePrepList ∧
  writes_persistable EventRow.id EventRow.name upserted_event saveEvent ∧
  writes_persistable RecipeRow.id RecipeRow.name upserted_recipe saveRecipe ∧
  writes_persistable MethodRow.id MethodRow.name upserted_method saveMethod ∧
  (∀ key p (v v1 : World Lock.Svc R),
     Lock.testConnection v = (Ok true, v1) →
     JS.truthy (PrepList.id p) && JS.truthy (PrepList.name p) = false →
     Lock.persistPrepList key p v
       = (Raise (Error Lock.msg_preplist_invalid), v1)) ∧
  (∀ key p (v v1 : World Lock.Svc R) o r2,
     Lock.testConnection v = (Ok true, v1) →
     JS.truthy (PrepList.id p) && JS.truthy (PrepList.name p) = true →
     respond (PrepListUpsert (Lock.prepList_row p) Lock.no_options) (remote v1)
       = (o, r2) →
     PrepListRow.name (Lock.prepList_row p) = PrepList.name p ∧
     ∃ rest,
       log (snd (Lock.persistPrepList key p v))
         = log v1 ++ (PrepListUpsert (Lock.prepList_row p) Lock.no_options,
                      verdict o) :: rest).
Proof.
  split_and!.
  - eapply save_order_turns_away; [apply savePrepList_order|].
    intros x cu Hr. unfold sanitizePrepList. by rewrite (rejected_fails _ _ Hr).
  - eapply save_order_turns_away; [apply saveEvent_order|].
    intros x cu Hr. unfold sanitizeEvent. by rewrite (rejected_fails _ _ Hr).
  - eapply save_order_turns_away; [apply saveRecipe_order|].
    intros x cu Hr. unfold sanitizeRecipe. by rewrite (rejected_fails _ _ Hr).
  - eapply save_order_turns_away; [apply saveMethod_order|].
    intros x cu Hr. unfold sanitizeMethod. by rewrite (rejected_fails _ _ Hr).
  - eapply save_order_writes_persistable;
      [apply savePrepList_order|apply sanitizePrepList_persistable|done|].
    by intros [].
  - eapply save_order_writes_persistable;
      [apply saveEvent_order|apply sanitizeEvent_persistable|done|].
    by intros [].
  - eapply save_order_writes_persistable;
      [apply saveRecipe_order|apply sanitizeRecipe_persistable|done|].
    by intros [].
  - eapply save_order_writes_persistable;
      [apply saveMethod_order|apply sanitizeMethod_persistable|done|].
    by intros [].
  - intros key p v v1 Hc Hv.
    unfold Lock.persistPrepList, try_catch, bind. rewrite Hc. simpl.
    rewrite <- negb_andb, Hv. reflexivity.
  - intros key p v v1 o r2 Hc Hv Hr. split; [reflexivity|].
    unfold Lock.persistPrepList, try_catch. rewrite (bind_ok _ _ _ _ _ Hc).
    simpl. rewrite <- negb_andb, Hv. simpl. unfold bind at 1. unfold call at 1.
    rewrite Hr.
    destruct o as [e|[d [err|]]]; simpl.
    + by exists [].
    + destruct (bool_decide (JsError.code err = Some "23505")); simpl.
      * unfold bind, call.
        match goal with
        | |- context [respond ?q ?r] =>
            destruct (respond q r) as [[e2|[[d2|] err2]] r3]; simpl
        end;
        eexists [_]; by rewrite <- app_assoc.
      * by exists [].
    + destruct d as [data|]; simpl; by exists [].
Qed.

(** *** Loads *)

Local Ltac load_tac Hp Hr :=
  unfold executeWithErrorHandling, try_catch, bind; rewrite Hp; simpl;
  unfold call; rewrite Hr; reflexivity.

(** C6 (as amended): in the reference variant, when the pre-flight passes
    and the backend answers the select without error, every load returns
    the images, in order, of exactly the rows that have a non-empty id and
    a non-empty name; so no rows give the empty sequence and not a
    failure.  In the lock/dedupe variant, when the connection test passes,
    [loadRecipes] returns the rows as received and [loadEvents] maps every
    row, without a filter. *)
Theorem C6_loads_filter_invalid_rows (w w1 : World Svc R) :
  preflight w = (Ok tt, w1) →
  (∀ data r2,
     respond PrepListsAll (remote w1)
       = (Answered {| Reply.data := data; Reply.error := None |}, r2) →
     fst (loadPrepLists w) =
       Ok (prepList_of_item <$>
             filter (fun item => JS.truthy (PrepListRow.id item)
                                 && JS.truthy (PrepListRow.name item))
                    (default [] data))) ∧
  (∀ data r2,
     respond EventsAll (remote w1)
       = (Answered {| Reply.data := data; Reply.error := None |}, r2) →
     fst (loadEvents w) =
       Ok (event_of_item <$>
             filter (fun item => JS.truthy (EventRow.id item)
                                 && JS.truthy (EventRow.name item))
                    (default [] data))) ∧
  (∀ data r2,
     respond RecipesAll (remote w1)
       = (Answered {| Reply.data := data; Reply.error := None |}, r2) →
     fst (loadRecipes w) =
       Ok (recipe_of_item <$>
             filter (fun item => JS.truthy (RecipeRow.id item)
                                 && JS.truthy (RecipeRow.name item))
                    (default [] data))) ∧
  (∀ data r2,
     respond MethodsAll (remote w1)
       = (Answered {| Reply.data := data; Reply.error := None |}, r2) →
     fst (loadMethods w) =
       Ok (method_of_item <$>
             filter (fun item => JS.truthy (MethodRow.id item)
                                 && JS.truthy (MethodRow.name item))
                    (default [] data))) ∧
  (∀ r2,
     respond PrepListsAll (remote w1)
       = (Answered {| Reply.data := Some []; Reply.error := None |}, r2) →
     fst (loadPrepLists w) = Ok []) ∧
  (∀ (v v1 : World Lock.Svc R) data r2,
     Lock.testConnection v = (Ok true, v1) →
     respond RecipesAll (remote v1)
       = (Answered {| Reply.data := data; Reply.error := None |}, r2) →
     fst (Lock.loadRecipes v) = Ok (default [] data)) ∧
  (∀ (v v1 : World Lock.Svc R) data r2,
     Lock.testConnection v = (Ok true, v1) →
     respond EventsAll (remote v1)
       = (Answered {| Reply.data := data; Reply.error := None |}, r2) →
     fst (Lock.loadEvents v) = Ok (Lock.event_of_row <$> default [] data)).
Proof.
  intros Hp. split_and!.
  - intros data r2 Hr. unfold loadPrepLists. load_tac Hp Hr.
  - intros data r2 Hr. unfold loadEvents. load_tac Hp Hr.
  - intros data r2 Hr. unfold loadRecipes. load_tac Hp Hr.
  - intros data r2 Hr. unfold loadMethods. load_tac Hp Hr.
  - intros r2 Hr. unfold loadPrepLists. load_tac Hp Hr.
  - intros v v1 data r2 Hc Hr. unfold Lock.loadRecipes, bind.
    rewrite Hc. simpl. unfold call. by rewrite Hr.
  - intros v v1 data r2 Hc Hr. unfold Lock.loadEvents, try_catch, bind.
    rewrite Hc. simpl. unfold call. by rewrite Hr.
Qed.
End RefPipeline.

(** A prep list with a blank name is turned away by the reference variant,
    whether the name is made of spaces or of a no-break space. *)
Lemma C4_witness_blank_name :
  (∃ e, Ref.savePrepList Sample.blank_name Sample.ref_world
        = (Eff.Raise e, snd (Ref.preflight Sample.ref_world)) ∧
        e = Error Ref.msg_preplist_invalid) ∧
  (∃ e, Ref.savePrepList Sample.nbsp_name Sample.ref_world
        = (Eff.Raise e, snd (Ref.preflight Sample.ref_world)) ∧
        e = Error Ref.msg_preplist_invalid).
Proof.
  split.
  - destruct (proj1 C4_invalid_entities_are_turned_away Sample.blank_name)
      as [_ Hsave].
    + right. reflexivity.
    + destruct (Hsave Sample.ref_world) as (e & He & Hmsg).
      exists e. split; [exact He|]. apply Hmsg. vm_compute. reflexivity.
  - destruct (proj1 C4_invalid_entities_are_turned_away Sample.nbsp_name)
      as [_ Hsave].
    + right. vm_compute. reflexivity.
    + destruct (Hsave Sample.ref_world) as (e & He & Hmsg).
      exists e. split; [exact He|]. apply Hmsg. vm_compute. reflexivity.
Defined.

(** The lock/dedupe variant checks the name without trimming it: a prep list
    whose name is three spaces is sent to the table and stored. *)
Lemma C4_counterexample_lock_variant_blank_name :
  Ref.rejected (PrepList.id Sample.blank_name) (PrepList.name Sample.blank_name) ∧
  ∃ saved w',
    Lock.savePrepList Sample.blank_name (Sample.lock_world [])
      = (Eff.Ok (Lock.Done saved), w') ∧
    fst <$> Eff.log w'
      = [SelectLimit1 "prep_lists" "count";
         PrepListUpsert (Lock.prepList_row Sample.blank_name) Lock.no_options] ∧
    PrepListRow.name (Lock.prepList_row Sample.blank_name) = Some "   " ∧
    PrepListRow.name <$> Fake.prep_lists (Eff.remote w') = [Some "   "].
Proof.
  split; [right; reflexivity|].
  eexists _, _. split; [vm_compute; reflexivity|].
  split_and!; reflexivity.
Qed.



(** Of a valid row and a row without a name, the load returns the first. *)
Lemma C6_witness_mixed_rows :
  fst (Ref.loadPrepLists (Sample.ref_world_with Sample.mixed_rows))
    = Eff.Ok [Ref.prepList_of_item (Sample.prep_list_row "1" "Lunch" None [Sample.onions])].
Proof.
  set (w := Sample.ref_world_with Sample.mixed_rows).
  assert (Ref.preflight w = (Eff.Ok tt, snd (Ref.preflight w))) as Hp
    by (vm_compute; reflexivity).
  destruct (C6_loads_filter_invalid_rows w _ Hp) as (Hload & _).
  rewrite (Hload (Some Sample.mixed_rows) (Eff.remote (snd (Ref.preflight w)))).
  - reflexivity.
  - vm_compute. reflexivity.
Defined.

(** The claim as stated fails on the lock/dedupe variant: its [loadRecipes]
    returns the rows as they come, a row without a name included. *)
Lemma C6_counterexample_lock_loadRecipes :
  RecipeRow.name Sample.nameless_recipe = None ∧
  fst (Lock.loadRecipes Sample.nameless_world) = Eff.Ok [Sample.nameless_recipe].
Proof. split; [reflexivity|]. vm_compute. reflexivity. Qed.

(** With an identity and no cached profile, a miss at the backend makes
    [ensureUserProfile] create the profile and return the created row. *)
Lemma C7_witness_profile_created :
  ∃ w', Ref.ensureUserProfile
          (Fake.world (Ref.set_currentUser (Some Fake.chef) Fake.ref_fresh)
                      Fake.signed_in Fake.configured)
        = (Eff.Ok (Some (Fake.stored_profile (Ref.newProfile Fake.chef))), w').
Proof.
  set (w := Fake.world (Ref.set_currentUser (Some Fake.chef) Fake.ref_fresh)
                       Fake.signed_in Fake.configured).
  destruct (proj2 (proj2 (proj2
              (@C7_ensureUserProfile_contract Fake.Remote Fake.backend w)))
              Fake.chef eq_refl eq_refl
              (Fake.failed (Fake.pgError "PGRST116" "no rows returned"))
              Fake.signed_in ltac:(vm_compute; reflexivity))
    as (res & w' & rest & Hrun & _ & Hcase).
  unfold Fake.failed in Hcase. cbv beta iota in Hcase.
  edestruct Hcase as (_ & _ & _ & _ & _ & _ & Hres); [reflexivity|].
  simpl in Hres. destruct Hres as [Hres _].
  exists w'. rewrite Hrun, Hres. reflexivity.
Defined.

(** ** Connection diagnosis *)

Module DiagnosisFacts.
Import Eff EffFacts Ref TraceFacts.

Section WithBackend.
Context {R : Type} `{Backend R}.
Implicit Types (w : World Svc R).

Global Instance diagnosis_frame_preorder : PreOrder (@diagnosis_frame R).
Proof.
  split.
  - intros w. unfold diagnosis_frame. split_and!; first [done | reflexivity].
  - intros a b c (Hi1 & Hu1 & He1 & Hp1 & Hn1 & Hs1)
                 (Hi2 & Hu2 & He2 & Hp2 & Hn2 & Hs2).
    unfold diagnosis_frame. split_and!.
    + congruence.
    + congruence.
    + congruence.
    + intros p Hp. by apply Hp2, Hp1.
    + intros Hn. rewrite Hn2; [by apply Hn1|congruence].
    + etrans; [exact Hs1|]. eapply sends_weaken; [|exact Hs2].
      intros q [Hq|(u & Hu & Hp & ->)]; [by left|right].
      exists u. split_and!; [congruence| |done].
      destruct (userProfile (svc a)) as [p|] eqn:Hpa; [|done].
      rewrite (Hp1 p eq_refl) in Hp. done.
Qed.

Lemma frame_sends_only w w' :
  isInitialized (svc w') = isInitialized (svc w) →
  currentUser (svc w') = currentUser (svc w) →
  userProfile (svc w') = userProfile (svc w) →
  env w' = env w →
  sends (fun q => is_write q = false) w w' →
  diagnosis_frame w w'.
Proof.
  intros Hi Hu Hp He Hs. unfold diagnosis_frame. split_and!; try done.
  - intros p. by rewrite Hp.
  - eapply sends_weaken; [|exact Hs]. intros q Hq. by left.
Qed.

Lemma ensureUserProfile_frame : respects diagnosis_frame ensureUserProfile.
Proof.
  intros w. unfold ensureUserProfile, bind, get, try_catch, call, modify, ret.
  destruct (currentUser (svc w)) as [u|] eqn:Hu; [|simpl; reflexivity].
  destruct (userProfile (svc w)) as [p|] eqn:Hp; [simpl; reflexivity|].
  destruct (respond (ProfileById (User.id u)) (remote w)) as [o1 r1].
  assert (∀ w', isInitialized (svc w') = isInitialized (svc w) →
                currentUser (svc w') = currentUser (svc w) →
                env w' = env w →
                (∃ tr, log w' = log w ++ tr ∧
                   Forall (fun x => fst x = ProfileById (User.id u) ∨
                                    fst x = ProfileUpsert (newProfile u) on_conflict_id) tr) →
                diagnosis_frame w w') as Hframe.
  { intros w' Hi Hc He (tr & Hl & Hf). unfold diagnosis_frame.
    split_and!; try done.
    - intros p. by rewrite Hp.
    - by rewrite Hu.
    - exists tr. split; [done|]. eapply Forall_impl; [exact Hf|].
      intros [q v] [Hq|Hq]; simpl in *; subst q; [by left|right].
      by exists u. }
  destruct o1 as [e|[[existing|] [err|]]]; simpl;
    try match goal with
    | |- context [respond ?q ?r] =>
        destruct (respond q r) as [[e2|[d2 [e2|]]] r2]; simpl
    end;
    apply Hframe; simpl; try done;
    rewrite <- ?app_assoc; eexists; (split; [reflexivity|]);
    simpl; repeat (apply Forall_cons; split; [simpl; auto|]);
    apply Forall_nil_2.
Qed.

Lemma frame_read_call (q : Request) :
  is_write q = false →
  respects (lifted diagnosis_frame) (@call (Svc * Diagnosis.t) R _ q).
Proof.
  intros Hq. apply respects_call. intros w o r' _. unfold lifted. simpl.
  apply frame_sends_only; simpl; try done.
  exists [(q, verdict o)]. split; [done|]. by apply Forall_singleton.
Qed.

Local Ltac frame_tac :=
  repeat first
    [ apply respects_ret
    | apply respects_throw
    | apply respects_getEnv
    | apply respects_update
    | apply respects_read
    | apply respects_bind
    | apply respects_try_catch
    | apply respects_for_each
    | apply respects_with_local; apply ensureUserProfile_frame
    | apply frame_read_call; reflexivity
    | progress unfold probeTable, checkRls, checkAuthentication
    | lazymatch goal with
      | |- PreOrder _ => apply _
      | |- Reflexive _ => apply _
      | |- forall _, _ => intro
      end
    | match goal with
      | |- respects _ (match ?x with _ => _ end) => destruct x
      | |- respects _ (if ?x then _ else _) => destruct x
      | |- respects _ (let '(_, _) := ?x in _) => destruct x
      end ].

Lemma diagnose_body_frame : respects (lifted diagnosis_frame) diagnose_body.
Proof. unfold diagnose_body. frame_tac. Qed.

(** The guarded block of [diagnoseConnection] never raises. *)
Lemma guarded_total (m : M (Svc * Diagnosis.t) R unit)
    (f : JsError.t -> Diagnosis.t -> Diagnosis.t)
    (v : World (Svc * Diagnosis.t) R) :
  ∃ v1 : World (Svc * Diagnosis.t) R,
    try_catch m (fun error => update (f error)) v = (Ok tt, v1).
Proof.
  unfold try_catch. destruct (m v) as [[[]|e] v1]; simpl; by eexists.
Qed.

Lemma diagnoseConnection_run w :
  ∃ v1 : World (Svc * Diagnosis.t) R,
    try_catch diagnose_body
      (fun error =>
         update (Diagnosis.push_error (diagnosis_failed_message error)))
      (enter Diagnosis.initial w) = (Ok tt, v1) ∧
    diagnoseConnection w
    = (Ok (snd (svc v1)),
       {| svc := set_connectionPromise None (fst (svc v1));
          remote := remote v1; log := log v1; now := now v1;
          env := env v1 |}).
Proof.
  destruct (guarded_total diagnose_body
              (fun error => Diagnosis.push_error (diagnosis_failed_message error))
              (enter Diagnosis.initial w)) as [v1 Hv1].
  exists v1. split; [exact Hv1|].
  unfold diagnoseConnection, with_var, bind. rewrite Hv1. done.
Qed.
End WithBackend.
End DiagnosisFacts.

Section DiagnosisFrame.
Context {R : Type} `{Backend R}.
Import Eff EffFacts Ref TraceFacts DiagnosisFacts.

(** C9 (as amended): [diagnoseConnection] leaves the initialisation flag,
    the identity, the configuration and a cached profile as they were, and
    always resets the connection memo to [null].  It sends only reads,
    except that with an identity and no cached profile it may create the
    profile of that identity (one upsert keyed by id) and caches what
    [ensureUserProfile] returned; with no identity or with a cached
    profile it sends reads only and the profile cache is unchanged; with a
    secret missing it sends nothing at all. *)
Theorem C9_diagnoseConnection_frame (w : World Svc R) :
  diagnosis_frame w (snd (diagnoseConnection w)) ∧
  connectionPromise (svc (snd (diagnoseConnection w))) = None ∧
  (currentUser (svc w) = None ∨ is_Some (userProfile (svc w)) →
     userProfile (svc (snd (diagnoseConnection w))) = userProfile (svc w) ∧
     sends (fun q => is_write q = false) w (snd (diagnoseConnection w))) ∧
  (JS.nonempty (Env.VITE_SUPABASE_URL (env w))
     && JS.nonempty (Env.VITE_SUPABASE_ANON_KEY (env w)) = false →
     silent w (snd (diagnoseConnection w)) ∧
     remote (snd (diagnoseConnection w)) = remote w ∧
     svc (snd (diagnoseConnection w)) = set_connectionPromise None (svc w)).
Proof.
  destruct (diagnoseConnection_run w) as (w1 & Hbody & Hrun).
  assert (diagnosis_frame w (snd (diagnoseConnection w))) as Hframe.
  { rewrite Hrun. simpl.
    assert (lifted diagnosis_frame (enter Diagnosis.initial w) w1) as Hl.
    { pose proof (respects_try_catch (lifted diagnosis_frame) diagnose_body
                    (fun error =>
                       update (Diagnosis.push_error (diagnosis_failed_message error)))
                    diagnose_body_frame
                    (fun e => respects_update diagnosis_frame _)
                    (enter Diagnosis.initial w)) as Hr.
      by rewrite Hbody in Hr. }
    unfold lifted in Hl. rewrite leave_enter in Hl.
    transitivity (leave w1); [exact Hl|].
    apply frame_sends_only; simpl; try done. by apply silent_sends. }
  split_and!.
  - exact Hframe.
  - rewrite Hrun. done.
  - intros Hcase.
    destruct Hframe as (_ & _ & _ & Hp & Hn & Hs). split.
    + destruct Hcase as [Hu|[p Hp']]; [by apply Hn|].
      rewrite Hp'. by apply Hp.
    + eapply sends_weaken; [|exact Hs].
      intros q [Hq|(u & Hu & Hpn & _)]; [done|].
      destruct Hcase as [Hc|[p Hp']]; congruence.
  - intros Hcfg. rewrite Hrun. simpl.
    unfold try_catch, diagnose_body, bind, getEnv in Hbody. simpl in Hbody.
    rewrite Hcfg in Hbody.
    destruct (negb (JS.nonempty (Env.VITE_SUPABASE_URL (env w))));
      destruct (negb (JS.nonempty (Env.VITE_SUPABASE_ANON_KEY (env w))));
      simpl in Hbody; injection Hbody as <-; done.
Qed.
End DiagnosisFrame.

(** The claim as stated fails: the diagnosis resets the connection memo,
    fills the profile cache and creates a row of [user_profiles]. *)
Lemma C9_counterexample_state_and_rows_change :
  let w := Sample.signed_in_world in
  let w' := snd (Ref.diagnoseConnection w) in
  Ref.connectionPromise (Eff.svc w) = Some true ∧
  Ref.connectionPromise (Eff.svc w') = None ∧
  Ref.userProfile (Eff.svc w) = None ∧
  Ref.userProfile (Eff.svc w')
    = Some (Fake.stored_profile (Ref.newProfile Fake.chef)) ∧
  Fake.user_profiles (Eff.remote w) !! "u1" = None ∧
  Fake.user_profiles (Eff.remote w') !! "u1"
    = Some (Fake.stored_profile (Ref.newProfile Fake.chef)).
Proof. split_and!; vm_compute; reflexivity. Qed.

(** With a cached profile the diagnosis sends reads only. *)
Lemma C9_witness_cached_profile :
  let w := Fake.world
             (Ref.set_userProfile
                (Some (Fake.stored_profile (Ref.newProfile Fake.chef)))
                (Eff.svc Sample.signed_in_world))
             Fake.signed_in Fake.configured in
  Ref.userProfile (Eff.svc (snd (Ref.diagnoseConnection w)))
    = Some (Fake.stored_profile (Ref.newProfile Fake.chef)) ∧
  Eff.sends (fun q => is_write q = false) w (snd (Ref.diagnoseConnection w)).
Proof.
  intros w.
  apply (proj1 (proj2 (proj2 (@C9_diagnoseConnection_frame Fake.Remote Fake.backend w)))).
  right. by eexists.
Defined.

(** ** The error list of the diagnosis *)

Module ReportFacts.
Import Eff EffFacts Ref TraceFacts DiagnosisFacts.

Section WithBackend.
Context {R : Type} `{Backend R}.
Implicit Types (v : World (Svc * Diagnosis.t) R).

Global Instance reported_preorder a : PreOrder (@reported R a).
Proof.
  split.
  - intros v Ha. split_and!; [done..|]. exists []. by rewrite !app_nil_r.
  - intros x y z Hxy Hyz Ha.
    destruct (Hxy Ha) as (Ha1 & Hc1 & t1 & Hl1 & He1).
    destruct (Hyz Ha1) as (Ha2 & Hc2 & t2 & Hl2 & He2).
    split_and!; [done|congruence|]. exists (t1 ++ t2). split.
    + by rewrite Hl2, Hl1, app_assoc.
    + by rewrite He2, He1, flat_map_app, app_assoc.
Qed.

Lemma probeTable_reported a table : respects (reported a) (probeTable table).
Proof.
  intros v Ha. unfold probeTable, try_catch, bind, call, read, update.
  destruct (respond (SelectLimit1 table "id") (remote v))
    as [[e|[d [err|]]] r2]; simpl.
  - split_and!; [done..|]. by eexists [_].
  - destruct (code_is "42501" err || JS.includes "RLS" (JsError.message err))
      eqn:Hrls; simpl.
    + split_and!; [done..|]. eexists [_]. split; [done|]. simpl.
      by rewrite Hrls, Ha.
    + split_and!; [done..|]. eexists [_]. split; [done|]. simpl.
      by rewrite Hrls.
  - split_and!; [done..|]. eexists [_]. split; [done|]. simpl.
    by rewrite app_nil_r.
Qed.

Lemma probeTable_total table : total (probeTable table).
Proof.
  intros v. unfold probeTable, try_catch, bind, call, read, update.
  destruct (respond (SelectLimit1 table "id") (remote v))
    as [[e|[d [err|]]] r2]; simpl; [by eexists| |by eexists].
  destruct (code_is "42501" err || JS.includes "RLS" (JsError.message err));
    by eexists.
Qed.

Lemma checkRls_reported a q : respects (reported a) (checkRls q).
Proof.
  intros v Ha. destruct q as [table schema].
  unfold checkRls, try_catch, bind, call, update.
  destruct (respond (PgClass table) (remote v)) as [[e|c] r2]; simpl.
  - split_and!; [done..|]. eexists [_]. split; [done|]. simpl.
    by rewrite app_nil_r.
  - destruct (respond (PgPolicies schema table) r2) as [[e|p] r3]; simpl;
      (split_and!; [done..|]); eexists [_; _];
      (split; [by rewrite <- app_assoc|]); simpl; by rewrite app_nil_r.
Qed.

Lemma checkRls_total q : total (checkRls q).
Proof.
  intros v. destruct q as [table schema].
  unfold checkRls, try_catch, bind, call, update.
  destruct (respond (PgClass table) (remote v)) as [[e|c] r2]; simpl;
    [by eexists|].
  destruct (respond (PgPolicies schema table) r2) as [[e|p] r3]; simpl;
    by eexists.
Qed.

Lemma for_each_total {A} (xs : list A) (body : A -> M (Svc * Diagnosis.t) R unit) :
  (∀ x, total (body x)) → total (for_each xs body).
Proof.
  intros Hb. induction xs as [|x xs IH]; intros v; simpl; [by eexists|].
  unfold bind. destruct (Hb x v) as [[] Hx].
  destruct (body x v) as [r1 v1]. simpl in Hx. subst r1. apply IH.
Qed.

Lemma profile_entries a tr :
  Forall (fun x : Request * Verdict =>
            match fst x with
            | ProfileById _ | ProfileUpsert _ _ => True
            | _ => False
            end) tr →
  flat_map (report_entry a) tr = [].
Proof.
  induction 1 as [|[q vd] tr Hq _ IH]; [done|]. simpl in *. rewrite IH.
  by destruct q.
Qed.

Lemma ensureUserProfile_reported a :
  respects (reported a) (@with_local Svc R Diagnosis.t _ ensureUserProfile).
Proof.
  intros v Ha. unfold with_local.
  destruct (ensureUserProfile_sends (leave v)) as (tr & Hl & Hf).
  destruct (ensureUserProfile (leave v)) as [res w1]. simpl in *.
  split_and!; [done..|]. exists tr. split; [done|].
  by rewrite (profile_entries a tr Hf), app_nil_r.
Qed.

Lemma ensureUserProfile_local_total :
  total (@with_local Svc R Diagnosis.t _ ensureUserProfile).
Proof.
  intros v. unfold with_local.
  destruct (ensureUserProfile_total (leave v)) as [res Hres].
  destruct (ensureUserProfile (leave v)) as [r1 w1]. simpl in *.
  subst r1. by eexists.
Qed.

(** The two loops of the diagnosis. *)
Lemma loops_run a v :
  Diagnosis.authenticated (snd (svc v)) = a →
  ∃ (v1 : World (Svc * Diagnosis.t) R) tr,
    bind (for_each tablesToTest probeTable)
         (fun _ => for_each rlsQueries checkRls) v = (Ok tt, v1) ∧
    log v1 = log v ++ tr ∧
    Diagnosis.errors (snd (svc v1))
      = Diagnosis.errors (snd (svc v)) ++ flat_map (report_entry a) tr ∧
    Diagnosis.authenticated (snd (svc v1)) = a ∧
    Diagnosis.configured (snd (svc v1)) = Diagnosis.configured (snd (svc v)).
Proof.
  intros Ha.
  assert (total (bind (for_each tablesToTest probeTable)
                      (fun _ => for_each rlsQueries checkRls))) as Htot.
  { intros v0. unfold bind.
    destruct (for_each_total tablesToTest probeTable probeTable_total v0)
      as [[] H1].
    destruct (for_each tablesToTest probeTable v0) as [r1 v1].
    simpl in H1. subst r1. apply for_each_total, checkRls_total. }
  assert (respects (reported a)
            (bind (for_each tablesToTest probeTable)
                  (fun _ => for_each rlsQueries checkRls))) as Hrep.
  { apply respects_bind; try apply _.
    - apply respects_for_each; try apply _.
      intros t. apply probeTable_reported.
    - intros _. apply respects_for_each; try apply _.
      intros q. apply checkRls_reported. }
  destruct (Htot v) as [[] Hok]. specialize (Hrep v Ha).
  destruct (bind _ _ v) as [r1 v1]. simpl in *. subst r1.
  destruct Hrep as (Ha1 & Hc1 & tr & Hl & He).
  by exists v1, tr.
Qed.

(** The authentication check: it raises only when the session fetch
    throws, and then the report is untouched. *)
Lemma checkAuthentication_run v :
  match checkAuthentication v with
  | (Ok _, v1) =>
      ∃ tr, log v1 = log v ++ tr ∧
        Diagnosis.errors (snd (svc v1))
          = Diagnosis.errors (snd (svc v))
            ++ flat_map (report_entry (Diagnosis.authenticated (snd (svc v1)))) tr ∧
        Diagnosis.configured (snd (svc v1)) = Diagnosis.configured (snd (svc v))
  | (Raise e, v1) =>
      log v1 = log v ++ [(GetSession, Thrown e)] ∧ snd (svc v1) = snd (svc v)
  end.
Proof.
  unfold checkAuthentication, bind, call at 1.
  destruct (respond GetSession (remote v)) as [[e|[d [err|]]] r2]; simpl.
  - done.
  - eexists [_]. split_and!; [done| |done]. done.
  - destruct d as [session|]; simpl.
    + match goal with
      | |- context [with_local ensureUserProfile ?v0] =>
          destruct (ensureUserProfile_local_total v0) as [p Hp];
          pose proof (ensureUserProfile_reported true v0 eq_refl) as Hrep;
          destruct (with_local ensureUserProfile v0) as [r1 v1]
      end.
      simpl in Hp. subst r1. simpl in *.
      destruct Hrep as (Ha1 & Hc1 & tr & Hl & He).
      exists ((GetSession, Succeeded) :: tr). rewrite Ha1. split_and!.
      * rewrite Hl. by rewrite <- app_assoc.
      * done.
      * done.
    + eexists [_]. split_and!; [done| |done]. simpl. by rewrite app_nil_r.
Qed.

Lemma diagnose_body_unconfigured v :
  JS.nonempty (Env.VITE_SUPABASE_URL (env v))
    && JS.nonempty (Env.VITE_SUPABASE_ANON_KEY (env v)) = false →
  ∃ d, diagnose_body v
       = (Ok tt, {| svc := (fst (svc v), d); remote := remote v;
                    log := log v; now := now v; env := env v |}) ∧
       d = Diagnosis.set_configured false
             {| Diagnosis.configured := Diagnosis.configured (snd (svc v));
                Diagnosis.accessible := Diagnosis.accessible (snd (svc v));
                Diagnosis.authenticated := Diagnosis.authenticated (snd (svc v));
                Diagnosis.tables := Diagnosis.tables (snd (svc v));
                Diagnosis.errors :=
                  Diagnosis.errors (snd (svc v)) ++ config_errors (env v);
                Diagnosis.user := Diagnosis.user (snd (svc v));
                Diagnosis.userProfile := Diagnosis.userProfile (snd (svc v));
                Diagnosis.rlsStatus := Diagnosis.rlsStatus (snd (svc v)) |}.
Proof.
  intros Hcfg. unfold diagnose_body, bind, getEnv, update, config_errors.
  simpl. rewrite Hcfg.
  destruct (JS.nonempty (Env.VITE_SUPABASE_URL (env v)));
    destruct (JS.nonempty (Env.VITE_SUPABASE_ANON_KEY (env v)));
    try discriminate Hcfg; simpl; eexists; (split; [reflexivity|]);
    unfold Diagnosis.set_configured, Diagnosis.push_error; simpl;
    rewrite <- ?app_assoc, ?app_nil_r; reflexivity.
Qed.

Lemma diagnose_body_configured v :
  JS.nonempty (Env.VITE_SUPABASE_URL (env v))
    && JS.nonempty (Env.VITE_SUPABASE_ANON_KEY (env v)) = true →
  config_errors (env v) = [] ∧
  diagnose_body v
  = bind checkAuthentication
      (fun _ => bind (for_each tablesToTest probeTable)
                     (fun _ => for_each rlsQueries checkRls))
      {| svc := (fst (svc v), Diagnosis.set_configured true (snd (svc v)));
         remote := remote v; log := log v; now := now v; env := env v |}.
Proof.
  intros Hcfg. apply andb_true_iff in Hcfg as [Hu Hk].
  unfold diagnose_body, config_errors. unfold bind at 1 2 3 4.
  unfold getEnv, update. simpl. rewrite Hu, Hk. done.
Qed.
End WithBackend.
End ReportFacts.

Section DiagnosisReport.
Context {R : Type} `{Backend R}.
Import Eff EffFacts Ref TraceFacts DiagnosisFacts ReportFacts.

(** C8 (as amended): [diagnoseConnection] never raises and always returns
    a report.  Its [errors] list is exactly: one entry per missing secret,
    then, in the order of the requests it sent, one entry for a session
    fetch that returned an error or threw, and one entry for every table
    probe that returned an error or threw; the look-ups of row-level
    security and of policies, and the fetch or creation of the profile, add
    nothing to [errors] when they fail.  [configured] is the conjunction
    of the two secrets; when one is missing nothing is sent and the report
    is the initial one with the configuration entries; when both are
    missing these are exactly two. *)
Theorem C8_diagnoseConnection_report (w : World Svc R) :
  (∃ d w' tr,
     diagnoseConnection w = (Ok d, w') ∧
     log w' = log w ++ tr ∧
     Diagnosis.configured d
       = JS.nonempty (Env.VITE_SUPABASE_URL (env w))
         && JS.nonempty (Env.VITE_SUPABASE_ANON_KEY (env w)) ∧
     Diagnosis.errors d
       = config_errors (env w)
         ++ flat_map (report_entry (Diagnosis.authenticated d)) tr ∧
     (Diagnosis.configured d = false →
        tr = [] ∧
        d = {| Diagnosis.configured := false; Diagnosis.accessible := false;
               Diagnosis.authenticated := false; Diagnosis.tables := [];
               Diagnosis.errors := config_errors (env w);
               Diagnosis.user := None; Diagnosis.userProfile := None;
               Diagnosis.rlsStatus := ∅ |}) ∧
     (JS.nonempty (Env.VITE_SUPABASE_URL (env w)) = false →
      JS.nonempty (Env.VITE_SUPABASE_ANON_KEY (env w)) = false →
        Diagnosis.configured d = false ∧ Diagnosis.accessible d = false ∧
        Diagnosis.errors d = [msg_no_url; msg_no_key])) ∧
  (∀ a relname vd, report_entry a (PgClass relname, vd) = []) ∧
  (∀ a schema table vd, report_entry a (PgPolicies schema table, vd) = []) ∧
  (∀ a uid vd, report_entry a (ProfileById uid, vd) = []) ∧
  (∀ a p o vd, report_entry a (ProfileUpsert p o, vd) = []).
Proof.
  split; [|by split_and!].
  destruct (diagnoseConnection_run w) as (v1 & Hbody & Hrun).
  destruct (JS.nonempty (Env.VITE_SUPABASE_URL (env w))
            && JS.nonempty (Env.VITE_SUPABASE_ANON_KEY (env w))) eqn:Hcfg.
  - destruct (diagnose_body_configured (enter Diagnosis.initial w) Hcfg)
      as [Hce Hb].
    simpl in Hce. unfold try_catch in Hbody. rewrite Hb in Hbody.
    unfold bind at 1 in Hbody.
    match type of Hbody with
    | context [checkAuthentication ?v0] =>
        pose proof (checkAuthentication_run v0) as Hauth;
        destruct (checkAuthentication v0) as [[[]|e] va]
    end.
    + destruct Hauth as (tr1 & Hl1 & He1 & Hc1).
      destruct (loops_run (Diagnosis.authenticated (snd (svc va))) va eq_refl)
        as (vb & tr2 & Hloops & Hl2 & He2 & Ha2 & Hc2).
      rewrite Hloops in Hbody. injection Hbody as <-.
      eexists _, _, (tr1 ++ tr2). split; [exact Hrun|]. simpl in *.
      split_and!.
      * by rewrite Hl2, Hl1, app_assoc.
      * by rewrite Hc2, Hc1.
      * rewrite Hce, He2, He1, Ha2, flat_map_app. done.
      * rewrite Hc2, Hc1. done.
      * intros Hu. apply andb_true_iff in Hcfg as [Hu' _]. congruence.
    + destruct Hauth as [Hl1 Hd1]. simpl in Hbody. injection Hbody as <-.
      eexists _, _, [_]. split; [exact Hrun|]. simpl in *.
      rewrite Hd1. simpl. split_and!.
      * exact Hl1.
      * done.
      * by rewrite Hce.
      * done.
      * intros Hu. apply andb_true_iff in Hcfg as [Hu' _]. congruence.
  - destruct (diagnose_body_unconfigured (enter Diagnosis.initial w) Hcfg)
      as (d & Hb & Hd).
    unfold try_catch in Hbody. rewrite Hb in Hbody. injection Hbody as <-.
    eexists _, _, []. split; [exact Hrun|]. simpl in *. subst d. simpl.
    split_and!.
    + by rewrite app_nil_r.
    + done.
    + by rewrite app_nil_r.
    + done.
    + intros Hu Hk. unfold config_errors. by rewrite Hu, Hk.
Qed.
End DiagnosisReport.

(** With both secrets missing the report is the initial one with two
    entries in [errors]. *)
Lemma C8_witness_missing_secrets :
  ∃ d, fst (Ref.diagnoseConnection Sample.unconfigured_world) = Eff.Ok d ∧
       Ref.Diagnosis.configured d = false ∧
       Ref.Diagnosis.accessible d = false ∧
       Ref.Diagnosis.errors d = [Ref.msg_no_url; Ref.msg_no_key].
Proof.
  destruct (proj1 (@C8_diagnoseConnection_report Fake.Remote Fake.backend
                     Sample.unconfigured_world))
    as (d & w' & tr & Hrun & _ & _ & _ & _ & Hboth).
  exists d. rewrite Hrun. split; [reflexivity|].
  destruct Hboth as (Hc & Ha & He); [reflexivity..|]. by split_and!.
Defined.

(** The claim as stated fails: every look-up of [pg_class] throws, yet the
    error list of the report stays empty; the failures show only in
    [rlsStatus]. *)
Lemma C8_counterexample_rls_failure_unreported :
  let w' := snd (Ref.diagnoseConnection Sample.rls_unreadable_world) in
  (PgClass "prep_lists", Thrown (Error "permission denied for pg_class"))
    ∈ Eff.log w' ∧
  ∃ d, fst (Ref.diagnoseConnection Sample.rls_unreadable_world) = Eff.Ok d ∧
       Ref.Diagnosis.errors d = [] ∧
       Ref.Diagnosis.rlsStatus d !! "prep_lists" = Some Ref.unable_to_check.
Proof.
  split.
  - vm_compute. do 8 apply list_elem_of_further. apply list_elem_of_here.
  - eexists. split; [vm_compute; reflexivity|]. split; vm_compute; reflexivity.
Qed.

(** ** In-flight de-duplication *)

Module PoolFacts.
Import Pool.

Section WithOp.
Context {Op O : Type}.
Implicit Types (s : Pool.t Op O) (k : string) (p : nat).

Lemma consistent_empty : consistent (@Pool.empty Op O).
Proof.
  split_and!; simpl.
  - intros k p Hk. by rewrite lookup_empty in Hk.
  - intros p k f Hp. by rewrite lookup_empty in Hp.
  - intros p [x Hp]. by rewrite lookup_empty in Hp.
Qed.

Lemma executeWithLock_joined s k f p :
  operationLocks s !! k = Some p → executeWithLock k f s = (p, s).
Proof. intros Hk. unfold executeWithLock. by rewrite Hk. Qed.

Lemma executeWithLock_started s k f :
  operationLocks s !! k = None →
  executeWithLock k f s =
    (issued s,
     {| operationLocks := <[k := issued s]> (operationLocks s);
        inflight := <[issued s := (k, f)]> (inflight s);
        settled := settled s;
        invoked := invoked s ++ [(k, f)];
        issued := S (issued s) |}).
Proof. intros Hk. unfold executeWithLock. by rewrite Hk. Qed.

Lemma issued_fresh s : consistent s → inflight s !! issued s = None.
Proof.
  intros (_ & _ & Hlt). destruct (inflight s !! issued s) eqn:Hi; [|done].
  assert (issued s < issued s)%nat by (apply Hlt; by eexists). lia.
Qed.

Lemma consistent_call s k f :
  consistent s → consistent (snd (executeWithLock k f s)).
Proof.
  intros Hc. pose proof (issued_fresh s Hc) as Hfresh.
  destruct Hc as (Hlk & Hin & Hlt).
  destruct (operationLocks s !! k) as [p|] eqn:Hk.
  - rewrite (executeWithLock_joined s k f p Hk). by split_and!.
  - rewrite (executeWithLock_started s k f Hk). simpl. split_and!; simpl.
    + intros k' p'. destruct (decide (k = k')) as [<-|Hne].
      * rewrite lookup_insert_eq. intros [= <-].
        exists f. by rewrite lookup_insert_eq.
      * rewrite lookup_insert_ne by done. intros Hk'.
        destruct (Hlk _ _ Hk') as [f' Hf']. exists f'.
        rewrite lookup_insert_ne; [done|]. intros <-. congruence.
    + intros p' k' f'. destruct (decide (issued s = p')) as [<-|Hne].
      * rewrite lookup_insert_eq. intros [= <- <-].
        by rewrite lookup_insert_eq.
      * rewrite lookup_insert_ne by done. intros Hp'.
        pose proof (Hin _ _ _ Hp') as Hk'.
        rewrite lookup_insert_ne; [done|]. intros <-. congruence.
    + intros p'. destruct (decide (issued s = p')) as [<-|Hne]; [lia|].
      rewrite lookup_insert_ne by done. intros Hp'.
      specialize (Hlt _ Hp'). lia.
Qed.

Lemma consistent_settle s p o : consistent s → consistent (settle p o s).
Proof.
  intros (Hlk & Hin & Hlt). unfold settle.
  destruct (inflight s !! p) as [[k f]|] eqn:Hp; [|by split_and!].
  split_and!; simpl.
  - intros k' p'. destruct (decide (k = k')) as [<-|Hne].
    + by rewrite lookup_delete_eq.
    + rewrite lookup_delete_ne by done. intros Hk'.
      destruct (Hlk _ _ Hk') as [f' Hf']. exists f'.
      rewrite lookup_delete_ne; [done|]. intros <-. congruence.
  - intros p' k' f'. destruct (decide (p = p')) as [<-|Hne].
    + by rewrite lookup_delete_eq.
    + rewrite lookup_delete_ne by done. intros Hp'.
      pose proof (Hin _ _ _ Hp') as Hk'.
      rewrite lookup_delete_ne; [done|]. intros <-.
      pose proof (Hin _ _ _ Hp). congruence.
  - intros p'. destruct (decide (p = p')) as [<-|Hne].
    + rewrite lookup_delete_eq. by intros [x Hx].
    + rewrite lookup_delete_ne by done. apply Hlt.
Qed.

Lemma consistent_step s e : consistent s → consistent (step e s).
Proof.
  destruct e as [k f|p o]; simpl;
    [apply consistent_call|apply consistent_settle].
Qed.

Lemma consistent_run es : ∀ s, consistent s → consistent (run es s).
Proof.
  induction es as [|e es IH]; intros s Hs; simpl; [done|].
  apply IH. by apply consistent_step.
Qed.

(** At most one operation is in flight per key. *)
Lemma consistent_one_per_key s k p1 p2 f1 f2 :
  consistent s →
  inflight s !! p1 = Some (k, f1) → inflight s !! p2 = Some (k, f2) →
  p1 = p2.
Proof.
  intros (_ & Hin & _) H1 H2.
  pose proof (Hin _ _ _ H1). pose proof (Hin _ _ _ H2). congruence.
Qed.

Lemma single_flight_start s k f :
  consistent s → operationLocks s !! k = None →
  single_flight s k f (issued s) (snd (executeWithLock k f s)).
Proof.
  intros Hc Hk. split_and!.
  - by apply consistent_call.
  - rewrite (executeWithLock_started s k f Hk). simpl.
    by rewrite lookup_insert_eq.
  - rewrite (executeWithLock_started s k f Hk). simpl.
    by rewrite lookup_insert_eq.
  - rewrite (executeWithLock_started s k f Hk). simpl. by exists [].
Qed.

(** A step that does not settle [p] keeps the operation in flight and
    starts nothing else under its key. *)
Lemma single_flight_step s0 k f p s e :
  single_flight s0 k f p s → settles p e = false →
  single_flight s0 k f p (step e s).
Proof.
  intros (Hc & Hk & Hp & rest & Hinv & Hrest) He.
  split; [by apply consistent_step|].
  destruct e as [k' f'|q o]; simpl in *.
  - destruct (operationLocks s !! k') as [p'|] eqn:Hk'.
    + rewrite (executeWithLock_joined s k' f' p' Hk'). by eauto.
    + rewrite (executeWithLock_started s k' f' Hk'). simpl.
      assert (k' ≠ k) as Hne by congruence.
      split_and!.
      * by rewrite lookup_insert_ne.
      * rewrite lookup_insert_ne; [done|]. intros Heq.
        pose proof (issued_fresh s Hc). congruence.
      * exists (rest ++ [(k', f')]). split.
        -- by rewrite Hinv, <- app_assoc.
        -- apply Forall_app. split; [done|]. by apply Forall_singleton.
  - apply Nat.eqb_neq in He. unfold settle.
    destruct (inflight s !! q) as [[k'' f'']|] eqn:Hq; simpl; [|by eauto].
    assert (k'' ≠ k) as Hne.
    { intros ->. destruct Hc as (_ & Hin & _).
      pose proof (Hin _ _ _ Hq). congruence. }
    split_and!.
    + by rewrite lookup_delete_ne.
    + by rewrite lookup_delete_ne.
    + by eauto.
Qed.

Lemma single_flight_run s0 k f p es : ∀ s,
  single_flight s0 k f p s →
  forallb (fun e => negb (settles p e)) es = true →
  single_flight s0 k f p (run es s).
Proof.
  induction es as [|e es IH]; intros s Hs Hes; simpl in *; [done|].
  apply andb_true_iff in Hes as [He Hes]. apply negb_true_iff in He.
  apply IH; [|done]. by apply single_flight_step.
Qed.

Lemma settle_releases s k f p o :
  consistent s → inflight s !! p = Some (k, f) →
  operationLocks (settle p o s) !! k = None ∧
  inflight (settle p o s) !! p = None ∧
  settled (settle p o s) !! p = Some o.
Proof.
  intros Hc Hp. unfold settle. rewrite Hp. simpl.
  by rewrite !lookup_delete_eq, lookup_insert_eq.
Qed.
End WithOp.
End PoolFacts.

Section SingleFlight.
Context {Op O : Type}.
Import Pool PoolFacts.

(** C2: in any table the service can reach, once [executeWithLock(k, f)]
    has started [f] under a free key [k] and returned the promise [p], and
    as long as [p] has not settled, whatever else is called or settles, a
    call [executeWithLock(k, g)] returns that same promise [p], leaves the
    table as it is and does not start [g]: since the first call [f] was
    started exactly once under [k] and nothing else was; at most one
    operation is in flight for [k]; and when [p] settles, with whatever
    outcome, the entry of [k] is removed from the lock table. *)
Theorem C2_executeWithLock_single_flight
    (history es : list (Pool.event Op O)) (k : string) (f g : Op) :
  let s := run history Pool.empty in
  operationLocks s !! k = None →
  let p := fst (executeWithLock k f s) in
  let s1 := snd (executeWithLock k f s) in
  forallb (fun e => negb (settles p e)) es = true →
  let s2 := run es s1 in
  executeWithLock k g s2 = (p, s2) ∧
  (∃ rest, invoked s2 = invoked s ++ (k, f) :: rest ∧
           Forall (fun x => fst x ≠ k) rest) ∧
  (∀ p1 p2 f1 f2, inflight s2 !! p1 = Some (k, f1) →
                  inflight s2 !! p2 = Some (k, f2) → p1 = p2) ∧
  (∀ o : O, operationLocks (settle p o s2) !! k = None ∧
            settled (settle p o s2) !! p = Some o ∧
            ∃ q, executeWithLock k g (settle p o s2)
                 = (q, snd (executeWithLock k g (settle p o s2))) ∧
                 q ≠ p ∧
                 invoked (snd (executeWithLock k g (settle p o s2)))
                   = invoked s2 ++ [(k, g)]).
Proof.
  intros s Hfree p s1 Hes s2.
  assert (consistent s) as Hs by apply consistent_run, consistent_empty.
  assert (p = issued s) as Hp.
  { unfold p. by rewrite (executeWithLock_started s k f Hfree). }
  assert (single_flight s k f p s2) as Hsf.
  { apply single_flight_run; [|done]. rewrite Hp.
    by apply single_flight_start. }
  destruct Hsf as (Hc2 & Hk2 & Hp2 & Hinv).
  split_and!.
  - by apply executeWithLock_joined.
  - exact Hinv.
  - intros p1 p2 f1 f2. by apply consistent_one_per_key.
  - intros o.
    destruct (settle_releases s2 k f p o Hc2 Hp2) as (Hrel & Hgone & Hset).
    split_and!; [done..|].
    rewrite (executeWithLock_started _ k g Hrel). simpl.
    eexists. split_and!; [reflexivity| |].
    + unfold settle. rewrite Hp2. simpl.
      destruct Hc2 as (_ & _ & Hlt).
      assert (p < issued s2)%nat by (apply Hlt; by eexists). lia.
    + unfold settle. by rewrite Hp2.
Qed.
End SingleFlight.

(** ** Recent-duplicate suppression *)

Module DuplicateFacts.
Import Eff EffFacts Lock.

Section WithBackend.
Context {R : Type} `{Backend R} `{Json}.
Implicit Types (w : World Svc R).

Global Instance keeps_locks_preorder : PreOrder (@keeps_locks R).
Proof. split; [done|]. intros a b c. unfold keeps_locks. congruence. Qed.

Global Instance keeps_recent_preorder : PreOrder (@keeps_recent R).
Proof. split; [done|]. intros a b c. unfold keeps_recent. congruence. Qed.

Local Ltac keeps_tac :=
  repeat first
    [ assumption
    | apply respects_ret
    | apply respects_throw
    | apply respects_lift_get
    | apply respects_getEnv
    | apply respects_dateNow
    | apply respects_bind
    | apply respects_try_catch
    | apply respects_modify; intros ?; reflexivity
    | apply respects_call; intros ? ? ? ?; reflexivity
    | lazymatch goal with
      | |- PreOrder _ => apply _
      | |- forall _, _ => intro
      end
    | match goal with
      | |- respects _ (match ?x with _ => _ end) => destruct x
      | |- respects _ (if ?x then _ else _) => destruct x
      end ].

Lemma testConnection_keeps_locks : respects keeps_locks testConnection.
Proof. unfold testConnection. keeps_tac. Qed.


(** *** Look-ups in the duplicate cache *)

Lemma isDuplicate_absent key data w :
  recentOperations (svc w) !! key = None →
  isDuplicateOperation key data w = (Ok false, w).
Proof. intros Hr. unfold isDuplicateOperation, bind, get. by rewrite Hr. Qed.




(** *** The guarded write *)

Lemma executeWithLock_free {A} key name (operation : M Svc R A) w :
  Pool.operationLocks (locks (svc w)) !! key = None →
  executeWithLock key name operation w =
    match operation (registered key name w) with
    | (Ok a, w2) =>
        (Ok (Done a),
         {| svc := set_locks (Pool.settle (Pool.issued (locks (svc w)))
                                fulfilled (locks (svc w2))) (svc w2);
            remote := remote w2; log := log w2; now := now w2;
            env := env w2 |})
    | (Raise e, w2) =>
        (Raise e,
         {| svc := set_locks (Pool.settle (Pool.issued (locks (svc w)))
                                rejected (locks (svc w2))) (svc w2);
            remote := remote w2; log := log w2; now := now w2;
            env := env w2 |})
    end.
Proof.
  intros Hk. unfold executeWithLock, registered.
  cbv beta iota zeta delta [bind get]. rewrite Hk.
  rewrite (PoolFacts.executeWithLock_started _ key name Hk).
  cbv beta iota zeta delta [bind modify try_catch ret throw]. simpl.
  match goal with
  | |- context [operation ?v] => destruct (operation v) as [[a|e] w2]
  end; reflexivity.
Qed.

Lemma executeWithLock_held {A} key name (operation : M Svc R A) w p :
  Pool.operationLocks (locks (svc w)) !! key = Some p →
  executeWithLock key name operation w = (Ok (Waiting p), w).
Proof.
  intros Hk. unfold executeWithLock. cbv beta iota zeta delta [bind get].
  by rewrite Hk.
Qed.

(** Setting the entry of a free key and settling the promise leaves the
    lock table as it was. *)
Lemma settle_registered key name (s : Pool.t string settlement) o :
  Pool.operationLocks s !! key = None →
  Pool.operationLocks
    (Pool.settle (Pool.issued s) o (snd (Pool.executeWithLock key name s)))
    = Pool.operationLocks s.
Proof.
  intros Hk. rewrite (PoolFacts.executeWithLock_started _ key name Hk).
  unfold Pool.settle. simpl. rewrite lookup_insert_eq. simpl.
  by rewrite delete_insert_id.
Qed.



End WithBackend.
End DuplicateFacts.

Section DuplicateSuppression.
Context {R : Type} `{Backend R} `{Json}.
Import Eff EffFacts Lock DuplicateFacts.

End DuplicateSuppression.

(** Two deletions of the same prep list in a row, another operation in
    between: the second deletion gets the promise of the first and starts
    nothing. *)
Lemma C2_witness_two_deletes :
  let s1 := snd (Pool.executeWithLock "deletePrepList_p1" "first"
                   (@Pool.empty string Lock.settlement)) in
  let s2 := Pool.run [Pool.Call "prepList_p2_Dinner" "savePrepList"] s1 in
  Pool.executeWithLock "deletePrepList_p1" "second" s2 = (0%nat, s2) ∧
  Pool.invoked s2
    = [("deletePrepList_p1", "first"); ("prepList_p2_Dinner", "savePrepList")].
Proof.
  intros s1 s2.
  destruct (@C2_executeWithLock_single_flight string Lock.settlement
              [] [Pool.Call "prepList_p2_Dinner" "savePrepList"]
              "deletePrepList_p1" "first" "second" eq_refl eq_refl)
    as (Hjoin & _).
  split; [exact Hjoin|reflexivity].
Defined.



(** * Further properties of the service *)

(** ** The wrapper of the reference variant *)

Module OutcomeFacts.
Import Eff EffFacts Ref Outcomes.

Section WithBackend.
Context {R : Type} `{Backend R}.
Implicit Types (w : World Svc R).

Lemma reclassify_surfaced {A} e w :
  @reclassify R A e w = (Raise (surfaced e), w).
Proof.
  unfold reclassify, surfaced, throw.
  repeat match goal with |- context [if ?c then _ else _] => destruct c end;
    reflexivity.
Qed.

Lemma surfaced_local msg :
  JS.includes "RLS" msg = false → JS.includes "JWT" msg = false →
  surfaced (Error msg) = Error msg.
Proof. intros Hrls Hjwt. unfold surfaced. simpl. by rewrite Hrls, Hjwt. Qed.

(** The wrapper once the pre-flight has passed. *)
Lemma execute_run {A} op (fn : M Svc R A) w w1 :
  preflight w = (Ok tt, w1) →
  executeWithErrorHandling op fn w =
    match fn w1 with
    | (Ok a, w2) => (Ok a, w2)
    | (Raise e, w2) => (Raise (surfaced e), w2)
    end.
Proof.
  intros Hp. unfold executeWithErrorHandling, try_catch.
  rewrite (bind_ok _ _ _ _ _ Hp).
  destruct (fn w1) as [[a|e] w2]; [done|]. apply reclassify_surfaced.
Qed.

(** One request, then [if (error) throw error] and a pure rest. *)
Lemma one_request {A} (q : Request) (f : option (answer q) -> Res A)
    (k : Reply.t (answer q) -> M Svc R A) w o r2 :
  respond q (remote w) = (o, r2) →
  (∀ r v, k r v = (match Reply.error r with
                   | Some e => Raise e
                   | None => f (Reply.data r)
                   end, v)) →
  ∃ w2, bind (call q) k w
        = (match o with
           | Threw e => Raise e
           | Answered r =>
               match Reply.error r with
               | Some e => Raise e
               | None => f (Reply.data r)
               end
           end, w2) ∧
        log w2 = log w ++ [(q, verdict o)] ∧ svc w2 = svc w ∧
        remote w2 = r2.
Proof.
  intros Hr Hk. unfold bind, call. rewrite Hr.
  destruct o as [e|r]; [by eexists|]. rewrite Hk. by eexists.
Qed.
End WithBackend.
End OutcomeFacts.

Section RefOperations.
Context {R : Type} `{Backend R}.
Import Eff EffFacts Ref Outcomes OutcomeFacts.

Local Ltac save_run Hp Hu Hs Hr :=
  rewrite (execute_run _ _ _ _ Hp);
  cbv beta iota zeta delta [bind get lift]; rewrite Hu, Hs;
  unfold call; rewrite Hr;
  match goal with
  | |- context [match ?o with Threw _ => _ | Answered _ => _ end] =>
      destruct o as [e|[[d|] [err|]]]
  end; simpl; split; reflexivity.

(** X1: what a save of the reference variant returns once the pre-flight
    has passed, an identity is present and the entity is accepted, for each
    answer of the backend to the upsert: the entity read from the stored
    row when the upsert succeeds; the error, as the [catch] block rewrites
    it, when the upsert returns an error or throws; and the error of
    reading a field of [null] when the upsert reports no error and no row.
    The fields of the service are left as the pre-flight left them. *)
Theorem X1_saves_return_by_answer (w w1 : World Svc R) (u : User.t) :
  preflight w = (Ok tt, w1) → currentUser (svc w1) = Some u →
  (∀ x row o r2,
     sanitizePrepList (Some u) x = Ok row →
     respond (PrepListUpsert row upsert_by_id) (remote w1) = (o, r2) →
     fst (savePrepList x w) = answered (of_row prepList_of_data) o ∧
     svc (snd (savePrepList x w)) = svc w1) ∧
  (∀ x row o r2,
     sanitizeEvent (Some u) x = Ok row →
     respond (EventUpsert row upsert_by_id) (remote w1) = (o, r2) →
     fst (saveEvent x w) = answered (of_row event_of_data) o ∧
     svc (snd (saveEvent x w)) = svc w1) ∧
  (∀ x row o r2,
     sanitizeRecipe (Some u) x = Ok row →
     respond (RecipeUpsert row upsert_by_id) (remote w1) = (o, r2) →
     fst (saveRecipe x w) = answered (of_row recipe_of_data) o ∧
     svc (snd (saveRecipe x w)) = svc w1) ∧
  (∀ x row o r2,
     sanitizeMethod (Some u) x = Ok row →
     respond (MethodUpsert row on_conflict_id) (remote w1) = (o, r2) →
     fst (saveMethod x w) = answered (of_row method_of_data) o ∧
     svc (snd (saveMethod x w)) = svc w1).
Proof.
  intros Hp Hu. split_and!; intros x row o r2 Hs Hr.
  - unfold savePrepList. save_run Hp Hu Hs Hr.
  - unfold saveEvent. save_run Hp Hu Hs Hr.
  - unfold saveRecipe. save_run Hp Hu Hs Hr.
  - unfold saveMethod. save_run Hp Hu Hs Hr.
Qed.

Local Ltac load_run Hp Hr :=
  rewrite (execute_run _ _ _ _ Hp);
  cbv beta iota zeta delta [bind]; unfold call; rewrite Hr;
  match goal with
  | |- context [match ?o with Threw _ => _ | Answered _ => _ end] =>
      destruct o as [e|[d [err|]]]
  end; simpl; split; reflexivity.

(** X2: what a load of the reference variant returns once the pre-flight
    has passed, with or without an identity: it sends the one select of its
    table; when the select returns an error or throws, the load raises that
    error as the [catch] block rewrites it; otherwise it returns the images
    of the rows with id and name (none when [data] is [null]). *)
Theorem X2_loads_return_by_answer (w w1 : World Svc R) :
  preflight w = (Ok tt, w1) →
  (∀ o r2, respond PrepListsAll (remote w1) = (o, r2) →
     fst (loadPrepLists w)
       = answered (of_rows (fun item => JS.truthy (PrepListRow.id item)
                                        && JS.truthy (PrepListRow.name item))
                           prepList_of_item) o ∧
     log (snd (loadPrepLists w)) = log w1 ++ [(PrepListsAll, verdict o)]) ∧
  (∀ o r2, respond EventsAll (remote w1) = (o, r2) →
     fst (loadEvents w)
       = answered (of_rows (fun item => JS.truthy (EventRow.id item)
                                        && JS.truthy (EventRow.name item))
                           event_of_item) o ∧
     log (snd (loadEvents w)) = log w1 ++ [(EventsAll, verdict o)]) ∧
  (∀ o r2, respond RecipesAll (remote w1) = (o, r2) →
     fst (loadRecipes w)
       = answered (of_rows (fun item => JS.truthy (RecipeRow.id item)
                                        && JS.truthy (RecipeRow.name item))
                           recipe_of_item) o ∧
     log (snd (loadRecipes w)) = log w1 ++ [(RecipesAll, verdict o)]) ∧
  (∀ o r2, respond MethodsAll (remote w1) = (o, r2) →
     fst (loadMethods w)
       = answered (of_rows (fun item => JS.truthy (MethodRow.id item)
                                        && JS.truthy (MethodRow.name item))
                           method_of_item) o ∧
     log (snd (loadMethods w)) = log w1 ++ [(MethodsAll, verdict o)]).
Proof.
  intros Hp. split_and!; intros o r2 Hr.
  - unfold loadPrepLists. load_run Hp Hr.
  - unfold loadEvents. load_run Hp Hr.
  - unfold loadRecipes. load_run Hp Hr.
  - unfold loadMethods. load_run Hp Hr.
Qed.

(** X3: [deletePrepList] of the reference variant, once the pre-flight has
    passed and with or without an identity: an id that is missing, empty or
    blank raises the validation error and nothing is sent; any other id is
    trimmed and the one delete of that row is sent, the call returning
    normally unless the delete returns an error or throws. *)
Theorem X3_deletePrepList_by_answer (w w1 : World Svc R) (id : option string) :
  preflight w = (Ok tt, w1) →
  (JS.truthy (JS.trim <$> id) = false →
     deletePrepList id w = (Raise (Error msg_delete_invalid), w1)) ∧
  (JS.truthy (JS.trim <$> id) = true →
     ∀ o r2,
       respond (DeleteById "prep_lists" (JS.trim <$> id)) (remote w1) = (o, r2) →
       fst (deletePrepList id w) = answered (fun _ => Ok tt) o ∧
       log (snd (deletePrepList id w))
         = log w1 ++ [(DeleteById "prep_lists" (JS.trim <$> id), verdict o)]).
Proof.
  intros Hp. split.
  - intros Hid. unfold deletePrepList. rewrite (execute_run _ _ _ _ Hp).
    by rewrite Hid.
  - intros Hid o r2 Hr. unfold deletePrepList.
    rewrite (execute_run _ _ _ _ Hp). rewrite Hid. simpl.
    cbv beta iota zeta delta [bind]. unfold call. rewrite Hr.
    destruct o as [e|[d [err|]]]; simpl; split; reflexivity.
Qed.
End RefOperations.

(** ** The connection test of the reference variant *)

Section RefConnection.
Context {R : Type} `{Backend R}.
Import Eff EffFacts Ref Outcomes OutcomeFacts.

Lemma performConnectionTest_total (w : World Svc R) :
  ∃ b, fst (_performConnectionTest w) = Ok b.
Proof.
  unfold _performConnectionTest, try_catch.
  match goal with
  | |- context [match ?m w with _ => _ end] => destruct (m w) as [[b|e] w1]
  end; by eexists.
Qed.

Lemma testConnection_keeps_result (w w1 : World Svc R) b :
  testConnection w = (Ok b, w1) → connectionPromise (svc w1) = Some b.
Proof.
  unfold testConnection. cbv beta iota zeta delta [bind get].
  destruct (connectionPromise (svc w)) as [b0|] eqn:Hm.
  - intros [= <- <-]. done.
  - destruct (_performConnectionTest w) as [[b1|e] w0]; [|done].
    by intros [= <- <-].
Qed.

Lemma testConnection_memo_hit (w : World Svc R) b :
  connectionPromise (svc w) = Some b → testConnection w = (Ok b, w).
Proof. intros Hm. unfold testConnection, bind, get. by rewrite Hm. Qed.

(** X4: the connection test of the reference variant never raises and is
    run once: its result, passed or failed, is kept in [connectionPromise],
    and a later [testConnection] returns that result without sending
    anything or changing anything. *)
Theorem X4_testConnection_memoised (w : World Svc R) :
  ∃ b w1,
    testConnection w = (Ok b, w1) ∧
    connectionPromise (svc w1) = Some b ∧
    testConnection w1 = (Ok b, w1) ∧
    (∀ b0, connectionPromise (svc w) = Some b0 → b = b0 ∧ w1 = w).
Proof.
  assert (∃ b w1, testConnection w = (Ok b, w1)) as (b & w1 & Ht).
  { unfold testConnection. cbv beta iota zeta delta [bind get].
    destruct (connectionPromise (svc w)) as [b0|]; [by eexists _, _|].
    destruct (performConnectionTest_total w) as [b Hb].
    destruct (_performConnectionTest w) as [res w0]. simpl in Hb. subst res.
    by eexists _, _. }
  exists b, w1. pose proof (testConnection_keeps_result w w1 b Ht) as Hm.
  split_and!; [done|done|by apply testConnection_memo_hit|].
  intros b0 Hb0. rewrite (testConnection_memo_hit w b0 Hb0) in Ht.
  by injection Ht as <- <-.
Qed.

(** X5: a failed connection test blocks the service: as long as the memo
    holds the failure, every wrapped operation raises the connection error
    at once, without running its body, without sending anything and
    without changing anything. *)
Theorem X5_failed_test_blocks (w w1 : World Svc R) :
  testConnection w = (Ok false, w1) →
  (∀ A op (fn : M Svc R A),
     executeWithErrorHandling op fn w1 = (Raise (Error msg_connection), w1)) ∧
  (∀ x, savePrepList x w1 = (Raise (Error msg_connection), w1)) ∧
  loadPrepLists w1 = (Raise (Error msg_connection), w1) ∧
  (∀ id, deletePrepList id w1 = (Raise (Error msg_connection), w1)).
Proof.
  intros Ht.
  pose proof (testConnection_memo_hit w1 false
                (testConnection_keeps_result w w1 false Ht)) as Hagain.
  assert (∀ A op (fn : M Svc R A),
            executeWithErrorHandling op fn w1
              = (Raise (Error msg_connection), w1)) as Hblock.
  { intros A op fn.
    rewrite (RefFacts.execute_preflight_raise op fn w1 (Error msg_connection) w1).
    - by rewrite reclassify_surfaced.
    - unfold preflight. by rewrite (bind_ok _ _ _ _ _ Hagain). }
  split_and!; [exact Hblock|intros x|..|intros id]; apply Hblock.
Qed.

Lemma initialize_env (w : World Svc R) : env (snd (initialize w)) = env w.
Proof.
  unfold initialize. cbv beta iota zeta delta [bind get try_catch].
  destruct (isInitialized (svc w)); [done|]. unfold call.
  destruct (respond GetSession (remote w)) as [[e|r] r1]; simpl; [done|].
  destruct (respond OnAuthStateChange r1) as [[e|r'] r2]; done.
Qed.

(** X6: how the connection test of the reference variant decides, when
    no result is memoised.  It fails when [initialize] raises, and when a
    secret is missing, without probing.  Otherwise it probes [prep_lists]
    once: it passes when the probe returns no error; when the probe is
    refused by row-level security (code 42501, or a message that mentions
    RLS) it fetches the session and passes unless that fetch throws; it
    fails on any other error of the probe and when the probe throws. *)
Theorem X6_connection_verdict (w : World Svc R) :
  connectionPromise (svc w) = None →
  (∀ e w0, initialize w = (Raise e, w0) →
     fst (testConnection w) = Ok false ∧ log (snd (testConnection w)) = log w0) ∧
  (∀ w0, initialize w = (Ok tt, w0) →
     (JS.nonempty (Env.VITE_SUPABASE_URL (env w))
        && JS.nonempty (Env.VITE_SUPABASE_ANON_KEY (env w)) = false →
      fst (testConnection w) = Ok false ∧
      log (snd (testConnection w)) = log w0) ∧
     (JS.nonempty (Env.VITE_SUPABASE_URL (env w))
        && JS.nonempty (Env.VITE_SUPABASE_ANON_KEY (env w)) = true →
      ∀ o r1,
        respond (SelectLimit1 "prep_lists" "id") (remote w0) = (o, r1) →
        fst (testConnection w)
          = Ok match o with
               | Threw _ => false
               | Answered r =>
                   match Reply.error r with
                   | None => true
                   | Some error =>
                       (code_is "42501" error
                        || JS.includes "RLS" (JsError.message error))
                       && match fst (respond GetSession r1) with
                          | Threw _ => false
                          | Answered _ => true
                          end
                   end
               end)).
Proof.
  intros Hm. split.
  - intros e w0 Hi. unfold testConnection.
    cbv beta iota zeta delta [bind get]. rewrite Hm.
    unfold _performConnectionTest, try_catch.
    rewrite (bind_raise _ _ _ _ _ Hi). done.
  - intros w0 Hi. pose proof (initialize_env w) as He. rewrite Hi in He.
    simpl in He. rewrite <- He. split.
    + intros Hcfg. unfold testConnection.
      cbv beta iota zeta delta [bind get]. rewrite Hm.
      unfold _performConnectionTest, try_catch.
      rewrite (bind_ok _ _ _ _ _ Hi).
      cbv beta iota zeta delta [bind getEnv].
      rewrite <- negb_andb, Hcfg. done.
    + intros Hcfg o r1 Hr. unfold testConnection.
      cbv beta iota zeta delta [bind get]. rewrite Hm.
      unfold _performConnectionTest, try_catch.
      rewrite (bind_ok _ _ _ _ _ Hi).
      cbv beta iota zeta delta [bind getEnv].
      rewrite <- negb_andb, Hcfg. simpl. unfold call at 1. rewrite Hr.
      destruct o as [e|[d [err|]]]; simpl; [done| |done].
      destruct (code_is "42501" err || JS.includes "RLS" (JsError.message err));
        simpl; [|done].
      unfold call. simpl.
      destruct (respond GetSession r1) as [[e2|r'] r2]; done.
Qed.

(** X7: [initialize] sets the service up once.  On an initialised service
    it does nothing; a call that returns normally leaves the service
    initialised, having fetched the session and registered the listener
    once; a call that raises (the session fetch or the registration threw)
    leaves the flag unset, so that the next call starts over. *)
Theorem X7_initialize_once (w : World Svc R) :
  (isInitialized (svc w) = true → initialize w = (Ok tt, w)) ∧
  (∀ w1, initialize w = (Ok tt, w1) →
     isInitialized (svc w1) = true ∧ initialize w1 = (Ok tt, w1) ∧
     (isInitialized (svc w) = false →
        ∃ v1 v2, log w1 = log w ++ [(GetSession, v1); (OnAuthStateChange, v2)])) ∧
  (∀ e w1, initialize w = (Raise e, w1) →
     isInitialized (svc w1) = false ∧
     ∃ q tr, log w1 = log w ++ tr ++ [(q, Thrown e)]).
Proof.
  assert (∀ v : World Svc R,
            isInitialized (svc v) = true → initialize v = (Ok tt, v)) as Hdone.
  { intros v Hv. unfold initialize, bind, get. by rewrite Hv. }
  split_and!; [apply Hdone| |].
  - intros w1. unfold initialize at 1.
    cbv beta iota zeta delta [bind get try_catch].
    destruct (isInitialized (svc w)) eqn:Hi.
    + intros [= <-]. split_and!; [done|by apply Hdone|done].
    + unfold call.
      destruct (respond GetSession (remote w)) as [[e|r] r1]; simpl; [done|].
      destruct (respond OnAuthStateChange r1) as [[e|r'] r2]; simpl; [done|].
      intros [= <-]. split_and!; [done|by apply Hdone|].
      intros _. eexists _, _. simpl. by rewrite <- app_assoc.
  - intros e w1. unfold initialize.
    cbv beta iota zeta delta [bind get try_catch].
    destruct (isInitialized (svc w)) eqn:Hi; [done|]. unfold call.
    destruct (respond GetSession (remote w)) as [[e1|r] r1]; simpl.
    + intros [= <- <-]. split; [done|]. by exists GetSession, [].
    + destruct (respond OnAuthStateChange r1) as [[e2|r'] r2]; simpl; [|done].
      intros [= <- <-]. split; [done|].
      exists OnAuthStateChange, [(GetSession, verdict (Answered r))].
      simpl. by rewrite <- app_assoc.
Qed.
End RefConnection.

(** ** The wire format is a fixed point of the sanitisers *)

Module SanitizeFacts.
Import JS.

Lemma trim_twice (o : option string) : trim <$> (trim <$> o) = trim <$> o.
Proof. destruct o as [s|]; [|done]. simpl. by rewrite TrimFacts.trim_idem. Qed.

Lemma or_null_twice o : or_null (or_null o) = or_null o.
Proof. unfold or_null. destruct (truthy o) eqn:Ho; [by rewrite Ho|done]. Qed.

Lemma trim_or_null_twice o : trim_or_null (trim_or_null o) = trim_or_null o.
Proof.
  unfold trim_or_null, or_null.
  destruct (truthy (trim <$> o)) eqn:Ho; [|done].
  by rewrite trim_twice, Ho.
Qed.

Lemma number_or_null_twice x : number_or_null (number_or_null x) = number_or_null x.
Proof.
  unfold number_or_null.
  destruct (number_truthy (ToNumber x)) eqn:Hx; simpl; [by rewrite Hx|done].
Qed.

Lemma number_or_zero_twice x : number_or_zero (number_or_zero x) = number_or_zero x.
Proof.
  unfold number_or_zero.
  destruct (number_truthy (ToNumber x)) eqn:Hx; simpl; [by rewrite Hx|done].
Qed.

Lemma number_or_zero_kept x :
  number_or_zero (or_zero (number_or_zero x)) = number_or_zero x.
Proof.
  unfold number_or_zero, or_zero.
  destruct (number_truthy (ToNumber x)) eqn:Hx; simpl; [by rewrite Hx; simpl; rewrite Hx|done].
Qed.

Lemma both_false a b : negb a || negb b = false → a = true ∧ b = true.
Proof. by destruct a, b. Qed.
End SanitizeFacts.

Section Resave.
Import Eff Ref SanitizeFacts.

Local Ltac resave :=
  simpl;
  rewrite ?trim_twice, ?or_null_twice, ?trim_or_null_twice,
    ?number_or_null_twice, ?number_or_zero_twice, ?number_or_zero_kept;
  repeat match goal with
         | H : _ = true |- _ => rewrite H
         end;
  simpl; split; reflexivity.

(** X8: the row a save sends is a fixed point of the sanitiser.  When the
    backend stores the row as sent and adds its timestamps, saving again
    the entity that the save returned, or the entity that a load builds
    from that row, passes validation and sends the very same row: trimming,
    the defaults and the mapping of empty to null do nothing the second
    time. *)
Theorem X8_resave_sends_same_row (u : User.t) (created updated : option string) :
  (∀ e row, sanitizePrepList (Some u) e = Ok row →
     sanitizePrepList (Some u)
       (prepList_of_data (stored_prep_list created updated row)) = Ok row ∧
     sanitizePrepList (Some u)
       (prepList_of_item (stored_prep_list created updated row)) = Ok row) ∧
  (∀ e row, sanitizeEvent (Some u) e = Ok row →
     sanitizeEvent (Some u)
       (event_of_data (stored_event created updated row)) = Ok row ∧
     sanitizeEvent (Some u)
       (event_of_item (stored_event created updated row)) = Ok row) ∧
  (∀ e row, sanitizeRecipe (Some u) e = Ok row →
     sanitizeRecipe (Some u)
       (recipe_of_data (stored_recipe created updated row)) = Ok row ∧
     sanitizeRecipe (Some u)
       (recipe_of_item (stored_recipe created updated row)) = Ok row) ∧
  (∀ e row, sanitizeMethod (Some u) e = Ok row →
     sanitizeMethod (Some u)
       (method_of_data (stored_method created updated row)) = Ok row ∧
     sanitizeMethod (Some u)
       (method_of_item (stored_method created updated row)) = Ok row).
Proof.
  split_and!; intros e row.
  - unfold sanitizePrepList at 1.
    destruct (negb _ || negb _) eqn:Hv; [done|].
    apply both_false in Hv as [Hid Hname]. intros [= <-].
    unfold sanitizePrepList. resave.
  - unfold sanitizeEvent at 1.
    destruct (negb _ || negb _ || negb _) eqn:Hv; [done|].
    apply orb_false_iff in Hv as [Hv Hdate].
    apply both_false in Hv as [Hid Hname].
    apply negb_false_iff in Hdate. intros [= <-].
    unfold sanitizeEvent. resave.
  - unfold sanitizeRecipe at 1.
    destruct (negb _ || negb _) eqn:Hv; [done|].
    apply both_false in Hv as [Hid Hname]. intros [= <-].
    unfold sanitizeRecipe. resave.
  - unfold sanitizeMethod at 1.
    destruct (negb _ || negb _) eqn:Hv; [done|].
    apply both_false in Hv as [Hid Hname]. intros [= <-].
    unfold sanitizeMethod. resave.
Qed.
End Resave.

(** ** The lock/dedupe variant *)

Section LockConnection.
Context {R : Type} `{Backend R}.
Import Eff EffFacts Lock.

(** X9: the connection test of the lock/dedupe variant never raises and
    caches its result, passed or failed, with the time at which the test
    began: a test that begins less than five minutes after that time
    returns the cached result without sending anything or changing
    anything.  Without a fresh entry, a missing access flag or a missing
    secret gives [false] with nothing sent; otherwise [prep_lists] is
    probed once and the test passes exactly when the probe returns no
    error. *)
Theorem X9_lock_testConnection_cached (w : World Svc R) :
  (∃ b w1 c,
     testConnection w = (Ok b, w1) ∧
     connectionCache (svc w1) = Some c ∧
     ConnectionCache.isConnected c = b ∧
     ∀ d, now w1 + d - ConnectionCache.lastCheck c < CACHE_DURATION →
          testConnection (later d w1) = (Ok b, later d w1)) ∧
  ((∀ c, connectionCache (svc w) = Some c →
         CACHE_DURATION ≤ now w - ConnectionCache.lastCheck c) →
   (Env.access_granted (env w) ≠ Some "1"
    ∨ JS.nonempty (Env.VITE_SUPABASE_URL (env w)) = false
    ∨ JS.nonempty (Env.VITE_SUPABASE_ANON_KEY (env w)) = false →
      fst (testConnection w) = Ok false ∧ log (snd (testConnection w)) = log w) ∧
   (Env.access_granted (env w) = Some "1" →
    JS.nonempty (Env.VITE_SUPABASE_URL (env w)) = true →
    JS.nonempty (Env.VITE_SUPABASE_ANON_KEY (env w)) = true →
    ∀ o r1, respond (SelectLimit1 "prep_lists" "count") (remote w) = (o, r1) →
      fst (testConnection w) = Ok match verdict o with Succeeded => true | _ => false end ∧
      log (snd (testConnection w))
        = log w ++ [(SelectLimit1 "prep_lists" "count", verdict o)] ∧
      connectionCache (svc (snd (testConnection w)))
        = Some {| ConnectionCache.isConnected :=
                    match verdict o with Succeeded => true | _ => false end;
                  ConnectionCache.lastCheck := now w |})).
Proof.
  assert (∀ (v : World Svc R) c,
            connectionCache (svc v) = Some c →
            now v - ConnectionCache.lastCheck c < CACHE_DURATION →
            testConnection v = (Ok (ConnectionCache.isConnected c), v))
    as Hhit.
  { intros v c Hc Hlt. unfold testConnection.
    cbv beta iota zeta delta [bind get dateNow]. rewrite Hc.
    destruct (Z.ltb_spec (now v - ConnectionCache.lastCheck c) CACHE_DURATION);
      [done|lia]. }
  split.
  - assert (∃ b w1 c, testConnection w = (Ok b, w1) ∧
              connectionCache (svc w1) = Some c ∧
              ConnectionCache.isConnected c = b) as (b & w1 & c & Ht & Hc & Hb).
    { unfold testConnection.
      cbv beta iota zeta delta [bind get dateNow getEnv try_catch modify ret].
      destruct (connectionCache (svc w)) as [c|] eqn:Hc;
        [destruct (Z.ltb (now w - ConnectionCache.lastCheck c) CACHE_DURATION);
         [by eexists _, _, _|]|];
        (destruct (negb (bool_decide (Env.access_granted (env w) = Some "1")));
         [by eexists _, _, _|];
         destruct (negb (JS.nonempty (Env.VITE_SUPABASE_URL (env w)))
                   || negb (JS.nonempty (Env.VITE_SUPABASE_ANON_KEY (env w))));
         [by eexists _, _, _|];
         unfold call;
         destruct (respond (SelectLimit1 "prep_lists" "count") (remote w))
           as [[e|r] r1]; by eexists _, _, _). }
    exists b, w1, c. split_and!; [done..|].
    intros d Hd. rewrite <- Hb. by apply Hhit.
  - intros Hstale.
    assert (testConnection w
            = (let remember (isConnected : bool) : M Svc R bool :=
                 bind (modify (set_connectionCache
                         (Some {| ConnectionCache.isConnected := isConnected;
                                  ConnectionCache.lastCheck := now w |})))
                      (fun _ => ret isConnected) in
               try_catch
                 (bind getEnv (fun e =>
                    if negb (bool_decide (Env.access_granted e = Some "1"))
                    then remember false
                    else if negb (JS.nonempty (Env.VITE_SUPABASE_URL e))
                            || negb (JS.nonempty (Env.VITE_SUPABASE_ANON_KEY e))
                    then remember false
                    else bind (call (SelectLimit1 "prep_lists" "count"))
                           (fun r => remember
                              (negb (bool_decide (is_Some (Reply.error r)))))))
                 (fun error => remember false)) w) as Hprobe.
    { unfold testConnection. cbv beta iota zeta delta [bind get dateNow].
      destruct (connectionCache (svc w)) as [c|] eqn:Hc; [|done].
      destruct (Z.ltb_spec (now w - ConnectionCache.lastCheck c) CACHE_DURATION);
        [|done].
      specialize (Hstale c eq_refl). lia. }
    rewrite Hprobe. clear Hprobe.
    cbv beta iota zeta delta [bind getEnv try_catch modify ret].
    split.
    + intros [Hacc|[Hurl|Hkey]].
      * rewrite bool_decide_false by done. done.
      * destruct (negb (bool_decide _)); [done|]. by rewrite Hurl.
      * destruct (negb (bool_decide _)); [done|]. rewrite Hkey.
        by rewrite orb_true_r.
    + intros Hacc Hurl Hkey o r1 Hr.
      rewrite bool_decide_true by done. rewrite Hurl, Hkey. simpl.
      unfold call. rewrite Hr.
      destruct o as [e|[d [err|]]]; simpl; done.
Qed.
End LockConnection.

Module LockFacts.
Import Eff EffFacts Lock DuplicateFacts.

(** Decompose a goal [respects phi m], for [phi] a relation that every
    step of [m] keeps by computation. *)
Ltac kept_tac :=
  repeat first
    [ assumption
    | apply respects_ret
    | apply respects_throw
    | apply respects_lift_get
    | apply respects_getEnv
    | apply respects_dateNow
    | apply respects_bind
    | apply respects_try_catch
    | apply respects_modify; intros ?; reflexivity
    | apply respects_call; intros ? ? ? ?; reflexivity
    | lazymatch goal with
      | |- PreOrder _ => apply _
      | |- forall _, _ => intro
      end
    | match goal with
      | |- respects _ (match ?x with _ => _ end) => destruct x
      | |- respects _ (if ?x then _ else _) => destruct x
      end ].

Section WithBackend.
Context {R : Type} `{Backend R} `{Json}.
Implicit Types (w : World Svc R).

Lemma persistPrepList_keeps_locks key p :
  respects keeps_locks (persistPrepList key p).
Proof.
  pose proof testConnection_keeps_locks.
  unfold persistPrepList. kept_tac.
Qed.

Lemma isDuplicate_run key data w :
  ∃ b w0, isDuplicateOperation key data w = (Ok b, w0) ∧
          locks (svc w0) = locks (svc w) ∧ log w0 = log w ∧
          remote w0 = remote w.
Proof.
  unfold isDuplicateOperation. cbv beta iota zeta delta [bind get dateNow].
  destruct (recentOperations (svc w) !! key) as [recent|]; [|by eexists _, _].
  destruct (Z.ltb DUPLICATE_WINDOW (now w - Recent.timestamp recent));
    by eexists _, _.
Qed.

(** Whatever the guarded operation does, as long as it leaves the lock
    table alone, [executeWithLock] hands the table back as it found
    it. *)
Lemma executeWithLock_releases {A} key name (operation : M Svc R A) w :
  respects keeps_locks operation →
  Pool.operationLocks (locks (svc (snd (executeWithLock key name operation w))))
    = Pool.operationLocks (locks (svc w)).
Proof.
  intros Hop.
  destruct (Pool.operationLocks (locks (svc w)) !! key) as [p|] eqn:Hk.
  - by rewrite (executeWithLock_held key name operation w p Hk).
  - rewrite (executeWithLock_free key name operation w Hk).
    specialize (Hop (registered key name w)). unfold keeps_locks in Hop.
    destruct (operation (registered key name w)) as [[a|e] w2];
      simpl in *; rewrite Hop; by apply settle_registered.
Qed.

Lemma executeWithLock_done {A} key name (operation : M Svc R A) w h :
  Pool.operationLocks (locks (svc w)) !! key = None →
  fst (executeWithLock key name operation w) = Ok h → ∃ a, h = Done a.
Proof.
  intros Hk. rewrite (executeWithLock_free key name operation w Hk).
  destruct (operation (registered key name w)) as [[a|e] w2]; simpl; [|done].
  intros [= <-]. by eexists.
Qed.
End WithBackend.
End LockFacts.

Section LockRelease.
Context {R : Type} `{Backend R} `{Json}.
Import Eff EffFacts Lock DuplicateFacts LockFacts.

(** X10: the guarded methods of the lock/dedupe variant never leave a lock
    behind.  Whatever the backend answers, and whether the method returns,
    raises or joins a call in flight, [savePrepList] and [deletePrepList]
    hand [operationLocks] back as they found it; so on a service with no
    call in flight they never return a pending promise. *)
Theorem X10_locks_are_released (w : World Svc R) :
  (∀ p, Pool.operationLocks (locks (svc (snd (savePrepList p w))))
        = Pool.operationLocks (locks (svc w))) ∧
  (∀ id, Pool.operationLocks (locks (svc (snd (deletePrepList id w))))
         = Pool.operationLocks (locks (svc w))) ∧
  (Pool.operationLocks (locks (svc w)) = ∅ →
     (∀ p h, fst (savePrepList p w) = Ok h → ∃ a, h = Done a) ∧
     (∀ id h, fst (deletePrepList id w) = Ok h → ∃ a, h = Done a)).
Proof.
  assert (∀ id, respects keeps_locks
            (try_catch
               (bind testConnection (fun isConnected =>
                  if negb isConnected then throw (Error msg_delete)
                  else bind (call (DeleteById "prep_lists" id)) (fun r =>
                         match Reply.error r with
                         | Some error => throw error
                         | None => ret tt
                         end)))
               (fun error => throw error))) as Hdel.
  { intros id. pose proof testConnection_keeps_locks. kept_tac. }
  split_and!.
  - intros p. unfold savePrepList.
    destruct (isDuplicate_run (generateOperationKey "savePrepList" p) p w)
      as (b & w0 & Hd & Hl & _).
    rewrite (bind_ok _ _ _ _ _ Hd). destruct b; simpl; [by rewrite Hl|].
    rewrite <- Hl. apply executeWithLock_releases, persistPrepList_keeps_locks.
  - intros id. unfold deletePrepList. apply executeWithLock_releases, Hdel.
  - intros Hempty. split.
    + intros p h. unfold savePrepList.
      destruct (isDuplicate_run (generateOperationKey "savePrepList" p) p w)
        as (b & w0 & Hd & Hl & _).
      rewrite (bind_ok _ _ _ _ _ Hd). destruct b; simpl.
      * intros [= <-]. by eexists.
      * apply executeWithLock_done. by rewrite Hl, Hempty.
    + intros id h. unfold deletePrepList.
      apply executeWithLock_done. by rewrite Hempty.
Qed.
End LockRelease.

Section LockUnguarded.
Context {R : Type} `{Backend R}.
Import Eff EffFacts Lock Outcomes.

(** X11: [saveEvent] and [saveRecipe] of the lock/dedupe variant are
    neither validated, nor locked, nor deduplicated.  When the connection
    test fails they raise the connection error and send nothing.  When it
    passes, every call sends one upsert of the entity as given, whatever
    its id and name; [saveEvent] returns the event read from the stored
    row, [saveRecipe] returns the stored row itself ([null] included); an
    error of the backend is raised as it is; and the lock table and the
    duplicate cache are left alone. *)
Theorem X11_lock_saves_unguarded (w w1 : World Svc R) (b : bool) :
  testConnection w = (Ok b, w1) →
  (b = false →
     (∀ event, saveEvent event w = (Raise (Error msg_persist), w1)) ∧
     (∀ recipe, saveRecipe recipe w = (Raise (Error msg_persist), w1))) ∧
  (b = true →
     (∀ event o r2,
        respond (EventUpsert (event_row event) no_options) (remote w1) = (o, r2) →
        fst (saveEvent event w) = passed_on (of_row event_of_row) o ∧
        log (snd (saveEvent event w))
          = log w1 ++ [(EventUpsert (event_row event) no_options, verdict o)] ∧
        svc (snd (saveEvent event w)) = svc w1) ∧
     (∀ recipe o r2,
        respond (RecipeUpsert (recipe_row recipe) no_options) (remote w1) = (o, r2) →
        fst (saveRecipe recipe w) = passed_on Ok o ∧
        log (snd (saveRecipe recipe w))
          = log w1 ++ [(RecipeUpsert (recipe_row recipe) no_options, verdict o)] ∧
        svc (snd (saveRecipe recipe w)) = svc w1)).
Proof.
  intros Ht. split.
  - intros ->. split.
    + intros event. unfold saveEvent, try_catch.
      by rewrite (bind_ok _ _ _ _ _ Ht).
    + intros recipe. unfold saveRecipe. by rewrite (bind_ok _ _ _ _ _ Ht).
  - intros ->. split.
    + intros event o r2 Hr. unfold saveEvent, try_catch.
      rewrite (bind_ok _ _ _ _ _ Ht). simpl.
      cbv beta iota zeta delta [bind]. unfold call. rewrite Hr.
      destruct o as [e|[[d|] [err|]]]; simpl; done.
    + intros recipe o r2 Hr. unfold saveRecipe.
      rewrite (bind_ok _ _ _ _ _ Ht). simpl.
      cbv beta iota zeta delta [bind]. unfold call. rewrite Hr.
      destruct o as [e|[d [err|]]]; simpl; done.
Qed.
End LockUnguarded.

(** ** More on [deduplicatePrepLists] *)

Module OrderFacts.
Import Lock DedupeFacts KeyOrder.

Lemma map_set_fresh {V} k (v : V) m :
  map_get k m = None → map_set k v m = m ++ [(k, v)].
Proof.
  induction m as [|[k' v'] m IH]; simpl; [done|].
  destruct (String.eqb_spec k k'); [done|]. intros Hg. by rewrite IH.
Qed.

Lemma dedupe_step_keys seen x :
  (dedupe_step seen x).*1 = add_key seen.*1 (dedupe_key x).
Proof.
  unfold dedupe_step, add_key.
  destruct (map_get (dedupe_key x) seen) as [existing|] eqn:Hg.
  - assert (dedupe_key x ∈ seen.*1) as Hin.
    { apply map_get_Some_elem in Hg. apply list_elem_of_fmap.
      by exists (dedupe_key x, existing). }
    rewrite bool_decide_true by done.
    destruct (Nat.ltb _ _); [|done]. by rewrite map_set_keys, Hg.
  - rewrite map_set_keys, Hg.
    apply map_get_None_keys in Hg. by rewrite bool_decide_false.
Qed.

Lemma foldl_keys l : ∀ seen,
  (foldl dedupe_step seen l).*1 = foldl add_key seen.*1 (dedupe_key <$> l).
Proof.
  induction l as [|x l IH]; intros seen; simpl; [done|].
  by rewrite IH, dedupe_step_keys.
Qed.

Lemma foldl_add_key ks : ∀ acc,
  foldl add_key acc ks = acc ++ filter (fun k => k ∉ acc) (first_occurrences ks).
Proof.
  induction ks as [|k r IH]; intros acc; simpl.
  - by rewrite app_nil_r.
  - rewrite IH. unfold add_key. destruct (decide (k ∈ acc)) as [Hin|Hnin].
    + rewrite bool_decide_true by done.
      rewrite filter_cons_False by (intros Hn; by apply Hn).
      f_equal. rewrite list_filter_filter. apply list_filter_iff.
      intros k'. split; [|tauto]. intros Hk'. split; [done|]. by intros ->.
    + rewrite bool_decide_false by done.
      rewrite filter_cons_True by done.
      rewrite <- app_assoc. simpl. do 2 f_equal.
      rewrite list_filter_filter. apply list_filter_iff.
      intros k'. rewrite elem_of_app, list_elem_of_singleton. tauto.
Qed.

Lemma filter_all {A} (P : A → Prop) `{∀ x, Decision (P x)} (l : list A) :
  (∀ x, P x) → filter P l = l.
Proof.
  intros HP. induction l as [|x l IH]; [done|].
  rewrite filter_cons_True by done. by rewrite IH.
Qed.

Lemma dedupe_distinct l : ∀ seen,
  NoDup (seen.*1 ++ (dedupe_key <$> l)) →
  foldl dedupe_step seen l = seen ++ ((fun x => (dedupe_key x, x)) <$> l).
Proof.
  induction l as [|x l IH]; intros seen Hnd; simpl.
  - by rewrite app_nil_r.
  - assert (map_get (dedupe_key x) seen = None) as Hg.
    { apply map_get_None_keys. intros Hin.
      apply NoDup_app in Hnd as (_ & Hdis & _).
      apply (Hdis _ Hin). simpl. apply list_elem_of_here. }
    unfold dedupe_step at 2. rewrite Hg, (map_set_fresh _ _ _ Hg).
    rewrite IH.
    + by rewrite <- app_assoc.
    + rewrite fmap_app. simpl. rewrite <- app_assoc. exact Hnd.
Qed.
End OrderFacts.

Section DedupeOrder.
Import Lock DedupeFacts KeyOrder OrderFacts.

(** X12: [deduplicatePrepLists] keeps the order in which the keys first
    occur: the keys of its result are the distinct keys of its argument,
    each at its first occurrence.  A list whose keys are pairwise distinct
    is returned as it is, so the function is idempotent; in particular the
    empty list gives the empty list. *)
Theorem X12_dedupe_keeps_order (l : list PrepList.t) :
  dedupe_key <$> deduplicatePrepLists l
    = first_occurrences (dedupe_key <$> l) ∧
  (NoDup (dedupe_key <$> l) → deduplicatePrepLists l = l) ∧
  deduplicatePrepLists (deduplicatePrepLists l) = deduplicatePrepLists l ∧
  deduplicatePrepLists [] = [].
Proof.
  assert (∀ l', NoDup (dedupe_key <$> l') → deduplicatePrepLists l' = l')
    as Hid.
  { intros l' Hnd. unfold deduplicatePrepLists, map_values.
    rewrite (dedupe_distinct l' []) by done. simpl.
    rewrite <- list_fmap_compose. apply list_fmap_id. }
  split_and!.
  - unfold deduplicatePrepLists.
    rewrite (inv_keys l) by apply inv_dedupe.
    rewrite foldl_keys, foldl_add_key. simpl.
    apply filter_all. intros k. apply not_elem_of_nil.
  - apply Hid.
  - apply Hid, dedupe_keys_NoDup.
  - done.
Qed.
End DedupeOrder.

Section LockDelete.
Context {R : Type} `{Backend R}.
Import Eff EffFacts Lock DuplicateFacts Outcomes Guarded.

(** X13: [deletePrepList] of the lock/dedupe variant.  A call that finds
    a delete of the same id in flight joins it: it returns the pending
    promise and sends nothing.  Otherwise, when the connection test fails
    the call raises the connection error and sends nothing more; when it
    passes, the one delete is sent with the id as given, neither checked
    nor trimmed, and the call returns normally unless the delete returns
    an error or throws, in which case that error is raised as it is. *)
Theorem X13_lock_deletePrepList (w : World Svc R) (id : option string) :
  let key := "deletePrepList_" +:+ JS.template id in
  (∀ p, Pool.operationLocks (locks (svc w)) !! key = Some p →
        deletePrepList id w = (Ok (Waiting p), w)) ∧
  (Pool.operationLocks (locks (svc w)) !! key = None →
   ∀ b w1, testConnection (registered key "deletePrepList" w) = (Ok b, w1) →
     (b = false →
        fst (deletePrepList id w) = Raise (Error msg_delete) ∧
        log (snd (deletePrepList id w)) = log w1) ∧
     (b = true →
        ∀ o r2, respond (DeleteById "prep_lists" id) (remote w1) = (o, r2) →
          fst (deletePrepList id w)
            = completed (passed_on (fun _ => Ok tt) o) ∧
          log (snd (deletePrepList id w))
            = log w1 ++ [(DeleteById "prep_lists" id, verdict o)])).
Proof.
  intros key. split.
  - intros p Hk. unfold deletePrepList. by apply executeWithLock_held.
  - intros Hk b w1 Ht. unfold deletePrepList. fold key.
    rewrite (executeWithLock_free key "deletePrepList" _ w Hk).
    unfold try_catch. rewrite (bind_ok _ _ _ _ _ Ht). split.
    + intros ->. done.
    + intros -> o r2 Hr. simpl. cbv beta iota zeta delta [bind].
      unfold call. rewrite Hr.
      destruct o as [e|[d [err|]]]; simpl; done.
Qed.
End LockDelete.

(** ** [diagnoseConnection] of the lock/dedupe variant *)

Module LockDiagnosisFacts.
Import Eff EffFacts Lock LockDiagnosis.

Section WithBackend.
Context {R : Type} `{Backend R}.
Implicit Types (v : World (Svc * LockDiagnosis.t) R).

(** The loop over the tables: it probes the tables in order until a
    probe throws, lists the tables whose probe returned no error, and
    touches nothing else. *)
Lemma loop_run (ts : list string) : ∀ v,
  ∃ res v' rest,
    for_each ts listTable v = (res, v') ∧
    log v' = log v ++ rest ∧
    fst (svc v') = fst (svc v) ∧ env v' = env v ∧
    snd (svc v')
      = {| configured := configured (snd (svc v));
           accessible := accessible (snd (svc v));
           tables := tables (snd (svc v)) ++ readable rest;
           errors := errors (snd (svc v)) |} ∧
    fst <$> rest `prefix_of` probe <$> ts.
Proof.
  induction ts as [|table ts IH]; intros v.
  - exists (Ok tt), v, []. simpl. rewrite !app_nil_r.
    split_and!; [done..| |done]. by destruct (snd (svc v)).
  - simpl. unfold bind at 1. unfold listTable at 1.
    unfold bind at 1. unfold call at 1.
    destruct (respond (probe table) (remote v)) as [[e|[d [err|]]] r1] eqn:Hr;
      simpl.
    + eexists _, _, [_]. split_and!; [reflexivity|reflexivity|done|done| |].
      * simpl. rewrite app_nil_r. by destruct (snd (svc v)).
      * simpl. by apply prefix_cons, prefix_nil.
    + match goal with
      | |- context [for_each ts listTable ?v1] =>
          destruct (IH v1) as (res & v' & rest & Hrun & Hlog & Hsvc & Henv
                               & Hd & Hpre)
      end.
      rewrite Hrun. eexists res, v', (_ :: rest).
      split_and!; [done| |done|done| |].
      * rewrite Hlog. simpl. by rewrite <- app_assoc.
      * rewrite Hd. done.
      * simpl. by apply prefix_cons.
    + match goal with
      | |- context [for_each ts listTable ?v1] =>
          destruct (IH v1) as (res & v' & rest & Hrun & Hlog & Hsvc & Henv
                               & Hd & Hpre)
      end.
      rewrite Hrun. eexists res, v', (_ :: rest).
      split_and!; [done| |done|done| |].
      * rewrite Hlog. simpl. by rewrite <- app_assoc.
      * rewrite Hd. simpl. by rewrite <- app_assoc.
      * simpl. by apply prefix_cons.
Qed.

(** The whole diagnosis, by cases on the configuration and on the
    first probe. *)
Lemma lock_diagnoseConnection_run (w : World Svc R) :
  let cfg := JS.nonempty (Env.VITE_SUPABASE_URL (env w))
             && JS.nonempty (Env.VITE_SUPABASE_ANON_KEY (env w)) in
  ∃ d w' tr,
    diagnoseConnection w = (Ok d, w') ∧
    svc w' = svc w ∧ env w' = env w ∧ log w' = log w ++ tr ∧
    configured d = cfg ∧
    (cfg = false →
       tr = [] ∧ remote w' = remote w ∧
       d = {| configured := false; accessible := false; tables := [];
              errors := Ref.config_errors (env w) |}) ∧
    (cfg = true →
       ∃ vd rest,
         tr = (probe "prep_lists", vd) :: rest ∧
         (succeeded vd = false → rest = []) ∧
         fst <$> rest `prefix_of` probe <$> tablesToList ∧
         d = {| configured := true; accessible := succeeded vd;
                tables := readable rest;
                errors := first_probe_errors vd |}).
Proof.
  intros cfg. unfold diagnoseConnection, with_var, try_catch.
  unfold diagnose_body.
  remember (for_each tablesToList listTable) as loop eqn:Hloop.
  cbv beta iota zeta delta [bind getEnv].
  change (env (enter initial w)) with (env w).
  destruct (JS.nonempty (Env.VITE_SUPABASE_URL (env w))) eqn:Hurl;
    destruct (JS.nonempty (Env.VITE_SUPABASE_ANON_KEY (env w))) eqn:Hkey;
    simpl in cfg; subst cfg; simpl.
  2-4: (eexists _, _, []; rewrite app_nil_r;
        split_and!; [reflexivity|reflexivity..| |done];
        intros _; split_and!; [reflexivity|reflexivity|];
        unfold Ref.config_errors; rewrite Hurl, Hkey; reflexivity).
  unfold call at 1. simpl.
  destruct (respond (probe "prep_lists") (remote w)) as [[e|[d [err|]]] r1];
    simpl.
  - eexists _, _, [_]. split_and!; [reflexivity|done|done|done|done|done|].
    intros _. eexists _, []. split_and!; [done|done|apply prefix_nil|done].
  - eexists _, _, [_]. split_and!; [reflexivity|done|done|done|done|done|].
    intros _. eexists _, []. split_and!; [done|done|apply prefix_nil|done].
  - unfold try_catch.
    match goal with
    | |- context [loop ?v1] =>
        destruct (loop_run tablesToList v1)
          as (res & v' & rest & Hrun & Hlog & Hsvc & Henv & Hd & Hpre)
    end.
    rewrite <- Hloop in Hrun. rewrite Hrun. simpl in Hlog, Hsvc, Henv, Hd.
    exists (snd (svc v')), (leave v'), ((probe "prep_lists", Succeeded) :: rest).
    split_and!.
    + by destruct res as [[]|e].
    + done.
    + done.
    + simpl. rewrite Hlog. simpl. by rewrite <- app_assoc.
    + by rewrite Hd.
    + done.
    + intros _. exists Succeeded, rest. split_and!; [done|done|done|].
      by rewrite Hd.
Qed.
End WithBackend.
End LockDiagnosisFacts.

Section LockDiagnosisReport.
Context {R : Type} `{Backend R}.
Import Eff EffFacts Lock LockDiagnosis LockDiagnosisFacts.

(** X14: [diagnoseConnection] of the lock/dedupe variant never raises and
    observes only.  It leaves every field of the service as it was (the
    connection cache, the lock table and the duplicate cache included) and
    sends at most six requests, all of them count probes: [prep_lists]
    first, then the five tables in order.  With a secret missing it sends
    nothing. *)
Theorem X14_lock_diagnosis_observes_only (w : World Svc R) :
  ∃ d w' tr,
    diagnoseConnection w = (Ok d, w') ∧
    svc w' = svc w ∧ env w' = env w ∧ log w' = log w ++ tr ∧
    fst <$> tr `prefix_of` probe "prep_lists" :: (probe <$> tablesToList) ∧
    Forall (fun x => is_write (fst x) = false) tr ∧
    (length tr ≤ 6)%nat ∧
    (JS.nonempty (Env.VITE_SUPABASE_URL (env w))
       && JS.nonempty (Env.VITE_SUPABASE_ANON_KEY (env w)) = false →
     tr = [] ∧ remote w' = remote w).
Proof.
  destruct (lock_diagnoseConnection_run w)
    as (d & w' & tr & Hrun & Hsvc & Henv & Hlog & Hcfg & Hoff & Hon).
  assert (fst <$> tr `prefix_of` probe "prep_lists" :: (probe <$> tablesToList))
    as Hpre.
  { destruct (JS.nonempty (Env.VITE_SUPABASE_URL (env w))
              && JS.nonempty (Env.VITE_SUPABASE_ANON_KEY (env w))).
    - destruct (Hon eq_refl) as (vd & rest & -> & _ & Hp & _).
      simpl. by apply prefix_cons.
    - destruct (Hoff eq_refl) as (-> & _). apply prefix_nil. }
  exists d, w', tr. split_and!; [done..| | |].
  - destruct Hpre as [k Hk]. apply Forall_forall. intros [q v] Hin. simpl.
    assert (q ∈ probe "prep_lists" :: (probe <$> tablesToList)) as Hq.
    { rewrite Hk. apply elem_of_app. left. apply list_elem_of_fmap.
      by exists (q, v). }
    simpl in Hq.
    repeat (apply elem_of_cons in Hq as [->|Hq]; [done|]).
    by apply elem_of_nil in Hq.
  - apply prefix_length in Hpre. by rewrite length_fmap in Hpre.
  - intros Hc. by destruct (Hoff Hc) as (-> & -> & _).
Qed.

End LockDiagnosisReport.

(** ** The account functions *)

Section AccountFunctions.
Context {R : Type} `{Backend R} `{Account.AuthBackend R}.
Import Eff EffFacts Ref Outcomes OutcomeFacts Account.

(** X16: [signOut] never raises and reports how the request ended.  When
    the backend answers without error, it forgets the identity, the cached
    profile and the memoised connection test and returns success;
    otherwise it changes no field of the service and returns a failure
    with the message of the error (or the fixed text when a thrown error
    has none). *)
Theorem X16_signOut_by_answer (w : World Svc R) :
  ∃ w', signOut w = (Ok (sign_out_result (fst (respond SignOut (remote w)))), w') ∧
        remote w' = snd (respond SignOut (remote w)) ∧
        log w' = log w ∧
        svc w' = (if AuthResult.success
                       (sign_out_result (fst (respond SignOut (remote w))))
                  then signed_out (svc w) else svc w).
Proof.
  unfold signOut, try_catch. cbv beta iota zeta delta [bind request].
  destruct (respond SignOut (remote w)) as [[e|[d [err|]]] r1]; simpl;
    by eexists.
Qed.

(** X17: [signIn] and [signUp] never raise and report how the request
    ended: success exactly when the backend answers with data and without
    error.  A failure changes no field of the service.  On success with a user,
    [signIn] makes that user the current identity, both functions run
    [ensureUserProfile], and both reset the memoised connection test, so
    that the next operation tests the connection again; [signUp] leaves the
    identity as it was.  [signIn_legacy] returns the success flag of
    [signIn]. *)
Theorem X17_sign_in_and_up_by_answer (w : World Svc R) (email password : string) :
  (∀ o r1, respond (SignInWithPassword email password) (remote w) = (o, r1) →
     let w1 := answered_at (SignInWithPassword email password) r1 w in
     ∃ w', signIn email password w = (Ok (auth_result unknown_sign_in o), w') ∧
           signIn_legacy email password w
             = (Ok (AuthResult.success (auth_result unknown_sign_in o)), w') ∧
           (AuthResult.success (auth_result unknown_sign_in o) = false →
              w' = w1) ∧
           (∀ d, o = Answered {| Reply.data := Some d; Reply.error := None |} →
              match AuthData.user d with
              | Some u =>
                  w' = memo_reset (snd (ensureUserProfile (with_identity u w1))) ∧
                  currentUser (svc w') = Some u
              | None => w' = memo_reset w1
              end)) ∧
  (∀ fullName o r1,
     respond (SignUp email password (JS.or_null fullName)) (remote w) = (o, r1) →
     let w1 := answered_at (SignUp email password (JS.or_null fullName)) r1 w in
     ∃ w', signUp email password fullName w
             = (Ok (auth_result unknown_sign_up o), w') ∧
           (AuthResult.success (auth_result unknown_sign_up o) = false →
              w' = w1) ∧
           (∀ d, o = Answered {| Reply.data := Some d; Reply.error := None |} →
              currentUser (svc w') = currentUser (svc w) ∧
              match AuthData.user d with
              | Some u => w' = memo_reset (snd (ensureUserProfile w1))
              | None => w' = memo_reset w1
              end)).
Proof.
  split.
  - intros o r1 Hr w1.
    unfold signIn_legacy, signIn, try_catch.
    cbv beta iota zeta delta [bind request]. rewrite Hr.
    destruct o as [e|[[d|] [err|]]]; simpl; try (by eexists; split_and!).
    destruct (AuthData.user d) as [u|] eqn:Hu; simpl.
    + match goal with
      | |- context [ensureUserProfile ?v0] =>
          change v0 with (with_identity u w1)
      end.
      destruct (ensureUserProfile_total (with_identity u w1)) as [p Hp].
      pose proof (DiagnosisFacts.ensureUserProfile_frame (with_identity u w1))
        as (_ & Hcu & _).
      destruct (ensureUserProfile (with_identity u w1)) as [res v] eqn:He.
      simpl in Hp. subst res. simpl in Hcu.
      eexists. split_and!; [reflexivity|reflexivity|done|].
      intros d' [= <-]. rewrite Hu, He. split; [done|]. simpl. exact Hcu.
    + eexists. split_and!; [reflexivity|reflexivity|done|].
      intros d' [= <-]. by rewrite Hu.
  - intros fullName o r1 Hr w1.
    unfold signUp, try_catch.
    cbv beta iota zeta delta [bind request]. rewrite Hr.
    destruct o as [e|[[d|] [err|]]]; simpl; try (by eexists; split_and!).
    destruct (AuthData.user d) as [u|] eqn:Hu; simpl.
    + match goal with
      | |- context [ensureUserProfile ?v0] => change v0 with w1
      end.
      destruct (ensureUserProfile_total w1) as [p Hp].
      pose proof (DiagnosisFacts.ensureUserProfile_frame w1) as (_ & Hcu & _).
      destruct (ensureUserProfile w1) as [res v] eqn:He.
      simpl in Hp. subst res. simpl in Hcu.
      eexists. split_and!; [reflexivity|done|].
      intros d' [= <-]. rewrite Hu. split; [exact Hcu|done].
    + eexists. split_and!; [reflexivity|done|].
      intros d' [= <-]. by rewrite Hu.
Qed.

(** X18: [updateUserProfile] and [getUsersByCompany] check the identity
    before anything else: without one they raise at once, with nothing
    sent and nothing changed.  With an identity, once the pre-flight has
    passed, [updateUserProfile] sends the three fields it may change
    (full name, company, avatar) for the row of the current user; when the
    backend answers without error it caches and returns the row it
    answered with; otherwise it raises the error as the wrapper rewrites it
    and leaves the cached profile alone.  [getUsersByCompany] returns the
    rows of the answer (none when [data] is [null]) or raises likewise. *)
Theorem X18_profile_functions (w : World Svc R) :
  (currentUser (svc w) = None →
     (∀ updates,
        updateUserProfile updates w = (Raise (Error msg_update_auth), w)) ∧
     (∀ companyId,
        getUsersByCompany companyId w = (Raise (Error msg_company_auth), w))) ∧
  (∀ w1 u, is_Some (currentUser (svc w)) →
     preflight w = (Ok tt, w1) → currentUser (svc w1) = Some u →
     (∀ updates o r2,
        respond (ProfileUpdate
                   {| Changes.full_name := ProfilePatch.full_name updates;
                      Changes.company_id := ProfilePatch.company_id updates;
                      Changes.avatar_url := ProfilePatch.avatar_url updates |}
                   (User.id u)) (remote w1) = (o, r2) →
        fst (updateUserProfile updates w) = answered Ok o ∧
        userProfile (svc (snd (updateUserProfile updates w)))
          = match o with
            | Answered {| Reply.data := data; Reply.error := None |} => data
            | _ => userProfile (svc w1)
            end) ∧
     (∀ companyId o r2,
        respond (ProfilesByCompany companyId) (remote w1) = (o, r2) →
        fst (getUsersByCompany companyId w)
          = answered (fun data => Ok (default [] data)) o)).
Proof.
  split.
  - intros Hu. split; intros x.
    + unfold updateUserProfile, bind, get. by rewrite Hu.
    + unfold getUsersByCompany, bind, get. by rewrite Hu.
  - intros w1 u [u0 Hu0] Hp Hu. split.
    + intros updates o r2 Hr. unfold updateUserProfile.
      cbv beta iota zeta delta [bind get]. rewrite Hu0.
      rewrite (execute_run _ _ _ _ Hp). rewrite Hu.
      unfold request. rewrite Hr.
      destruct o as [e|[d [err|]]]; simpl; done.
    + intros companyId o r2 Hr. unfold getUsersByCompany.
      cbv beta iota zeta delta [bind get]. rewrite Hu0.
      rewrite (execute_run _ _ _ _ Hp).
      unfold request. rewrite Hr.
      destruct o as [e|[d [err|]]]; simpl; done.
Qed.
End AccountFunctions.

Section LockKeys.
Context {R : Type} `{Backend R} `{Json}.
Import Eff EffFacts Lock DuplicateFacts LockFacts.

(** X19: the operation key of a prep list that has an id is made of its
    id and its name only.  So while a save of a list is in flight, a save
    of any list with the same id and name, whatever its items and its
    company, is not written: it sends nothing and returns the promise of
    the save in flight (or, when the duplicate cache holds the same
    payload, its own input). *)
Theorem X19_inflight_save_absorbs (w : World Svc R) (a b : PrepList.t) (p : nat) :
  JS.truthy (PrepList.id a) = true →
  PrepList.id b = PrepList.id a → PrepList.name b = PrepList.name a →
  Pool.operationLocks (locks (svc w)) !! generateOperationKey "savePrepList" a
    = Some p →
  generateOperationKey "savePrepList" b = generateOperationKey "savePrepList" a ∧
  ∃ h w', savePrepList b w = (Ok h, w') ∧
          (h = Waiting p ∨ h = Done b) ∧
          log w' = log w ∧ remote w' = remote w ∧
          locks (svc w') = locks (svc w).
Proof.
  intros Hid Hb Hn Hk.
  assert (generateOperationKey "savePrepList" b
          = generateOperationKey "savePrepList" a) as Hkey.
  { unfold generateOperationKey. by rewrite Hb, Hn, Hid. }
  split; [done|]. unfold savePrepList. rewrite Hkey.
  destruct (isDuplicate_run (generateOperationKey "savePrepList" a) b w)
    as (d & w0 & Hd & Hl & Hlog & Hrem).
  rewrite (bind_ok _ _ _ _ _ Hd). destruct d.
  - exists (Done b), w0. split_and!; [reflexivity|by right|done..].
  - simpl. rewrite (executeWithLock_held _ _ _ w0 p) by (by rewrite Hl).
    exists (Waiting p), w0. split_and!; [reflexivity|by left|done..].
Qed.
End LockKeys.

(** ** The connection is tested once *)

Module ReadinessFacts.
Import Eff EffFacts Ref Readiness.

Section WithBackend.
Context {R : Type} `{Backend R}.

Global Instance stays_tested_preorder : PreOrder (@stays_tested R).
Proof.
  split.
  - intros w _. split; [done|]. reflexivity.
  - intros a b c Hab Hbc Ha. destruct (Hab Ha) as [Hm Hs].
    destruct Hbc as [Hm' Hs']; [by rewrite Hm|].
    split; [congruence|]. by etrans.
Qed.

Lemma tested_modify (f : Svc -> Svc) :
  (∀ s, connectionPromise (f s) = connectionPromise s) →
  respects stays_tested (@modify Svc R f).
Proof.
  intros Hf. apply respects_modify. intros w _. simpl.
  split; [apply Hf|]. by apply silent_sends.
Qed.

Lemma tested_call (q : Request) :
  ¬ is_connection_request q → respects stays_tested (@call Svc R _ q).
Proof.
  intros Hq. apply respects_call. intros w o r' _ _. simpl.
  split; [done|]. exists [(q, verdict o)]. split; [done|].
  by apply Forall_singleton.
Qed.

Lemma tested_lift {A} (r : Res A) : respects stays_tested (@lift R A r).
Proof. intros w. reflexivity. Qed.

Lemma tested_reclassify {A} e : respects stays_tested (@reclassify R A e).
Proof.
  unfold reclassify.
  repeat match goal with |- context [if ?c then _ else _] => destruct c end;
    apply respects_throw; apply _.
Qed.

Lemma tested_unwrap {D} (r : Reply.t D) : respects stays_tested (@unwrap R D r).
Proof.
  unfold unwrap. destruct (Reply.error r); [apply respects_throw; apply _|].
  destruct (Reply.data r); [apply respects_ret|apply respects_throw]; apply _.
Qed.

Lemma tested_rows {D} (r : Reply.t (list D)) :
  respects stays_tested (@rows_or_throw R D r).
Proof.
  unfold rows_or_throw.
  destruct (Reply.error r); [apply respects_throw|apply respects_ret]; apply _.
Qed.

End WithBackend.

Ltac tested_tac :=
  repeat first
    [ assumption
    | apply respects_ret
    | apply respects_throw
    | apply respects_lift_get
    | apply respects_bind
    | apply respects_try_catch
    | apply tested_lift
    | apply tested_unwrap
    | apply tested_rows
    | apply tested_reclassify
    | apply tested_modify; intros ?; reflexivity
    | apply tested_call; simpl; tauto
    | lazymatch goal with
      | |- PreOrder _ => apply _
      | |- forall _, _ => intro
      end
    | match goal with
      | |- respects _ (match ?x with _ => _ end) => destruct x
      | |- respects _ (if ?x then _ else _) => destruct x
      end ].

Section Methods.
Context {R : Type} `{Backend R}.

Lemma tested_testConnection : respects stays_tested testConnection.
Proof.
  intros w [b Hb]. unfold testConnection, bind, get. rewrite Hb. simpl.
  split; [done|]. reflexivity.
Qed.

Lemma tested_ensureUserProfile : respects stays_tested ensureUserProfile.
Proof. unfold ensureUserProfile. tested_tac. Qed.

Lemma tested_execute {A} op (fn : M Svc R A) :
  respects stays_tested fn →
  respects stays_tested (executeWithErrorHandling op fn).
Proof.
  intros Hfn. pose proof tested_testConnection.
  pose proof tested_ensureUserProfile.
  unfold executeWithErrorHandling, preflight. tested_tac.
Qed.
End Methods.
End ReadinessFacts.

Section TestedOnce.
Context {R : Type} `{Backend R}.
Import Eff EffFacts Ref Readiness ReadinessFacts.

(** X20: the connection is tested once.  On a service whose connection
    test is memoised, every save, load and delete of the reference variant
    leaves the memo as it is and sends no request of the connection test
    (no session fetch, no listener registration, no probe): whatever the
    backend answers, it sends at most the fetch or creation of the profile
    and its own request. *)
Theorem X20_connection_tested_once :
  (∀ x, respects stays_tested (savePrepList (R := R) x)) ∧
  (∀ x, respects stays_tested (saveEvent (R := R) x)) ∧
  (∀ x, respects stays_tested (saveRecipe (R := R) x)) ∧
  (∀ x, respects stays_tested (saveMethod (R := R) x)) ∧
  respects stays_tested (loadPrepLists (R := R)) ∧
  respects stays_tested (loadEvents (R := R)) ∧
  respects stays_tested (loadRecipes (R := R)) ∧
  respects stays_tested (loadMethods (R := R)) ∧
  (∀ id, respects stays_tested (deletePrepList (R := R) id)).
Proof.
  split_and!; try intros x.
  - unfold savePrepList. apply tested_execute. tested_tac.
  - unfold saveEvent. apply tested_execute. tested_tac.
  - unfold saveRecipe. apply tested_execute. tested_tac.
  - unfold saveMethod. apply tested_execute. tested_tac.
  - unfold loadPrepLists. apply tested_execute. tested_tac.
  - unfold loadEvents. apply tested_execute. tested_tac.
  - unfold loadRecipes. apply tested_execute. tested_tac.
  - unfold loadMethods. apply tested_execute. tested_tac.
  - unfold deletePrepList. apply tested_execute. tested_tac.
Qed.
End TestedOnce.

(** ** Which list [deduplicatePrepLists] keeps *)

Module BestFacts.
Import Lock DedupeFacts KeyOrder.

Lemma first_best_snoc_other visited k v x :
  dedupe_key x ≠ k → first_best visited k v → first_best (visited ++ [x]) k v.
Proof.
  intros Hne (i & Hi & Hk & Hbest). exists i. split_and!; [|done|].
  - by apply lookup_app_l_Some.
  - intros j p Hj Hp. apply lookup_snoc_Some in Hj as [[_ Hj]|[_ <-]];
      [by apply Hbest|done].
Qed.

Lemma first_best_snoc_keep visited k v x :
  dedupe_key x = k → (items_length x ≤ items_length v)%nat →
  first_best visited k v → first_best (visited ++ [x]) k v.
Proof.
  intros Hx Hle (i & Hi & Hk & Hbest). exists i. split_and!; [|done|].
  - by apply lookup_app_l_Some.
  - intros j p Hj Hp. apply lookup_snoc_Some in Hj as [[_ Hj]|[-> <-]];
      [by apply Hbest|].
    split; [done|]. intros _. apply lookup_lt_Some in Hi. lia.
Qed.

Lemma first_best_snoc_new visited x :
  (∀ j p, visited !! j = Some p → dedupe_key p = dedupe_key x →
          (items_length p < items_length x)%nat) →
  first_best (visited ++ [x]) (dedupe_key x) x.
Proof.
  intros Hless. exists (length visited). split_and!; [|done|].
  - by apply list_lookup_middle.
  - intros j p Hj Hp. apply lookup_snoc_Some in Hj as [[_ Hj]|[-> <-]].
    + specialize (Hless j p Hj Hp). lia.
    + done.
Qed.

Lemma best_step visited seen x :
  dedupe_inv visited seen → best_inv visited seen →
  best_inv (visited ++ [x]) (dedupe_step seen x).
Proof.
  intros Hinv Hbest k v. unfold dedupe_step.
  destruct (map_get (dedupe_key x) seen) as [existing|] eqn:Hget.
  - destruct (Hbest _ _ Hget) as (i & Hi & Hk & Hmax).
    destruct (Nat.ltb_spec (items_length existing) (items_length x)) as [Hlt|Hge].
    + destruct (decide (dedupe_key x = k)) as [<-|Hne].
      * rewrite map_get_set_eq. intros [= <-].
        apply first_best_snoc_new. intros j p Hj Hp.
        destruct (Hmax j p Hj Hp) as [Hle _]. lia.
      * rewrite map_get_set_ne by done. intros Hg.
        apply first_best_snoc_other; [done|]. by apply Hbest.
    + intros Hg. destruct (decide (dedupe_key x = k)) as [<-|Hne].
      * assert (v = existing) as -> by congruence.
        apply first_best_snoc_keep; [done|done|]. by apply Hbest.
      * apply first_best_snoc_other; [done|]. by apply Hbest.
  - destruct (decide (dedupe_key x = k)) as [<-|Hne].
    + rewrite map_get_set_eq. intros [= <-].
      apply first_best_snoc_new. intros j p Hj Hp.
      assert (p ∈ visited) as Hin by (by eapply list_elem_of_lookup_2).
      destruct (inv_complete _ _ Hinv p Hin) as [v' Hv']. congruence.
    + rewrite map_get_set_ne by done. intros Hg.
      apply first_best_snoc_other; [done|]. by apply Hbest.
Qed.

Lemma best_foldl l : ∀ visited seen,
  dedupe_inv visited seen → best_inv visited seen →
  best_inv (visited ++ l) (foldl dedupe_step seen l).
Proof.
  induction l as [|x l IH]; intros visited seen Hinv Hbest; simpl.
  - by rewrite app_nil_r.
  - replace (visited ++ x :: l) with ((visited ++ [x]) ++ l)
      by by rewrite <- app_assoc.
    apply IH; [by apply inv_step|by apply best_step].
Qed.
End BestFacts.

Section DedupeChoice.
Import Lock DedupeFacts KeyOrder BestFacts.

(** X21: which list [deduplicatePrepLists] keeps for a key: the first, in
    the order of its argument, of the lists of that key that have the most
    items.  A later list replaces the one kept only when it has strictly
    more items; among lists with equally many items the earliest stays. *)
Theorem X21_dedupe_keeps_first_best (l : list PrepList.t) (q : PrepList.t) :
  q ∈ deduplicatePrepLists l → first_best l (dedupe_key q) q.
Proof.
  unfold deduplicatePrepLists, map_values. intros Hq.
  apply list_elem_of_fmap in Hq as ([k v] & -> & Hin). simpl.
  pose proof (inv_dedupe l) as Hinv.
  apply (elem_map_get _ _ _ (inv_nodup _ _ Hinv)) in Hin.
  destruct (inv_sound _ _ Hinv _ _ Hin) as (Hk & _).
  rewrite Hk. apply (best_foldl l [] []); [apply inv_nil| |done].
  intros k' v'. done.
Qed.
End DedupeChoice.

(** ** What the diagnosis of the reference variant lists *)

Module ListingFacts.
Import Eff EffFacts Ref Listing.

Section WithBackend.
Context {R : Type} `{Backend R}.
Implicit Types (v : World (Svc * Diagnosis.t) R).

Lemma probe_run table v :
  ∃ vd v1,
    probeTable table v = (Ok tt, v1) ∧
    log v1 = log v ++ [(SelectLimit1 table "id", vd)] ∧
    Diagnosis.tables (snd (svc v1))
      = Diagnosis.tables (snd (svc v))
        ++ table_entry (SelectLimit1 table "id", vd) ∧
    Diagnosis.accessible (snd (svc v1))
      = Diagnosis.accessible (snd (svc v))
        || some_listed (table_entry (SelectLimit1 table "id", vd)) ∧
    identity (snd (svc v1)) = identity (snd (svc v)) ∧
    Diagnosis.rlsStatus (snd (svc v1)) = Diagnosis.rlsStatus (snd (svc v)).
Proof.
  unfold probeTable, try_catch, bind, call, read, update.
  destruct (respond (SelectLimit1 table "id") (remote v))
    as [[e|[d [err|]]] r2]; simpl.
  - eexists _, _. split_and!; [reflexivity|reflexivity|..]; simpl;
      by rewrite ?app_nil_r, ?orb_false_r.
  - destruct (code_is "42501" err || JS.includes "RLS" (JsError.message err))
      eqn:Hrls; simpl.
    + eexists _, _. split_and!; [reflexivity|reflexivity|..]; simpl;
        unfold refused_by_rls; rewrite ?Hrls; simpl; by rewrite ?orb_true_r.
    + eexists _, _. split_and!; [reflexivity|reflexivity|..]; simpl;
        unfold refused_by_rls; rewrite ?Hrls; simpl;
        by rewrite ?app_nil_r, ?orb_false_r.
  - eexists _, _. split_and!; [reflexivity|reflexivity|..]; simpl;
      by rewrite ?orb_true_r.
Qed.

Lemma probes_run (ts : list string) : ∀ v,
  ∃ tr v1,
    for_each ts probeTable v = (Ok tt, v1) ∧
    log v1 = log v ++ tr ∧
    fst <$> tr = (fun table => SelectLimit1 table "id") <$> ts ∧
    Diagnosis.tables (snd (svc v1))
      = Diagnosis.tables (snd (svc v)) ++ flat_map table_entry tr ∧
    Diagnosis.accessible (snd (svc v1))
      = Diagnosis.accessible (snd (svc v))
        || some_listed (flat_map table_entry tr) ∧
    identity (snd (svc v1)) = identity (snd (svc v)) ∧
    Diagnosis.rlsStatus (snd (svc v1)) = Diagnosis.rlsStatus (snd (svc v)).
Proof.
  induction ts as [|table ts IH]; intros v.
  - exists [], v. simpl. by rewrite !app_nil_r, orb_false_r.
  - destruct (probe_run table v) as (vd & v1 & Hp & Hl & Ht & Ha & Hi & Hr).
    destruct (IH v1) as (tr & v2 & Hloop & Hl2 & Hq & Ht2 & Ha2 & Hi2 & Hr2).
    exists ((SelectLimit1 table "id", vd) :: tr), v2.
    simpl for_each. rewrite (bind_ok _ _ _ _ _ Hp).
    split_and!.
    + exact Hloop.
    + rewrite Hl2, Hl. by rewrite <- app_assoc.
    + rewrite !fmap_cons. by rewrite Hq.
    + rewrite Ht2, Ht. cbn [flat_map]. by rewrite <- app_assoc.
    + rewrite Ha2, Ha. cbn [flat_map].
      destruct (table_entry (SelectLimit1 table "id", vd)); simpl;
        [by rewrite orb_false_r|by rewrite orb_true_r].
    + by rewrite Hi2.
    + by rewrite Hr2.
Qed.

Lemma rls_run q v :
  ∃ x v1 post,
    checkRls q v = (Ok tt, v1) ∧
    log v1 = log v ++ post ∧
    listing (snd (svc v1)) = listing (snd (svc v)) ∧
    identity (snd (svc v1)) = identity (snd (svc v)) ∧
    Diagnosis.rlsStatus (snd (svc v1))
      = <[fst q := x]> (Diagnosis.rlsStatus (snd (svc v))).
Proof.
  destruct q as [table schema].
  unfold checkRls, try_catch, bind, call, update.
  destruct (respond (PgClass table) (remote v)) as [[e|c] r2]; simpl;
    [by eexists _, _, [_]|].
  destruct (respond (PgPolicies schema table) r2) as [[e|p] r3]; simpl;
    eexists _, _, [_; _]; by rewrite <- app_assoc.
Qed.

Lemma rls_loop_run (qs : list (string * string)) : ∀ v,
  ∃ v1 post,
    for_each qs checkRls v = (Ok tt, v1) ∧
    log v1 = log v ++ post ∧
    listing (snd (svc v1)) = listing (snd (svc v)) ∧
    identity (snd (svc v1)) = identity (snd (svc v)) ∧
    ∀ t, is_Some (Diagnosis.rlsStatus (snd (svc v1)) !! t)
         ↔ is_Some (Diagnosis.rlsStatus (snd (svc v)) !! t) ∨ t ∈ qs.*1.
Proof.
  induction qs as [|q qs IH]; intros v.
  - exists v, []. rewrite app_nil_r. split_and!; [done..|].
    intros t. rewrite elem_of_nil. tauto.
  - destruct (rls_run q v) as (x & v1 & p1 & Hq & Hp1 & Hl & Hi & Hr).
    destruct (IH v1) as (v2 & p2 & Hloop & Hp2 & Hl2 & Hi2 & Hr2).
    exists v2, (p1 ++ p2). simpl for_each. rewrite (bind_ok _ _ _ _ _ Hq).
    split_and!; [done| |congruence|congruence|].
    { by rewrite Hp2, Hp1, app_assoc. }
    intros t. rewrite Hr2, Hr, fmap_cons, elem_of_cons.
    destruct (decide (t = fst q)) as [->|Hne].
    + rewrite lookup_insert_eq. split; [intros _|intros _; left; by eexists].
      right. by left.
    + rewrite lookup_insert_ne by done. tauto.
Qed.

Lemma auth_run v :
  match respond GetSession (remote v) with
  | (Threw e, _) => ∃ v1, checkAuthentication v = (Raise e, v1) ∧
                          snd (svc v1) = snd (svc v)
  | (o, _) =>
      ∃ v1, checkAuthentication v = (Ok tt, v1) ∧
            listing (snd (svc v1)) = listing (snd (svc v)) ∧
            Diagnosis.rlsStatus (snd (svc v1))
              = Diagnosis.rlsStatus (snd (svc v)) ∧
            Diagnosis.configured (snd (svc v1))
              = Diagnosis.configured (snd (svc v)) ∧
            Diagnosis.authenticated (snd (svc v1))
              = Diagnosis.authenticated (snd (svc v)) || session_found o
  end.
Proof.
  unfold checkAuthentication, bind, call.
  destruct (respond GetSession (remote v)) as [[e|[d [err|]]] r2]; simpl.
  - by eexists.
  - destruct d; eexists; (split_and!; [reflexivity|..]); simpl;
      by rewrite ?orb_false_r.
  - destruct d as [session|]; simpl.
    + match goal with
      | |- context [with_local ensureUserProfile ?v0] =>
          destruct (ReportFacts.ensureUserProfile_local_total v0) as [p Hp];
          assert (snd (svc (snd (with_local ensureUserProfile v0)))
                  = snd (svc v0)) as Hd
            by (unfold with_local;
                by destruct (ensureUserProfile (leave v0)));
          destruct (with_local ensureUserProfile v0) as [r1 v1]
      end.
      simpl in Hp. subst r1. simpl in Hd.
      eexists. split_and!; [reflexivity|..]; simpl; rewrite Hd; simpl;
        by rewrite ?orb_true_r.
    + eexists. split_and!; [reflexivity|..]; simpl; by rewrite ?orb_false_r.
Qed.
End WithBackend.
End ListingFacts.

Section DiagnosisListing.
Context {R : Type} `{Backend R}.
Import Eff EffFacts Ref Listing DiagnosisFacts ReportFacts ListingFacts.

(** X22: what the report of [diagnoseConnection] (reference variant) lists
    when both secrets are present.  If the session fetch throws, the
    report stops there: nothing is probed and the report holds the one
    error.  Otherwise [authenticated] tells whether a session was found;
    all six tables are probed, in order, whatever the probes answer;
    [tables] lists, in that order, each table whose probe returned no
    error, under its name, and each table whose probe was refused by
    row-level security, under its name followed by [(RLS active)];
    [accessible] holds exactly when [tables] is not empty, so a backend
    that refuses every probe by row-level security is reported as
    accessible; and [rlsStatus] has an entry for each of the six tables,
    whether its policies could be read or not. *)
Theorem X22_diagnosis_listing (w : World Svc R) :
  JS.nonempty (Env.VITE_SUPABASE_URL (env w))
    && JS.nonempty (Env.VITE_SUPABASE_ANON_KEY (env w)) = true →
  ∀ o r1, respond GetSession (remote w) = (o, r1) →
  ∃ d, fst (diagnoseConnection w) = Ok d ∧
    match o with
    | Threw e =>
        d = aborted e ∧
        log (snd (diagnoseConnection w)) = log w ++ [(GetSession, Thrown e)]
    | Answered _ =>
        Diagnosis.authenticated d = session_found o ∧
        (∃ pre tr post,
           log (snd (diagnoseConnection w)) = log w ++ pre ++ tr ++ post ∧
           fst <$> tr = probes ∧
           Diagnosis.tables d = flat_map table_entry tr) ∧
        Diagnosis.accessible d = some_listed (Diagnosis.tables d) ∧
        ∀ t, is_Some (Diagnosis.rlsStatus d !! t) ↔ t ∈ tablesToTest
    end.
Proof.
  intros Hcfg o r1 Hr.
  destruct (diagnoseConnection_run w) as (v1 & Hbody & Hrun).
  rewrite Hrun. simpl. exists (snd (svc v1)). split; [done|].
  destruct (diagnose_body_configured (enter Diagnosis.initial w) Hcfg)
    as [_ Hb].
  unfold try_catch in Hbody. rewrite Hb in Hbody. unfold bind at 1 in Hbody.
  match type of Hbody with
  | context [checkAuthentication ?v0] =>
      pose proof (auth_run v0) as Hauth; set (va := v0) in *
  end.
  change (remote va) with (remote w) in Hauth. rewrite Hr in Hauth.
  destruct o as [e|r].
  - destruct Hauth as (v2 & Ha & Hd). rewrite Ha in Hbody.
    simpl in Hbody. injection Hbody as <-. simpl. rewrite Hd. split; [done|].
    pose proof (checkAuthentication_run va) as Hlog. rewrite Ha in Hlog.
    by destruct Hlog as [-> _].
  - destruct Hauth as (v2 & Ha & Hl & Hs & Hc & Hau). rewrite Ha in Hbody.
    pose proof (checkAuthentication_run va) as Hlog. rewrite Ha in Hlog.
    destruct Hlog as (pre & Hpre & _).
    unfold bind in Hbody.
    destruct (probes_run tablesToTest v2)
      as (tr & v3 & Hloop & Hl3 & Hq & Ht & Hacc & Hi & Hr3).
    rewrite Hloop in Hbody.
    destruct (rls_loop_run rlsQueries v3)
      as (v4 & post & Hrls & Hpost & Hl4 & Hi4 & Hdom).
    rewrite Hrls in Hbody. injection Hbody as <-.
    injection Hl as Htab Hac. injection Hl4 as Htab4 Hac4.
    assert (Diagnosis.authenticated (snd (svc v3))
            = Diagnosis.authenticated (snd (svc v2))) as Hau3
      by (by injection Hi).
    assert (Diagnosis.authenticated (snd (svc v4))
            = Diagnosis.authenticated (snd (svc v3))) as Hau4
      by (by injection Hi4).
    split_and!.
    + rewrite Hau4, Hau3, Hau. done.
    + exists pre, tr, post. split_and!.
      * rewrite Hpost, Hl3, Hpre. simpl. by rewrite <- !app_assoc.
      * exact Hq.
      * rewrite Htab4, Ht, Htab. done.
    + rewrite Hac4, Hacc, Hac, Htab4, Ht, Htab. done.
    + intros t. rewrite Hdom, Hr3, Hs. simpl.
      rewrite lookup_empty. split.
      * intros [[x Hx]|Hin]; [done|exact Hin].
      * intros Hin. by right.
Qed.
End DiagnosisListing.
(** ** The maintenance utilities *)

Module RlsFacts.
Import Eff EffFacts Ref RlsSummary.
Import Maintenance.TableAccess Maintenance.RlsReport.

Section WithBackend.
Context {R : Type} `{Backend R} `{Maintenance.UtilityBackend R} `{Calendar}.
Implicit Types (v : World (Svc * Maintenance.RlsReport.t) R).



End WithBackend.
End RlsFacts.

Section RlsReport.
Import Eff Ref RlsSummary RlsFacts.
Import Maintenance.TableAccess Maintenance.RlsReport.
Context {R : Type} `{Backend R} `{Maintenance.UtilityBackend R} `{Calendar}.

End RlsReport.

Module CleanupFacts.
Import Eff EffFacts Ref.

Section WithBackend.
Context {R : Type} `{Backend R} `{Maintenance.UtilityBackend R}.
Implicit Types (w : World Svc R).

(** One table: the errors that come back are not passed on. *)
Lemma cleanTable_run table w :
  (∀ q r, ∃ a r', Maintenance.respond q r = (Answered a, r')) →
  is_Some (currentUser (svc w)) →
  ∃ n w', Maintenance.cleanTable table w = (Ok n, w') ∧
          svc w' = svc w ∧ log w' = log w.
Proof.
  intros Hans [u Hu].
  unfold Maintenance.cleanTable, bind, get, Maintenance.request.
  rewrite Hu.
  destruct (Hans (Maintenance.TestItemsOf table (User.id u)) (remote w))
    as ([d [err|]] & r1 & ->); simpl; [by eexists _, _|].
  destruct d as [[|item items]|]; simpl; [by eexists _, _| |by eexists _, _].
  match goal with
  | |- context [Maintenance.respond ?q r1] =>
      destruct (Hans q r1) as ([d2 [err2|]] & r2 & ->)
  end; simpl; by eexists _, _.
Qed.

Lemma cleanTables_run ts total w :
  (∀ q r, ∃ a r', Maintenance.respond q r = (Answered a, r')) →
  is_Some (currentUser (svc w)) →
  ∃ n w', Maintenance.cleanTables ts total w = (Ok n, w') ∧
          svc w' = svc w ∧ log w' = log w.
Proof.
  intros Hans. revert total w.
  induction ts as [|t ts IH]; intros total w Hu; simpl.
  - by exists total, w.
  - destruct (cleanTable_run t w Hans Hu) as (n & w1 & Hrun & Hs & Hl).
    unfold bind. rewrite Hrun.
    destruct (IH (total + n) w1) as (n' & w2 & Hrun2 & Hs2 & Hl2);
      [by rewrite Hs|].
    exists n', w2. split_and!; [done|congruence..].
Qed.
End WithBackend.
End CleanupFacts.

Section Cleanup.
Import Eff EffFacts Ref Outcomes OutcomeFacts CleanupFacts.
Context {R : Type} `{Backend R} `{Maintenance.UtilityBackend R}.

(** X24: [cleanupTestData] once the pre-flight has passed.  Without a
    signed-in user it raises the authentication error and sends nothing.
    With one, and as long as its listings and deletes come back rather than
    throw, it returns normally whatever errors they come back with: a
    refused listing or a refused delete is skipped, not reported to the
    caller. *)
Theorem X24_cleanup_skips_refusals (w w1 : World Svc R) :
  preflight w = (Ok tt, w1) →
  (currentUser (svc w1) = None →
     Maintenance.cleanupTestData w
       = (Raise (Error Maintenance.msg_cleanup_auth), w1)) ∧
  (is_Some (currentUser (svc w1)) →
   (∀ q r, ∃ a r', Maintenance.respond q r = (Answered a, r')) →
   ∃ w2, Maintenance.cleanupTestData w = (Ok tt, w2) ∧
         svc w2 = svc w1 ∧ log w2 = log w1).
Proof.
  intros Hp. unfold Maintenance.cleanupTestData.
  rewrite (execute_run _ _ _ _ Hp).
  cbv beta iota zeta delta [bind get].
  split.
  - intros Hu. rewrite Hu. reflexivity.
  - intros Hu Hans.
    destruct (cleanTables_run Maintenance.tablesToTest 0 w1 Hans Hu)
      as (n & w2 & Hrun & Hs & Hl).
    destruct Hu as [u Hu]. rewrite Hu, Hrun. by exists w2.
Qed.
End Cleanup.

(** On the signed-in service the save of [lunch] returns the stored row. *)
Lemma X1_witness_lunch_saved :
  ∃ p, fst (Ref.savePrepList Sample.lunch Sample.signed_in_world) = Eff.Ok p ∧
       PrepList.name p = Some "Lunch".
Proof.
  set (w := Sample.signed_in_world).
  destruct (@X1_saves_return_by_answer Fake.Remote Fake.backend
              w (snd (Ref.preflight w)) Fake.chef) as (Hsave & _).
  - vm_compute. reflexivity.
  - reflexivity.
  - edestruct (Hsave Sample.lunch) as [Hres _].
    + vm_compute. reflexivity.
    + vm_compute. reflexivity.
    + rewrite Hres. eexists. split; vm_compute; reflexivity.
Defined.

(** On the service as loaded, with two rows at the backend, the load
    returns the row that has a name. *)
Lemma X2_witness_mixed_rows :
  ∃ l, fst (Ref.loadPrepLists (Sample.ref_world_with Sample.mixed_rows)) = Eff.Ok l ∧
       length l = 1%nat.
Proof.
  set (w := Sample.ref_world_with Sample.mixed_rows).
  destruct (@X2_loads_return_by_answer Fake.Remote Fake.backend
              w (snd (Ref.preflight w))) as (Hload & _).
  - vm_compute. reflexivity.
  - edestruct Hload as [Hres _].
    + vm_compute. reflexivity.
    + rewrite Hres. eexists. split; vm_compute; reflexivity.
Defined.

(** An id of spaces and a no-break space is turned away; the id ["p1"]
    with a no-break space before it and a space after it is deleted as
    ["p1"]. *)
Lemma X3_witness_blank_and_padded_id :
  let blank := Some (" " +:+ Sample.nbsp +:+ " ") in
  let padded := Some (Sample.nbsp +:+ "p1 ") in
  fst (Ref.deletePrepList blank Sample.signed_in_world)
    = Eff.Raise (Error Ref.msg_delete_invalid) ∧
  fst (Ref.deletePrepList padded Sample.signed_in_world) = Eff.Ok tt ∧
  last (fst <$> Eff.log (snd (Ref.deletePrepList padded Sample.signed_in_world)))
    = Some (DeleteById "prep_lists" (Some "p1")).
Proof.
  intros blank padded.
  set (w := Sample.signed_in_world).
  assert (Ref.preflight w = (Eff.Ok tt, snd (Ref.preflight w))) as Hp
    by (vm_compute; reflexivity).
  destruct (@X3_deletePrepList_by_answer Fake.Remote Fake.backend
              w (snd (Ref.preflight w)) blank Hp) as [Hblank _].
  destruct (@X3_deletePrepList_by_answer Fake.Remote Fake.backend
              w (snd (Ref.preflight w)) padded Hp) as [_ Hsent].
  edestruct Hsent as [Hres Hlog]; [vm_compute; reflexivity..|].
  split_and!.
  - rewrite Hblank; [reflexivity|vm_compute; reflexivity].
  - rewrite Hres. reflexivity.
  - rewrite Hlog. vm_compute. reflexivity.
Defined.

(** With the secrets missing the connection test fails, and the save that
    follows is refused without a request. *)
Lemma X5_witness_unconfigured :
  let w1 := snd (Ref.testConnection Sample.unconfigured_world) in
  Ref.savePrepList Sample.lunch w1 = (Eff.Raise (Error Ref.msg_connection), w1).
Proof.
  intros w1.
  destruct (@X5_failed_test_blocks Fake.Remote Fake.backend
              Sample.unconfigured_world w1) as (_ & Hsave & _).
  - vm_compute. reflexivity.
  - apply Hsave.
Defined.

(** A probe refused by row-level security counts as a passed test. *)
Lemma X6_witness_rls_refusal :
  fst (Ref.testConnection Scenario.rls_world) = Eff.Ok true.
Proof.
  destruct (@X6_connection_verdict Fake.Remote Fake.backend Scenario.rls_world)
    as [_ Hinit].
  - reflexivity.
  - destruct (Hinit Scenario.rls_world) as [_ Hcfg]; [reflexivity|].
    erewrite Hcfg; cycle 1; [reflexivity|vm_compute; reflexivity|reflexivity].
Defined.

(** An event without id and name is upserted as it is. *)
Lemma X11_witness_anonymous_event :
  ∃ e, fst (Lock.saveEvent Scenario.anonymous_event (Sample.lock_world [])) = Eff.Ok e ∧
       Event.id e = None.
Proof.
  set (w := Sample.lock_world []).
  destruct (@X11_lock_saves_unguarded Fake.Remote Fake.backend
              w (snd (Lock.testConnection w)) true) as [_ Hsent].
  - vm_compute. reflexivity.
  - destruct (Hsent eq_refl) as [Hevent _].
    edestruct (Hevent Scenario.anonymous_event) as (Hres & _).
    + vm_compute. reflexivity.
    + rewrite Hres. eexists. split; vm_compute; reflexivity.
Defined.

(** While the save of [lunch] is in flight, the save of the same list
    without its items is not written. *)
Lemma X19_witness_changed_items :
  ∃ h w', Lock.savePrepList Scenario.lunch_changed Scenario.busy_world = (Eff.Ok h, w') ∧
          (h = Lock.Waiting 0 ∨ h = Lock.Done Scenario.lunch_changed) ∧
          Eff.log w' = [].
Proof.
  destruct (@X19_inflight_save_absorbs Fake.Remote Fake.backend json_ascii
              Scenario.busy_world Sample.lunch Scenario.lunch_changed 0%nat)
    as (_ & h & w' & Hrun & Hh & Hlog & _).
  - reflexivity.
  - reflexivity.
  - reflexivity.
  - vm_compute. reflexivity.
  - by exists h, w'.
Defined.

(** Of three lists of one key, the third, the only one with an item, is
    kept. *)
Lemma X21_witness_third_row :
  KeyOrder.first_best (Lock.prepList_of_item <$> Sample.colliding_rows)
    "Lunch_north_kitchen"
    (Lock.prepList_of_item
       (Sample.prep_list_row "3" "Lunch" (Some "north_kitchen") [Sample.onions])).
Proof.
  apply (X21_dedupe_keeps_first_best
           (Lock.prepList_of_item <$> Sample.colliding_rows)
           (Lock.prepList_of_item
              (Sample.prep_list_row "3" "Lunch" (Some "north_kitchen")
                                    [Sample.onions]))).
  vm_compute. apply list_elem_of_here.
Defined.

(** In front of a backend without session that refuses every probe by
    row-level security, the report is not authenticated and has a status for
    [events]. *)
Lemma X22_witness_rls_refusal :
  ∃ d, fst (Ref.diagnoseConnection Scenario.rls_world) = Eff.Ok d ∧
       Ref.Diagnosis.authenticated d = false ∧
       Ref.Diagnosis.accessible d = Listing.some_listed (Ref.Diagnosis.tables d) ∧
       is_Some (Ref.Diagnosis.rlsStatus d !! "events").
Proof.
  edestruct (@X22_diagnosis_listing Fake.Remote Fake.backend Scenario.rls_world)
    as (d & Hd & Hrep).
  - reflexivity.
  - vm_compute. reflexivity.
  - cbv beta iota in Hrep. destruct Hrep as (Hauth & _ & Hacc & Hrls).
    exists d. split_and!; [exact Hd|exact Hauth|exact Hacc|].
    apply Hrls. vm_compute. do 2 apply list_elem_of_further.
    apply list_elem_of_here.
Defined.

(** In front of a database that refuses every listing of test rows the
    cleanup of the signed-in chef still returns normally. *)
Lemma X24_witness_all_refused :
  fst (Maintenance.cleanupTestData Scenario.settled_world) = Eff.Ok tt.
Proof.
  set (w := Scenario.settled_world).
  assert (Ref.preflight w = (Eff.Ok tt, snd (Ref.preflight w))) as Hp
    by (vm_compute; reflexivity).
  destruct (@X24_cleanup_skips_refusals Fake.Remote Fake.backend
              FakeMaintenance.backend w (snd (Ref.preflight w)) Hp)
    as [_ Hrun].
  destruct Hrun as (w2 & Hw2 & _).
  - vm_compute. by eexists.
  - intros q r. by eexists _, _.
  - by rewrite Hw2.
Defined.
